(** * UI discovery and selector generation: a shallow embedding

    The development follows two classes of the repository:

    - [ElementFinder] (the enhanced element finder script): categorised
      discovery into the [foundElements] accumulator, descriptor extraction
      ([getElementInfo]), selector synthesis ([generateSelectors]) and the
      duplicate filter ([isDuplicate]);
    - [UIElementDiscovery] (deep-inspect.js): one-screen discovery
      ([discoverElementsOnCurrentScreen]), the selector generators
      ([generateSelector], [generateInputSelector]) and the shallow
      click exploration ([exploreClickableElements]).

    The WebdriverIO session is an external collaborator.  It is a record of
    operations over an abstract world state; every operation may resolve,
    reject, or throw synchronously.  Methods of the two classes are
    computations in a state-and-exception monad whose state holds the world,
    the list of driver calls issued so far, and the mutable objects of the
    class.  [console.log] has no effect on any of these and is left out. *)

From Stdlib Require Import List String Ascii Bool Arith ZArith Lia DecimalString.
From Stdlib Require Import Permutation DecimalNat.
Import ListNotations.
Open Scope string_scope.
Open Scope list_scope.

Set Implicit Arguments.

(* ================================================================== *)
(** * JavaScript strings and values *)
(* ================================================================== *)

Module Js.

(** A string is a sequence of code units; the model keeps the code units
    below 256.  ECMAScript WhiteSpace and LineTerminator code points in that
    range are TAB, LF, VT, FF, CR, SP and NBSP. *)
Definition is_ws (c : ascii) : bool :=
  let n := nat_of_ascii c in
  ((n =? 9) || (n =? 10) || (n =? 11) || (n =? 12) || (n =? 13)
   || (n =? 32) || (n =? 160))%nat.

Fixpoint trimStart (s : string) : string :=
  match s with
  | EmptyString => EmptyString
  | String c rest => if is_ws c then trimStart rest else s
  end.

Fixpoint rev_onto (s acc : string) : string :=
  match s with
  | EmptyString => acc
  | String c rest => rev_onto rest (String c acc)
  end.

Definition reverse (s : string) : string := rev_onto s EmptyString.

Definition trimEnd (s : string) : string := reverse (trimStart (reverse s)).

(** [String.prototype.trim] *)
Definition trim (s : string) : string := trimEnd (trimStart s).

(** Truthiness of a string: every string but the empty one. *)
Definition truthy_str (s : string) : bool :=
  match s with EmptyString => false | String _ _ => true end.

(** An attribute value: [getAttribute] resolves to a string or to [null]. *)
Definition value := option string.

Definition truthy (v : value) : bool :=
  match v with Some s => truthy_str s | None => false end.

(** [v && v.trim()] used as a condition. *)
Definition truthy_trimmed (v : value) : bool :=
  match v with Some s => truthy_str s && truthy_str (trim s) | None => false end.

(** The string a truthy value denotes inside a template literal. *)
Definition str (v : value) : string :=
  match v with Some s => s | None => "null" end.

(** [v.trim()] for a value known to be a string. *)
Definition trimmed (v : value) : string := trim (str v).

(** Strict equality [===] on strings and on values. *)
Definition seq_str (a b : string) : bool := String.eqb a b.

Definition seq (a b : value) : bool :=
  match a, b with
  | Some x, Some y => String.eqb x y
  | None, None => true
  | _, _ => false
  end.

(** [s.startsWith(p)] *)
Definition startsWith (p s : string) : bool := String.prefix p s.

(** The double quote character, and a quoted string. *)
Definition dq : string := String (ascii_of_nat 34) EmptyString.
Definition quoted (s : string) : string := (dq ++ s ++ dq)%string.

(** Decimal rendering of a number inside a template literal. *)
Definition num (n : nat) : string := NilEmpty.string_of_uint (Nat.to_uint n).

(** [s.replace(/[:.]/g, '-')] *)
Fixpoint replace_colon_dot (s : string) : string :=
  match s with
  | EmptyString => EmptyString
  | String c rest =>
      String (if (Ascii.eqb c ":"%char || Ascii.eqb c "."%char)%bool
              then "-"%char else c)
             (replace_colon_dot rest)
  end.

(** [s.split('.').pop()]: the part of [s] after its last dot. *)
Fixpoint last_segment_from (s cur : string) : string :=
  match s with
  | EmptyString => reverse cur
  | String c rest =>
      if Ascii.eqb c "."%char then last_segment_from rest EmptyString
      else last_segment_from rest (String c cur)
  end.

Definition split_dot_pop (s : string) : string := last_segment_from s EmptyString.

(** The rectangle [getRect] resolves to. *)
Record Rect := { x : Z; y : Z; width : Z; height : Z }.

(** [bounds]: a rectangle, or the empty object [{}] of the [catch] arm. *)
Definition bounds := option Rect.
Definition empty_object : bounds := None.

End Js.

(* ================================================================== *)
(** * Selector synthesis *)
(* ================================================================== *)

Module Selectors.
Import Js.
Local Open Scope string_scope.

Definition xpath_resource_id (r : string) := "//*[@resource-id=" ++ quoted r ++ "]".
Definition ui_resource_id (r : string) := "android=new UiSelector().resourceId(" ++ quoted r ++ ")".
Definition xpath_text (t : string) := "//*[@text=" ++ quoted t ++ "]".
Definition ui_text (t : string) := "android=new UiSelector().text(" ++ quoted t ++ ")".
Definition xpath_content_desc (c : string) := "//*[@content-desc=" ++ quoted c ++ "]".
Definition ui_description (c : string) := "android=new UiSelector().description(" ++ quoted c ++ ")".
Definition ui_text_contains (h : string) := "android=new UiSelector().textContains(" ++ quoted h ++ ")".
Definition xpath_edit_hint (h : string) := "//android.widget.EditText[@hint=" ++ quoted h ++ "]".
Definition xpath_edit_position (k : nat) := "(//android.widget.EditText)[" ++ num k ++ "]".

Local Open Scope list_scope.

(** [ElementFinder.generateSelectors(text, className, resourceId, contentDesc)] *)
Definition generateSelectors (text : string) (className resourceId contentDesc : value)
  : list string :=
  let selectors := [] in
  let selectors :=
    if truthy resourceId
    then selectors ++ [xpath_resource_id (str resourceId); ui_resource_id (str resourceId)]
    else selectors in
  let selectors :=
    if truthy_str text && truthy_str (trim text)
    then selectors ++ [xpath_text (trim text); ui_text (trim text)]
    else selectors in
  let selectors :=
    if truthy_trimmed contentDesc
    then selectors ++ [xpath_content_desc (trimmed contentDesc); ui_description (trimmed contentDesc)]
    else selectors in
  selectors.

(** [UIElementDiscovery.generateSelector(tagName, text, contentDesc, resourceId)] *)
Definition generateSelector (tagName text : string) (contentDesc resourceId : value)
  : list string :=
  let selectors := [] in
  let selectors :=
    if truthy resourceId
    then selectors ++ [ui_resource_id (str resourceId); xpath_resource_id (str resourceId)]
    else selectors in
  let selectors :=
    if truthy_str text && truthy_str (trim text)
    then selectors ++ [ui_text (trim text); xpath_text (trim text)]
    else selectors in
  let selectors :=
    if truthy_trimmed contentDesc
    then selectors ++ [ui_description (trimmed contentDesc); xpath_content_desc (trimmed contentDesc)]
    else selectors in
  selectors.

(** [UIElementDiscovery.generateInputSelector(hint, resourceId, index)] *)
Definition generateInputSelector (hint resourceId : value) (index : nat) : list string :=
  let selectors := [] in
  let selectors :=
    if truthy resourceId
    then selectors ++ [ui_resource_id (str resourceId); xpath_resource_id (str resourceId)]
    else selectors in
  let selectors :=
    if truthy_trimmed hint
    then selectors ++ [ui_text_contains (trimmed hint); xpath_edit_hint (trimmed hint)]
    else selectors in
  let selectors := selectors ++ [xpath_edit_position (index + 1)] in
  selectors.

(** The tier a locator string belongs to, read off its fixed head. *)
Inductive tier := ByIdentifier | ByText | ByLabel | ByPosition.

Definition tier_of (s : string) : option tier :=
  if startsWith "//*[@resource-id=" s then Some ByIdentifier
  else if startsWith "android=new UiSelector().resourceId(" s then Some ByIdentifier
  else if startsWith "//*[@text=" s then Some ByText
  else if startsWith "android=new UiSelector().text(" s then Some ByText
  else if startsWith "android=new UiSelector().textContains(" s then Some ByText
  else if startsWith "//android.widget.EditText[@hint=" s then Some ByText
  else if startsWith "//*[@content-desc=" s then Some ByLabel
  else if startsWith "android=new UiSelector().description(" s then Some ByLabel
  else if startsWith "(//android.widget.EditText)[" s then Some ByPosition
  else None.

Definition is_positional (s : string) : bool :=
  match tier_of s with Some ByPosition => true | _ => false end.

(** How many locator strings a tier contributes. *)
Definition tier_block (present : bool) (t : tier) : list (option tier) :=
  if present then [Some t; Some t] else [].

End Selectors.

(* ================================================================== *)
(** * The automation session and the monad of the scripts *)
(* ================================================================== *)

Module Effects.
Import Js.

(** What a call of a session method does: the promise it returns resolves
    or rejects; or the call throws before returning a promise. *)
Inductive outcome (A : Type) : Type :=
| Resolved (a : A)
| Rejected
| Thrown.
Arguments Rejected {A}.
Arguments Thrown {A}.

(** How a statement completes. *)
Inductive completion (A : Type) : Type :=
| Normal (a : A)
| Raised.
Arguments Raised {A}.

Section Session.
Variables W E : Type.

(** The capability surface the scripts use, over the state [W] of the
    device and handles [E] of located nodes.  [now] is the clock behind
    [new Date().toISOString()] and [sleep] the passing of [ms] milliseconds
    in [setTimeout]. *)
Record Driver : Type := {
  find_all : string -> W -> outcome (list E) * W;
  find_one : string -> W -> outcome E * W;
  isDisplayed : E -> W -> outcome bool * W;
  getText : E -> W -> outcome string * W;
  getTagName : E -> W -> outcome string * W;
  getAttribute : E -> string -> W -> outcome value * W;
  getRect : E -> W -> outcome Rect * W;
  click : E -> W -> outcome unit * W;
  back : W -> outcome unit * W;
  saveScreenshot : string -> W -> outcome unit * W;
  getCurrentActivity : W -> outcome value * W;
  getCurrentPackage : W -> outcome string * W;
  getPageSource : W -> outcome string * W;
  getWindowSize : W -> outcome (Z * Z) * W;
  now : W -> string;
  sleep : nat -> W -> W
}.

(** The session calls a script issues, in the order it issues them. *)
Inductive Call : Type :=
| CFindAll (selector : string)
| CFindOne (selector : string)
| CIsDisplayed (e : E)
| CGetText (e : E)
| CGetTagName (e : E)
| CGetAttribute (e : E) (name : string)
| CGetRect (e : E)
| CClick (e : E)
| CBack
| CSaveScreenshot (path : string)
| CGetCurrentActivity
| CGetCurrentPackage
| CGetPageSource
| CGetWindowSize.

Definition is_click (c : Call) : bool :=
  match c with CClick _ => true | _ => false end.

Section Monad.
Variable H : Type.

(** The state a method runs in: the device, the calls issued so far, and
    the mutable objects [H] of the class instance. *)
Record St : Type := { world : W; calls : list Call; heap : H }.

Definition M (A : Type) : Type := St -> completion A * St.

Definition ret {A} (a : A) : M A := fun s => (Normal a, s).

Definition raise {A} : M A := fun s => (Raised, s).

Definition bind {A B} (m : M A) (f : A -> M B) : M B :=
  fun s => match m s with
           | (Normal a, s') => f a s'
           | (Raised, s') => (Raised, s')
           end.

(** [try { m } catch (error) { h }]: the state reached when the exception
    was raised is kept. *)
Definition try_catch {A} (m h : M A) : M A :=
  fun s => match m s with
           | (Normal a, s') => (Normal a, s')
           | (Raised, s') => h s'
           end.

Definition get_heap : M H := fun s => (Normal (heap s), s).

Definition modify_heap (f : H -> H) : M unit :=
  fun s => (Normal tt, {| world := world s; calls := calls s; heap := f (heap s) |}).

(** [await op(...)]: the call is logged and the world moves on; a
    rejection or a throw raises. *)
Definition call {A} (c : Call) (op : W -> outcome A * W) : M A :=
  fun s =>
    let (r, w') := op (world s) in
    let s' := {| world := w'; calls := calls s ++ [c]; heap := heap s |} in
    match r with
    | Resolved a => (Normal a, s')
    | Rejected | Thrown => (Raised, s')
    end.

(** [await op(...).catch(() => dflt)]: a rejection is replaced by [dflt];
    a throw happens before [.catch] is attached and raises. *)
Definition call_catch {A} (c : Call) (op : W -> outcome A * W) (dflt : A) : M A :=
  fun s =>
    let (r, w') := op (world s) in
    let s' := {| world := w'; calls := calls s ++ [c]; heap := heap s |} in
    match r with
    | Resolved a => (Normal a, s')
    | Rejected => (Normal dflt, s')
    | Thrown => (Raised, s')
    end.

(** [await this.wait(ms)] *)
Definition wait (d : Driver) (ms : nat) : M unit :=
  fun s => (Normal tt, {| world := sleep d ms (world s); calls := calls s; heap := heap s |}).

(** [new Date().toISOString()] *)
Definition toISOString (d : Driver) : M string :=
  fun s => (Normal (now d (world s)), s).

(** [for (const x of xs) body] *)
Fixpoint for_of {X} (xs : list X) (body : X -> M unit) : M unit :=
  match xs with
  | [] => ret tt
  | x :: rest => bind (body x) (fun _ => for_of rest body)
  end.

(** [for (let i = start; i < start + xs.length; i++) body(i, xs[i - start])] *)
Fixpoint for_index {X} (i : nat) (xs : list X) (body : nat -> X -> M unit) : M unit :=
  match xs with
  | [] => ret tt
  | x :: rest => bind (body i x) (fun _ => for_index (S i) rest body)
  end.

End Monad.
End Session.

Arguments ret {W E H A}.
Arguments raise {W E H A}.
Arguments bind {W E H A B}.
Arguments try_catch {W E H A}.
Arguments get_heap {W E H}.
Arguments modify_heap {W E H}.
Arguments call {W E H A}.
Arguments call_catch {W E H A}.
Arguments wait {W E H}.
Arguments toISOString {W E H}.
Arguments for_of {W E H X}.
Arguments for_index {W E H X}.
Arguments CBack {E}.
Arguments CFindAll {E}.
Arguments CFindOne {E}.
Arguments CSaveScreenshot {E}.
Arguments CGetCurrentActivity {E}.
Arguments CGetCurrentPackage {E}.
Arguments CGetPageSource {E}.
Arguments CGetWindowSize {E}.

Declare Scope js_scope.
Delimit Scope js_scope with js.
Notation "x <- m ;; k" := (bind m (fun x => k))
  (at level 61, m at next level, right associativity) : js_scope.
Notation "m ;; k" := (bind m (fun _ => k))
  (at level 61, right associativity) : js_scope.

End Effects.

(* ================================================================== *)
(** * ElementFinder *)
(* ================================================================== *)

Module ElementFinder.
Import Js Selectors Effects.
Local Open Scope js_scope.

(** The descriptor [getElementInfo] returns.  [inputType] and [checked] are
    the properties [findInputFields] and [findCheckboxes] add afterwards;
    [None] stands for a property that was never set. *)
Record Info : Type := {
  text : string;
  className : value;
  resourceId : value;
  contentDesc : value;
  clickable : bool;
  enabled : bool;
  bounds : Js.bounds;
  selectors : list string;
  inputType : option value;
  checked : option value
}.

Definition set_inputType (v : value) (i : Info) : Info :=
  {| text := text i; className := className i; resourceId := resourceId i;
     contentDesc := contentDesc i; clickable := clickable i; enabled := enabled i;
     bounds := bounds i; selectors := selectors i;
     inputType := Some v; checked := checked i |}.

Definition set_checked (v : value) (i : Info) : Info :=
  {| text := text i; className := className i; resourceId := resourceId i;
     contentDesc := contentDesc i; clickable := clickable i; enabled := enabled i;
     bounds := bounds i; selectors := selectors i;
     inputType := inputType i; checked := Some v |}.

(** [this.foundElements] *)
Record FoundElements : Type := {
  buttons : list Info;
  inputs : list Info;
  texts : list Info;
  images : list Info;
  lists : list Info;
  checkboxes : list Info;
  radioButtons : list Info;
  switches : list Info;
  sliders : list Info;
  tabs : list Info;
  menus : list Info;
  custom : list Info
}.

Definition no_elements : FoundElements :=
  {| buttons := []; inputs := []; texts := []; images := []; lists := [];
     checkboxes := []; radioButtons := []; switches := []; sliders := [];
     tabs := []; menus := []; custom := [] |}.

Inductive Kind := KButtons | KInputs | KTexts | KImages | KLists | KCheckboxes | KCustom.

Definition list_of (k : Kind) (f : FoundElements) : list Info :=
  match k with
  | KButtons => buttons f | KInputs => inputs f | KTexts => texts f
  | KImages => images f | KLists => lists f | KCheckboxes => checkboxes f
  | KCustom => custom f
  end.

(** [this.foundElements.<k>.push(info)] *)
Definition push (k : Kind) (info : Info) (f : FoundElements) : FoundElements :=
  let add (k' : Kind) (l : list Info) :=
    match k, k' with
    | KButtons, KButtons | KInputs, KInputs | KTexts, KTexts | KImages, KImages
    | KLists, KLists | KCheckboxes, KCheckboxes | KCustom, KCustom => l ++ [info]
    | _, _ => l
    end in
  {| buttons := add KButtons (buttons f); inputs := add KInputs (inputs f);
     texts := add KTexts (texts f); images := add KImages (images f);
     lists := add KLists (lists f); checkboxes := add KCheckboxes (checkboxes f);
     radioButtons := radioButtons f; switches := switches f; sliders := sliders f;
     tabs := tabs f; menus := menus f; custom := add KCustom (custom f) |}.

(** [isDuplicate(array, newItem)] *)
Definition isDuplicate (array : list Info) (newItem : Info) : bool :=
  existsb (fun item =>
             seq (resourceId item) (resourceId newItem)
             && seq_str (text item) (text newItem)
             && seq (className item) (className newItem))
          array.

(** The descriptor of the [catch] arm of [getElementInfo]. *)
Definition fallback_info : Info :=
  {| text := EmptyString; className := Some EmptyString; resourceId := Some EmptyString;
     contentDesc := Some EmptyString; clickable := false; enabled := true;
     bounds := empty_object; selectors := [];
     inputType := None; checked := None |}.

Section Methods.
Variables W E : Type.
Variable driver : Driver W E.

Local Abbreviation M := (Effects.M W E FoundElements).

Definition getElementInfo (element : E) : M Info :=
  try_catch
    (text <- call_catch (CGetText element) (getText driver element) EmptyString ;;
     className <- call_catch (CGetAttribute element "class")
                    (getAttribute driver element "class") (Some EmptyString) ;;
     resourceId <- call_catch (CGetAttribute element "resource-id")
                    (getAttribute driver element "resource-id") (Some EmptyString) ;;
     contentDesc <- call_catch (CGetAttribute element "content-desc")
                    (getAttribute driver element "content-desc") (Some EmptyString) ;;
     clickable <- call_catch (CGetAttribute element "clickable")
                    (getAttribute driver element "clickable") (Some "false") ;;
     enabled <- call_catch (CGetAttribute element "enabled")
                    (getAttribute driver element "enabled") (Some "true") ;;
     bounds <- call_catch (CGetRect element)
                    (fun w => let (r, w') := getRect driver element w in
                              (match r with
                               | Resolved b => Resolved (Some b)
                               | Rejected => Rejected
                               | Thrown => Thrown
                               end, w'))
                    empty_object ;;
     ret {| text := trim text;
            className := className;
            resourceId := resourceId;
            contentDesc := contentDesc;
            clickable := seq clickable (Some "true");
            enabled := seq enabled (Some "true");
            bounds := bounds;
            selectors := generateSelectors text className resourceId contentDesc;
            inputType := None; checked := None |})
    (ret fallback_info).

(** [if (!this.isDuplicate(this.foundElements.<k>, info))
       this.foundElements.<k>.push(info)] *)
Definition add_unless_duplicate (k : Kind) (info : Info) : M unit :=
  found <- get_heap ;;
  if negb (isDuplicate (list_of k found) info)
  then modify_heap (push k info)
  else ret tt.

Definition findButtons : M unit :=
  for_of ["//android.widget.Button";
          "//*[@clickable=" ++ quoted "true" ++ " and @text]";
          "//*[contains(@resource-id, " ++ quoted "button" ++ ")]";
          "//*[contains(@resource-id, " ++ quoted "btn" ++ ")]"]%string
    (fun selector =>
       try_catch
         (elements <- call (CFindAll selector) (find_all driver selector) ;;
          for_of elements (fun element =>
            displayed <- call (CIsDisplayed element) (isDisplayed driver element) ;;
            if (displayed : bool) then
              info <- getElementInfo element ;;
              add_unless_duplicate KButtons info
            else ret tt))
         (ret tt)).

Definition findInputFields : M unit :=
  for_of ["//android.widget.EditText";
          "//*[contains(@resource-id, " ++ quoted "edit" ++ ")]";
          "//*[contains(@resource-id, " ++ quoted "input" ++ ")]"]%string
    (fun selector =>
       try_catch
         (elements <- call (CFindAll selector) (find_all driver selector) ;;
          for_of elements (fun element =>
            displayed <- call (CIsDisplayed element) (isDisplayed driver element) ;;
            if (displayed : bool) then
              info <- getElementInfo element ;;
              inputType <- call_catch (CGetAttribute element "android:inputType")
                             (getAttribute driver element "android:inputType")
                             (Some "text") ;;
              add_unless_duplicate KInputs (set_inputType inputType info)
            else ret tt))
         (ret tt)).

(** The query of [findTextElements] is issued before the loop, outside
    every [try]. *)
Definition findTextElements : M unit :=
  elements <- call (CFindAll "//android.widget.TextView")
                (find_all driver "//android.widget.TextView") ;;
  for_of (firstn 20 elements) (fun element =>
    try_catch
      (displayed <- call (CIsDisplayed element) (isDisplayed driver element) ;;
       if (displayed : bool) then
         info <- getElementInfo element ;;
         if truthy_str (text info) && truthy_str (trim (text info))
            && Nat.ltb 0 (String.length (text info))
         then add_unless_duplicate KTexts info
         else ret tt
       else ret tt)
      (ret tt)).

Definition findImageElements : M unit :=
  for_of ["//android.widget.ImageView"; "//android.widget.ImageButton"]%string
    (fun selector =>
       try_catch
         (elements <- call (CFindAll selector) (find_all driver selector) ;;
          for_of elements (fun element =>
            displayed <- call (CIsDisplayed element) (isDisplayed driver element) ;;
            if (displayed : bool) then
              info <- getElementInfo element ;;
              add_unless_duplicate KImages info
            else ret tt))
         (ret tt)).

Definition findListElements : M unit :=
  for_of ["//android.widget.ListView"; "//android.widget.RecyclerView";
          "//androidx.recyclerview.widget.RecyclerView"]%string
    (fun selector =>
       try_catch
         (elements <- call (CFindAll selector) (find_all driver selector) ;;
          for_of elements (fun element =>
            displayed <- call (CIsDisplayed element) (isDisplayed driver element) ;;
            if (displayed : bool) then
              info <- getElementInfo element ;;
              add_unless_duplicate KLists info
            else ret tt))
         (ret tt)).

Definition findCheckboxes : M unit :=
  for_of ["//android.widget.CheckBox";
          "//*[@checkable=" ++ quoted "true" ++ "]"]%string
    (fun selector =>
       try_catch
         (elements <- call (CFindAll selector) (find_all driver selector) ;;
          for_of elements (fun element =>
            displayed <- call (CIsDisplayed element) (isDisplayed driver element) ;;
            if (displayed : bool) then
              info <- getElementInfo element ;;
              checked <- call_catch (CGetAttribute element "checked")
                           (getAttribute driver element "checked") (Some "false") ;;
              add_unless_duplicate KCheckboxes (set_checked checked info)
            else ret tt))
         (ret tt)).

(** [className.startsWith(p)]; on [null] the property access raises. *)
Definition value_startsWith (p : string) (v : value) : M bool :=
  match v with
  | Some s => ret (startsWith p s)
  | None => raise
  end.

Definition findCustomElements : M unit :=
  try_catch
    (allElements <- call (CFindAll "//*[@resource-id]")
                      (find_all driver "//*[@resource-id]") ;;
     for_of (firstn 15 allElements) (fun element =>
       try_catch
         (displayed <- call (CIsDisplayed element) (isDisplayed driver element) ;;
          if (displayed : bool) then
            resourceId <- call (CGetAttribute element "resource-id")
                            (getAttribute driver element "resource-id") ;;
            className <- call (CGetAttribute element "class")
                            (getAttribute driver element "class") ;;
            if truthy resourceId then
              widget <- value_startsWith "android.widget." className ;;
              if negb widget then
                view <- value_startsWith "android.view." className ;;
                if negb view then
                  info <- getElementInfo element ;;
                  add_unless_duplicate KCustom info
                else ret tt
              else ret tt
            else ret tt
          else ret tt)
         (ret tt)))
    (ret tt).

Definition findAllElementTypes : M FoundElements :=
  findButtons ;;
  findInputFields ;;
  findTextElements ;;
  findImageElements ;;
  findListElements ;;
  findCheckboxes ;;
  findCustomElements ;;
  get_heap.

End Methods.
End ElementFinder.

(* ================================================================== *)
(** * UIElementDiscovery *)
(* ================================================================== *)

Module UIElementDiscovery.
Import Js Selectors Effects.
Local Open Scope js_scope.

(** An entry of [elements.clickable]. *)
Module Clickable.
Record t : Type := {
  index : nat;
  text : string;
  tagName : string;
  contentDesc : value;
  resourceId : value;
  bounds : Js.bounds;
  selectors : list string
}.
End Clickable.

(** An entry of [elements.inputs]. *)
Module Input.
Record t : Type := {
  index : nat;
  text : string;
  hint : value;
  resourceId : value;
  bounds : Js.bounds;
  selectors : list string
}.
End Input.

(** An entry of [elements.texts]. *)
Module Text.
Record t : Type := {
  index : nat;
  text : string;
  resourceId : value;
  bounds : Js.bounds
}.
End Text.

(** An entry of [elements.scrollable]. *)
Module Scrollable.
Record t : Type := {
  index : nat;
  tagName : string;
  resourceId : value;
  bounds : Js.bounds
}.
End Scrollable.

(** The [elements] object of one discovery pass; [buttons] is allocated
    and never written. *)
Record Elements : Type := {
  clickable : list Clickable.t;
  inputs : list Input.t;
  texts : list Text.t;
  buttons : list unit;
  scrollable : list Scrollable.t
}.

Definition no_elements : Elements :=
  {| clickable := []; inputs := []; texts := []; buttons := []; scrollable := [] |}.

Definition push_clickable (c : Clickable.t) (e : Elements) : Elements :=
  {| clickable := clickable e ++ [c]; inputs := inputs e; texts := texts e;
     buttons := buttons e; scrollable := scrollable e |}.

Definition push_input (i : Input.t) (e : Elements) : Elements :=
  {| clickable := clickable e; inputs := inputs e ++ [i]; texts := texts e;
     buttons := buttons e; scrollable := scrollable e |}.

Definition push_text (t : Text.t) (e : Elements) : Elements :=
  {| clickable := clickable e; inputs := inputs e; texts := texts e ++ [t];
     buttons := buttons e; scrollable := scrollable e |}.

Definition push_scrollable (c : Scrollable.t) (e : Elements) : Elements :=
  {| clickable := clickable e; inputs := inputs e; texts := texts e;
     buttons := buttons e; scrollable := scrollable e ++ [c] |}.

(** The object [getCurrentScreenInfo] builds, over the type [A] of its
    [activity]. *)
Record ScreenInfoOf (A : Type) : Type := {
  activity : A;
  package : string;
  pageSource : string;
  windowSize : Z * Z;
  timestamp : string
}.

(** What [getCurrentScreenInfo] returns: [getCurrentActivity] resolves to
    a string, or to [null] when no activity has the focus. *)
Definition ScreenInfo : Type := ScreenInfoOf value.

(** The [screenInfo] of a snapshot.  A snapshot is built only after
    [screenInfo.activity.split('.')] went through, so that its activity is
    a string. *)
Definition SnapshotInfo : Type := ScreenInfoOf string.

(** The same object, its activity being the string [a]. *)
Definition with_activity (info : ScreenInfo) (a : string) : SnapshotInfo :=
  {| activity := a; package := package info; pageSource := pageSource info;
     windowSize := windowSize info; timestamp := timestamp info |}.

(** What [discoverElementsOnCurrentScreen] returns; [screenshot] is the
    file name, or [None] for [null]. *)
Record Screen : Type := {
  screenInfo : SnapshotInfo;
  elements : Elements;
  screenshot : option string
}.

Section Methods.
Variables W E : Type.
Variable driver : Driver W E.

(** The mutable objects and variables of an instance and of its running
    method: [this.discoveredScreens]; the [elements] object of the running
    [discoverElementsOnCurrentScreen]; the variable [targetElement] of the
    running iteration of [exploreClickableElements].  [this.allElements] is
    allocated by the constructor and never read or written. *)
Record Heap : Type := {
  discoveredScreens : list Screen;
  current : Elements;
  targetElement : option E
}.

Definition set_current (f : Elements -> Elements) (h : Heap) : Heap :=
  {| discoveredScreens := discoveredScreens h; current := f (current h);
     targetElement := targetElement h |}.

Definition set_targetElement (t : option E) (h : Heap) : Heap :=
  {| discoveredScreens := discoveredScreens h; current := current h;
     targetElement := t |}.

Definition push_screen (s : Screen) (h : Heap) : Heap :=
  {| discoveredScreens := discoveredScreens h ++ [s]; current := current h;
     targetElement := targetElement h |}.

Local Abbreviation M := (Effects.M W E Heap).

(** [element.getRect().catch(() => ({}))] *)
Definition getRect_or_empty (element : E) : M Js.bounds :=
  call_catch (CGetRect element)
    (fun w => let (r, w') := getRect driver element w in
              (match r with
               | Resolved b => Resolved (Some b)
               | Rejected => Rejected
               | Thrown => Thrown
               end, w'))
    empty_object.

Definition takeScreenshot (name : string) : M (option string) :=
  try_catch
    (now <- toISOString driver ;;
     let timestamp := replace_colon_dot now in
     let filename := (name ++ "_" ++ timestamp ++ ".png")%string in
     call (CSaveScreenshot ("./screenshots/" ++ filename)%string)
          (saveScreenshot driver ("./screenshots/" ++ filename)%string) ;;
     ret (Some filename))
    (ret None).

Definition getCurrentScreenInfo : M (option ScreenInfo) :=
  try_catch
    (activity <- call CGetCurrentActivity (getCurrentActivity driver) ;;
     packageName <- call CGetCurrentPackage (getCurrentPackage driver) ;;
     pageSource <- call CGetPageSource (getPageSource driver) ;;
     windowSize <- call CGetWindowSize (getWindowSize driver) ;;
     timestamp <- toISOString driver ;;
     ret (Some ({| activity := activity; package := packageName;
                   pageSource := pageSource; windowSize := windowSize;
                   timestamp := timestamp |} : ScreenInfo)))
    (ret None).

(** The four query-and-loop blocks inside the [try] of
    [discoverElementsOnCurrentScreen]. *)
Definition discover_clickable : M unit :=
  let selector := ("//*[@clickable=" ++ quoted "true" ++ "]")%string in
  clickableElements <- call (CFindAll selector) (find_all driver selector) ;;
  for_index 0 clickableElements (fun i element =>
    try_catch
      (displayed <- call (CIsDisplayed element) (isDisplayed driver element) ;;
       if (displayed : bool) then
         text <- call_catch (CGetText element) (getText driver element) EmptyString ;;
         tagName <- call_catch (CGetTagName element) (getTagName driver element) EmptyString ;;
         bounds <- getRect_or_empty element ;;
         contentDesc <- call_catch (CGetAttribute element "content-desc")
                          (getAttribute driver element "content-desc") (Some EmptyString) ;;
         resourceId <- call_catch (CGetAttribute element "resource-id")
                          (getAttribute driver element "resource-id") (Some EmptyString) ;;
         modify_heap (set_current (push_clickable
           {| Clickable.index := i;
              Clickable.text := trim text;
              Clickable.tagName := tagName;
              Clickable.contentDesc := contentDesc;
              Clickable.resourceId := resourceId;
              Clickable.bounds := bounds;
              Clickable.selectors := generateSelector tagName text contentDesc resourceId |}))
       else ret tt)
      (ret tt)).

Definition discover_inputs : M unit :=
  inputElements <- call (CFindAll "//android.widget.EditText")
                     (find_all driver "//android.widget.EditText") ;;
  for_index 0 inputElements (fun i element =>
    try_catch
      (displayed <- call (CIsDisplayed element) (isDisplayed driver element) ;;
       if (displayed : bool) then
         text <- call_catch (CGetText element) (getText driver element) EmptyString ;;
         hint <- call_catch (CGetAttribute element "hint")
                   (getAttribute driver element "hint") (Some EmptyString) ;;
         resourceId <- call_catch (CGetAttribute element "resource-id")
                   (getAttribute driver element "resource-id") (Some EmptyString) ;;
         bounds <- getRect_or_empty element ;;
         modify_heap (set_current (push_input
           {| Input.index := i;
              Input.text := trim text;
              Input.hint := hint;
              Input.resourceId := resourceId;
              Input.bounds := bounds;
              Input.selectors := generateInputSelector hint resourceId i |}))
       else ret tt)
      (ret tt)).

Definition discover_texts : M unit :=
  textElements <- call (CFindAll "//android.widget.TextView")
                    (find_all driver "//android.widget.TextView") ;;
  for_index 0 (firstn 20 textElements) (fun i element =>
    try_catch
      (displayed <- call (CIsDisplayed element) (isDisplayed driver element) ;;
       if (displayed : bool) then
         text <- call_catch (CGetText element) (getText driver element) EmptyString ;;
         resourceId <- call_catch (CGetAttribute element "resource-id")
                   (getAttribute driver element "resource-id") (Some EmptyString) ;;
         bounds <- getRect_or_empty element ;;
         if truthy_str text && truthy_str (trim text) && Nat.ltb 0 (String.length text)
         then modify_heap (set_current (push_text
                {| Text.index := i;
                   Text.text := trim text;
                   Text.resourceId := resourceId;
                   Text.bounds := bounds |}))
         else ret tt
       else ret tt)
      (ret tt)).

Definition discover_scrollable : M unit :=
  let selector := ("//*[@scrollable=" ++ quoted "true" ++ "]")%string in
  scrollableElements <- call (CFindAll selector) (find_all driver selector) ;;
  for_index 0 scrollableElements (fun i element =>
    try_catch
      (displayed <- call (CIsDisplayed element) (isDisplayed driver element) ;;
       if (displayed : bool) then
         tagName <- call_catch (CGetTagName element) (getTagName driver element) EmptyString ;;
         resourceId <- call_catch (CGetAttribute element "resource-id")
                   (getAttribute driver element "resource-id") (Some EmptyString) ;;
         bounds <- getRect_or_empty element ;;
         modify_heap (set_current (push_scrollable
           {| Scrollable.index := i;
              Scrollable.tagName := tagName;
              Scrollable.resourceId := resourceId;
              Scrollable.bounds := bounds |}))
       else ret tt)
      (ret tt)).

(** The [try { ... } catch (error) { console.log(...) }] that fills
    [elements]. *)
Definition discover_queries : M unit :=
  try_catch
    (discover_clickable ;;
     discover_inputs ;;
     discover_texts ;;
     discover_scrollable)
    (ret tt).

(** The [return] statement evaluates [screenInfo.activity.split('.')]
    outside every [try]: on a [null] activity it throws, after the
    queries and before any screenshot. *)
Definition discoverElementsOnCurrentScreen : M (option Screen) :=
  screenInfo <- getCurrentScreenInfo ;;
  match screenInfo with
  | None => ret None
  | Some screenInfo =>
      modify_heap (set_current (fun _ => no_elements)) ;;
      discover_queries ;;
      h <- get_heap ;;
      match activity screenInfo with
      | None => raise
      | Some activity =>
          screenshot <- takeScreenshot ("screen_" ++ split_dot_pop activity)%string ;;
          ret (Some {| screenInfo := with_activity screenInfo activity;
                       elements := current h;
                       screenshot := screenshot |})
      end
  end.

(** [for (const selector of xpathSelectors) { try { ...; if (...) break; }
    catch (e) { } }]: the body answers whether the loop is left. *)
Fixpoint for_of_break {X} (xs : list X) (body : X -> M bool) : M unit :=
  match xs with
  | [] => ret tt
  | x :: rest =>
      leave <- body x ;;
      if (leave : bool) then ret tt else for_of_break rest body
  end.

Definition locate_by_xpath (selectors : list string) : M unit :=
  let xpathSelectors := filter (startsWith "//") selectors in
  for_of_break xpathSelectors (fun selector =>
    try_catch
      (target <- call (CFindOne selector) (find_one driver selector) ;;
       modify_heap (set_targetElement (Some target)) ;;
       displayed <- call (CIsDisplayed target) (isDisplayed driver target) ;;
       ret displayed)
      (ret false)).

(** The [if (!targetElement) { ... }] fallback. *)
Definition locate_fallback (element : Clickable.t) : M unit :=
  h <- get_heap ;;
  match targetElement h with
  | Some _ => ret tt
  | None =>
      if truthy (Clickable.resourceId element) then
        let selector := xpath_resource_id (str (Clickable.resourceId element)) in
        target <- call (CFindOne selector) (find_one driver selector) ;;
        modify_heap (set_targetElement (Some target))
      else if truthy_str (Clickable.text element) then
        let selector := xpath_text (Clickable.text element) in
        target <- call (CFindOne selector) (find_one driver selector) ;;
        modify_heap (set_targetElement (Some target))
      else if truthy (Clickable.contentDesc element) then
        let selector := xpath_content_desc (str (Clickable.contentDesc element)) in
        target <- call (CFindOne selector) (find_one driver selector) ;;
        modify_heap (set_targetElement (Some target))
      else ret tt
  end.

(** The [if (targetElement) { try { ... } catch (clickError) { ... } }]
    block. *)
Definition click_and_discover : M unit :=
  h <- get_heap ;;
  match targetElement h with
  | Some target =>
      try_catch
        (displayed <- call (CIsDisplayed target) (isDisplayed driver target) ;;
         if (displayed : bool) then
           call (CClick target) (click driver target) ;;
           wait driver 3000 ;;
           newScreen <- discoverElementsOnCurrentScreen ;;
           match newScreen with
           | Some newScreen => modify_heap (push_screen newScreen)
           | None => ret tt
           end ;;
           call CBack (back driver) ;;
           wait driver 2000
         else ret tt)
        (ret tt)
  | None => ret tt
  end.

(** The body of the loop of [exploreClickableElements]. *)
Definition explore_element (element : Clickable.t) : M unit :=
  if truthy_str (Clickable.text element) || truthy (Clickable.contentDesc element) then
    try_catch
      (modify_heap (set_targetElement None) ;;
       match Clickable.selectors element with
       | [] => ret tt
       | _ :: _ => locate_by_xpath (Clickable.selectors element)
       end ;;
       locate_fallback element ;;
       click_and_discover)
      (ret tt)
  else ret tt.

Definition exploreClickableElements : M unit :=
  mainScreen <- discoverElementsOnCurrentScreen ;;
  match mainScreen with
  | None => ret tt
  | Some mainScreen =>
      modify_heap (push_screen mainScreen) ;;
      let clickableElements := clickable (elements mainScreen) in
      for_of (firstn 5 clickableElements) explore_element
  end.

End Methods.
End UIElementDiscovery.

(* ================================================================== *)
(** * A scripted session for concrete runs *)
(* ================================================================== *)

Module Mock.
Import Js Selectors Effects.

(** Three nodes on the screen: node 0 is a button with text and a
    resource id, node 1 has text only, node 2 is a bare container. *)
Definition node := nat.

Definition node_text (n : node) : string :=
  match n with 0 => "Dome" | 1 => "Harvesting" | _ => EmptyString end.

Definition node_attribute (n : node) (name : string) : value :=
  if String.eqb name "resource-id" then
    match n with 0 => Some "com.app:id/dome" | _ => Some EmptyString end
  else if String.eqb name "class" then
    match n with 0 => Some "android.widget.Button" | _ => Some "android.view.ViewGroup" end
  else if String.eqb name "clickable" then Some "true"
  else if String.eqb name "enabled" then Some "true"
  else None.

(** Which operations of the session fail, and how. *)
Record Faults : Type := {
  query_rejects : string -> bool;
  getters_reject : bool;
  getters_throw : bool;
  screenshot_rejects : bool;
  click_rejects : node -> bool
}.

Definition healthy : Faults :=
  {| query_rejects := fun _ => false; getters_reject := false; getters_throw := false;
     screenshot_rejects := false; click_rejects := fun _ => false |}.

Definition getter {A} (f : Faults) (a : A) : unit -> outcome A * unit :=
  fun w => if getters_throw f then (Thrown, w)
           else if getters_reject f then (Rejected, w)
           else (Resolved a, w).

Definition session (f : Faults) : Driver unit node :=
  {| find_all := fun selector w =>
       if query_rejects f selector then (Rejected, w) else (Resolved [0; 1; 2], w);
     find_one := fun selector w =>
       if String.eqb selector (xpath_resource_id "com.app:id/dome") then (Resolved 0, w)
       else if String.eqb selector (xpath_text "Harvesting") then (Resolved 1, w)
       else (Resolved 2, w);
     isDisplayed := fun _ w => (Resolved true, w);
     getText := fun n => getter f (node_text n);
     getTagName := fun n => getter f "android.widget.Button";
     getAttribute := fun n name => getter f (node_attribute n name);
     getRect := fun n => getter f {| x := 0; y := Z.of_nat n * 100; width := 200; height := 80 |};
     click := fun n w => if click_rejects f n then (Rejected, w) else (Resolved tt, w);
     back := fun w => (Resolved tt, w);
     saveScreenshot := fun _ w =>
       if screenshot_rejects f then (Rejected, w) else (Resolved tt, w);
     getCurrentActivity := fun w => (Resolved (Some "com.app.MainActivity"), w);
     getCurrentPackage := fun w => (Resolved "com.app", w);
     getPageSource := fun w => (Resolved "<hierarchy/>", w);
     getWindowSize := fun w => (Resolved (1080, 2400)%Z, w);
     now := fun _ => "2024-01-01T00:00:00.000Z";
     sleep := fun _ w => w |}.

(** Every attribute getter of every node rejects. *)
Definition rejecting_getters : Faults :=
  {| query_rejects := fun _ => false; getters_reject := true; getters_throw := false;
     screenshot_rejects := false; click_rejects := fun _ => false |}.

(** Every attribute getter of every node throws. *)
Definition throwing_getters : Faults :=
  {| query_rejects := fun _ => false; getters_reject := false; getters_throw := true;
     screenshot_rejects := false; click_rejects := fun _ => false |}.

(** The session rejects the TextView query and answers every other one. *)
Definition textview_query_rejects : Faults :=
  {| query_rejects := fun selector => String.eqb selector "//android.widget.TextView";
     getters_reject := false; getters_throw := false;
     screenshot_rejects := false; click_rejects := fun _ => false |}.

(** The session rejects the Button query and answers every other one. *)
Definition button_query_rejects : Faults :=
  {| query_rejects := fun selector => String.eqb selector "//android.widget.Button";
     getters_reject := false; getters_throw := false;
     screenshot_rejects := false; click_rejects := fun _ => false |}.

Definition screenshot_fails : Faults :=
  {| query_rejects := fun _ => false; getters_reject := false; getters_throw := false;
     screenshot_rejects := true; click_rejects := fun _ => false |}.

(** Clicking node 0 rejects. *)
Definition click_fails : Faults :=
  {| query_rejects := fun _ => false; getters_reject := false; getters_throw := false;
     screenshot_rejects := false; click_rejects := fun n => Nat.eqb n 0 |}.

(** The healthy session on a device where no activity has the focus:
    [getCurrentActivity] resolves to [null]. *)
Definition no_focus : Driver unit node :=
  let d := session healthy in
  {| find_all := find_all d; find_one := find_one d; isDisplayed := isDisplayed d;
     getText := getText d; getTagName := getTagName d; getAttribute := getAttribute d;
     getRect := getRect d; click := click d; back := back d;
     saveScreenshot := saveScreenshot d;
     getCurrentActivity := fun w => (Resolved None, w);
     getCurrentPackage := getCurrentPackage d; getPageSource := getPageSource d;
     getWindowSize := getWindowSize d; now := now d; sleep := sleep d |}.

(** An operation of the healthy session, on a device whose state tells
    whether the focus is lost. *)
Definition on_device {A} (op : unit -> outcome A * unit) : bool -> outcome A * bool :=
  fun w => (fst (op tt), w).

(** The healthy session on a device that loses the focused activity when
    a node is clicked and has it again after [back]. *)
Definition focus_lost_by_click : Driver bool node :=
  let d := session healthy in
  {| find_all := fun selector => on_device (find_all d selector);
     find_one := fun selector => on_device (find_one d selector);
     isDisplayed := fun n => on_device (isDisplayed d n);
     getText := fun n => on_device (getText d n);
     getTagName := fun n => on_device (getTagName d n);
     getAttribute := fun n name => on_device (getAttribute d n name);
     getRect := fun n => on_device (getRect d n);
     click := fun _ _ => (Resolved tt, true);
     back := fun _ => (Resolved tt, false);
     saveScreenshot := fun path => on_device (saveScreenshot d path);
     getCurrentActivity := fun lost =>
       (Resolved (if (lost : bool) then None else Some "com.app.MainActivity"), lost);
     getCurrentPackage := on_device (getCurrentPackage d);
     getPageSource := on_device (getPageSource d);
     getWindowSize := on_device (getWindowSize d);
     now := fun _ => now d tt;
     sleep := fun _ w => w |}.

(** A fresh [ElementFinder] / [UIElementDiscovery] on the scripted device. *)
Definition finder_start : St unit node ElementFinder.FoundElements :=
  {| world := tt; calls := []; heap := ElementFinder.no_elements |}.

Definition discovery_start : St unit node (UIElementDiscovery.Heap node) :=
  {| world := tt; calls := [];
     heap := {| UIElementDiscovery.discoveredScreens := [];
                UIElementDiscovery.current := UIElementDiscovery.no_elements;
                UIElementDiscovery.targetElement := None |} |}.

(** A fresh [UIElementDiscovery] on the device that loses the focus. *)
Definition focused_start : St bool node (UIElementDiscovery.Heap node) :=
  {| world := false; calls := [];
     heap := {| UIElementDiscovery.discoveredScreens := [];
                UIElementDiscovery.current := UIElementDiscovery.no_elements;
                UIElementDiscovery.targetElement := None |} |}.

(** The snapshot of the screen on the healthy session. *)
Definition healthy_screen : UIElementDiscovery.Screen :=
  Eval vm_compute in
    match fst (UIElementDiscovery.discoverElementsOnCurrentScreen
                 (session healthy) discovery_start) with
    | Normal (Some screen) => screen
    | _ => {| UIElementDiscovery.screenInfo :=
                {| UIElementDiscovery.activity := EmptyString;
                   UIElementDiscovery.package := EmptyString;
                   UIElementDiscovery.pageSource := EmptyString;
                   UIElementDiscovery.windowSize := (0, 0)%Z;
                   UIElementDiscovery.timestamp := EmptyString |};
              UIElementDiscovery.elements := UIElementDiscovery.no_elements;
              UIElementDiscovery.screenshot := None |}
    end.

(** Was [selector] ever passed to [driver.$$]? *)
Definition queried (selector : string) (cs : list (Call node)) : bool :=
  existsb (fun c => match c with
                    | CFindAll s => String.eqb s selector
                    | _ => false
                    end) cs.

(** Two descriptors with one key and different bounds. *)
Definition dome_at (top : Z) : ElementFinder.Info :=
  {| ElementFinder.text := "Dome";
     ElementFinder.className := Some "android.widget.Button";
     ElementFinder.resourceId := Some "com.app:id/dome";
     ElementFinder.contentDesc := None;
     ElementFinder.clickable := true;
     ElementFinder.enabled := true;
     ElementFinder.bounds := Some {| x := 0; y := top; width := 200; height := 80 |};
     ElementFinder.selectors := [];
     ElementFinder.inputType := None;
     ElementFinder.checked := None |}.

End Mock.

(* ================================================================== *)
(** * Predicates of the statements *)
(* ================================================================== *)

Module Props.
Import Js Selectors Effects.

(** The locator strings each builder yields on the empty string. *)
Definition built_from_empty : list string :=
  [xpath_resource_id EmptyString; ui_resource_id EmptyString;
   xpath_text EmptyString; ui_text EmptyString;
   xpath_content_desc EmptyString; ui_description EmptyString;
   ui_text_contains EmptyString; xpath_edit_hint EmptyString].

Definition from_empty_attribute (s : string) : bool :=
  existsb (String.eqb s) built_from_empty.

(** An attribute that is a string and is not empty once trimmed. *)
Definition nonblank (v : value) : bool :=
  match v with Some s => truthy_str (trim s) | None => false end.

(** The key the duplicate filter compares. *)
Definition same_key (a b : ElementFinder.Info) : Prop :=
  ElementFinder.resourceId a = ElementFinder.resourceId b
  /\ ElementFinder.text a = ElementFinder.text b
  /\ ElementFinder.className a = ElementFinder.className b.

Section Logic.
Variables W E H : Type.

(** A session operation that never resolves: it rejects or throws in
    every state of the device. *)
Definition fails {A} (op : W -> outcome A * W) : Prop :=
  forall w, fst (op w) = Rejected \/ fst (op w) = Thrown.

(** [m] completes normally from every state. *)
Definition returns {A} (m : M W E H A) : Prop :=
  forall s, exists a, fst (m s) = Normal a.

(** [I] holds after [m], however [m] completes, when it held before. *)
Definition preserves {A} (I : St W E H -> Prop) (m : M W E H A) : Prop :=
  forall s, I s -> I (snd (m s)).

(** Number of [click] calls among the calls issued so far. *)
Definition clicks_issued (s : St W E H) : nat :=
  List.length (filter (@is_click E) (calls s)).

(** The state a loop reaches when each body completes normally: the bodies
    run one after the other, each from the state its predecessor left. *)
Definition run_each {X} (body : X -> M W E H unit) (xs : list X) (s : St W E H)
  : St W E H :=
  fold_left (fun s x => snd (body x s)) xs s.

(** A property of the call log and of the heap, read on a state. *)
Definition lifted (I : list (Call E) -> H -> Prop) : St W E H -> Prop :=
  fun s => I (calls s) (heap s).

(** From a state in [P], [m] ends in a state in [Q], however it completes. *)
Definition triple {A} (P : St W E H -> Prop) (m : M W E H A) (Q : St W E H -> Prop)
  : Prop :=
  forall s, P s -> Q (snd (m s)).

End Logic.

Arguments fails {W A}.
Arguments returns {W E H A}.
Arguments preserves {W E H A}.
Arguments clicks_issued {W E H}.
Arguments run_each {W E H X}.
Arguments lifted {W E H}.
Arguments triple {W E H A}.

Section Discovery.
Import UIElementDiscovery.
Variable E : Type.

(** [n] clicks were issued and the captured screens are [ds]. *)
Definition quiet (n : nat) (ds : list Screen) : list (Call E) -> Heap E -> Prop :=
  fun cs h => List.length (filter (@is_click E) cs) = n /\ discoveredScreens h = ds.

(** At most [n] clicks were issued, and the captured screens are [ds]
    followed by at most [k] more. *)
Definition within (n k : nat) (ds : list Screen) : list (Call E) -> Heap E -> Prop :=
  fun cs h =>
    List.length (filter (@is_click E) cs) <= n
    /\ exists more, discoveredScreens h = ds ++ more /\ List.length more <= k.

(** The selectors of an input descriptor are those [generateInputSelector]
    yields on its hint, resource id and index. *)
Definition located_by_index (i : Input.t) : Prop :=
  Input.selectors i
  = generateInputSelector (Input.hint i) (Input.resourceId i) (Input.index i).

Definition inputs_located : list (Call E) -> Heap E -> Prop :=
  fun _ h => Forall located_by_index (inputs (current h)).

(** The descriptor has text or an accessibility label. *)
Definition labelled (c : Clickable.t) : bool :=
  truthy_str (Clickable.text c) || truthy (Clickable.contentDesc c).

End Discovery.

End Props.

(* ================================================================== *)
(** * Test case generation *)
(* ================================================================== *)

Module TestCases.
Import Js Selectors Effects UIElementDiscovery.
Local Open Scope string_scope.

(** What a test case carries besides its texts: the first text entries of
    the screen ([elements]), or the descriptor under test ([element]). *)
Inductive Subject : Type :=
| Elements (texts : list Text.t)
| ClickElement (element : Clickable.t)
| InputElement (element : Input.t).

Record TestCase : Type := {
  name : string;
  type : string;
  description : string;
  steps : list string;
  subject : Subject
}.

(** [element.text || element.contentDesc] inside a template literal. *)
Definition text_or_label (element : Clickable.t) : string :=
  if truthy_str (Clickable.text element) then Clickable.text element
  else str (Clickable.contentDesc element).

(** [element.hint || other] inside a template literal. *)
Definition hint_or (element : Input.t) (other : string) : string :=
  if truthy (Input.hint element) then str (Input.hint element) else other.

Definition screen_load_case (screen : Screen) : TestCase :=
  let screenName := split_dot_pop (activity (screenInfo screen)) in
  {| name := "Test " ++ screenName ++ " Screen Loading";
     type := "screen_load";
     description := "Verify that " ++ screenName ++ " screen loads correctly";
     steps := ["Launch the app";
               "Navigate to " ++ screenName ++ " screen";
               "Verify screen elements are displayed"];
     subject := Elements (firstn 3 (texts (elements screen))) |}.

Definition click_case (element : Clickable.t) : TestCase :=
  {| name := "Test Click " ++ text_or_label element;
     type := "click_interaction";
     description := "Test clicking on " ++ text_or_label element;
     steps := ["Launch the app";
               "Locate element: " ++ text_or_label element;
               "Click the element";
               "Verify expected behavior"];
     subject := ClickElement element |}.

Definition input_case (index : nat) (element : Input.t) : TestCase :=
  {| name := "Test Input Field " ++ hint_or element ("Input " ++ num (index + 1));
     type := "input_interaction";
     description := "Test input functionality for " ++ hint_or element "input field";
     steps := ["Launch the app";
               "Locate input field: " ++ hint_or element "input field";
               "Enter test data";
               "Verify input is accepted"];
     subject := InputElement element |}.

(** [screen.elements.clickable.forEach(...)]: one case per descriptor with
    text or label, pushed onto [testCases]. *)
Fixpoint click_cases (testCases : list TestCase) (clickables : list Clickable.t)
  : list TestCase :=
  match clickables with
  | [] => testCases
  | element :: rest =>
      if truthy_str (Clickable.text element) || truthy (Clickable.contentDesc element)
      then click_cases (testCases ++ [click_case element])%list rest
      else click_cases testCases rest
  end.

(** [screen.elements.inputs.forEach((element, index) => ...)] *)
Fixpoint input_cases (testCases : list TestCase) (index : nat) (inputs : list Input.t)
  : list TestCase :=
  match inputs with
  | [] => testCases
  | element :: rest =>
      input_cases (testCases ++ [input_case index element])%list (S index) rest
  end.

(** The body of [this.discoveredScreens.forEach((screen, screenIndex) => ...)] *)
Definition screen_cases (testCases : list TestCase) (screen : Screen) : list TestCase :=
  let testCases := (testCases ++ [screen_load_case screen])%list in
  let testCases := click_cases testCases (clickable (elements screen)) in
  input_cases testCases 0 (inputs (elements screen)).

(** [generateTestCases()], on the value of [this.discoveredScreens]. *)
Definition generateTestCases (discoveredScreens : list Screen) : list TestCase :=
  fold_left screen_cases discoveredScreens [].

End TestCases.

(* ================================================================== *)
(** * The two scripts: connect, discover, report, release *)
(* ================================================================== *)

Module Runs.
Import Js Effects.

(** What a script asks of its host besides the session's own methods:
    the file system, the creation of the session and its release. *)
Inductive HostCall : Type :=
| HMkdir (dir : string)
| HRemote
| HDeleteSession
| HWriteFile (path content : string).

Record Host (W : Type) : Type := {
  existsSync : string -> W -> bool;
  mkdirSync : string -> W -> outcome unit * W;
  remote : W -> outcome unit * W;
  deleteSession : W -> outcome unit * W;
  writeFileSync : string -> string -> W -> outcome unit * W
}.

(** The variables of a running script: whether [driver] was assigned, the
    objects of the finder or discovery instance, and the host calls made
    so far. *)
Record Run (I : Type) : Type := {
  driver_assigned : bool;
  instance : I;
  host_calls : list HostCall
}.

Definition assign_driver {I} (b : bool) (r : Run I) : Run I :=
  {| driver_assigned := b; instance := instance r; host_calls := host_calls r |}.

Definition set_instance {I} (i : I) (r : Run I) : Run I :=
  {| driver_assigned := driver_assigned r; instance := i; host_calls := host_calls r |}.

Definition log_host {I} (c : HostCall) (r : Run I) : Run I :=
  {| driver_assigned := driver_assigned r; instance := instance r;
     host_calls := host_calls r ++ [c] |}.

(** [appInfo] of both result objects. *)
Record AppInfo : Type := {
  package : string;
  activity : value;
  windowSize : option (Z * Z)
}.

Record FinderSummary : Type := {
  totalButtons : nat;
  totalInputs : nat;
  totalTexts : nat;
  totalImages : nat;
  totalLists : nat;
  totalCheckboxes : nat;
  totalCustom : nat
}.

(** The object [runElementFinder] writes and returns. *)
Record FinderResults : Type := {
  finder_timestamp : string;
  finder_appInfo : AppInfo;
  finder_elements : ElementFinder.FoundElements;
  finder_summary : FinderSummary
}.

Record DeepSummary : Type := {
  totalScreens : nat;
  totalClickableElements : nat;
  totalInputElements : nat;
  totalTextElements : nat;
  totalTestCases : nat
}.

(** The object [runDeepInspection] writes and returns. *)
Record DeepResults : Type := {
  deep_timestamp : string;
  deep_appInfo : AppInfo;
  deep_discoveredScreens : list UIElementDiscovery.Screen;
  deep_generatedTestCases : list TestCases.TestCase;
  deep_summary : DeepSummary
}.

Section Scripts.
Variables W E : Type.
Variable host : Host W.
Variable driver : Driver W E.

Section Generic.
Variable I : Type.
Local Abbreviation M := (Effects.M W E (Run I)).
Local Open Scope js_scope.

(** A call of the host: logged, the world moves on; a failure raises. *)
Definition host_call {A} (c : HostCall) (op : W -> outcome A * W) : M A :=
  fun s =>
    let (r, w') := op (world s) in
    let s' := {| world := w'; calls := calls s; heap := log_host c (heap s) |} in
    match r with
    | Resolved a => (Normal a, s')
    | Rejected | Thrown => (Raised, s')
    end.

(** A method of the instance, run from inside the script. *)
Definition zoom {A} (m : Effects.M W E I A) : M A :=
  fun s =>
    let (r, s') := m {| world := world s; calls := calls s; heap := instance (heap s) |} in
    (r, {| world := world s'; calls := calls s';
           heap := set_instance (heap s') (heap s) |}).

(** [try { m } finally { f }]: [f] runs however [m] completed; the
    completion is that of [m] unless [f] raises. *)
Definition try_finally {A} (m : M A) (f : M unit) : M A :=
  fun s =>
    let (r, s') := m s in
    match f s' with
    | (Normal _, s'') => (r, s'')
    | (Raised, s'') => (Raised, s'')
    end.

(** [dirs.forEach(dir => { if (!fs.existsSync(dir)) fs.mkdirSync(dir, ...) })] *)
Definition ensure_directories : M unit :=
  for_of ["screenshots"; "test-results"]%string
    (fun dir s =>
       if existsSync host dir (world s) then (Normal tt, s)
       else host_call (HMkdir dir) (mkdirSync host dir) s).

(** [if (driver) { await driver.deleteSession(); }] *)
Definition release_session : M unit :=
  r <- get_heap ;;
  if driver_assigned r then host_call HDeleteSession (deleteSession host)
  else ret tt.

(** [driver = await remote({...}); await new Promise(r => setTimeout(r, 5000))] *)
Definition connect : M unit :=
  host_call HRemote (remote host) ;;
  modify_heap (assign_driver true) ;;
  wait driver 5000.

(** The [appInfo] object literal. *)
Definition read_appInfo : M AppInfo :=
  package <- call_catch CGetCurrentPackage (getCurrentPackage driver) "unknown"%string ;;
  activity <- call_catch CGetCurrentActivity (getCurrentActivity driver)
                (Some "unknown"%string) ;;
  windowSize <- call_catch CGetWindowSize
                  (fun w => let (r, w') := getWindowSize driver w in
                            (match r with
                             | Resolved size => Resolved (Some size)
                             | Rejected => Rejected
                             | Thrown => Thrown
                             end, w'))
                  None ;;
  ret {| package := package; activity := activity; windowSize := windowSize |}.

End Generic.

Arguments host_call {I A}.
Arguments zoom {I A}.
Arguments try_finally {I A}.
Arguments ensure_directories {I}.
Arguments release_session {I}.
Arguments connect {I}.
Arguments read_appInfo {I}.

Local Open Scope js_scope.

(** [JSON.stringify(results, null, 2)] for the two result objects. *)
Variable stringify_finder : FinderResults -> string.
Variable stringify_deep : DeepResults -> string.

Definition runElementFinder
  : Effects.M W E (Run ElementFinder.FoundElements) (option FinderResults) :=
  ensure_directories ;;
  modify_heap (assign_driver false) ;;
  try_finally
    (try_catch
       (connect ;;
        modify_heap (set_instance ElementFinder.no_elements) ;;
        foundElements <- zoom (ElementFinder.findAllElementTypes driver) ;;
        call (CSaveScreenshot "./screenshots/element_discovery.png")
             (saveScreenshot driver "./screenshots/element_discovery.png") ;;
        timestamp <- toISOString driver ;;
        appInfo <- read_appInfo ;;
        let results :=
          {| finder_timestamp := timestamp;
             finder_appInfo := appInfo;
             finder_elements := foundElements;
             finder_summary :=
               {| totalButtons := List.length (ElementFinder.buttons foundElements);
                  totalInputs := List.length (ElementFinder.inputs foundElements);
                  totalTexts := List.length (ElementFinder.texts foundElements);
                  totalImages := List.length (ElementFinder.images foundElements);
                  totalLists := List.length (ElementFinder.lists foundElements);
                  totalCheckboxes := List.length (ElementFinder.checkboxes foundElements);
                  totalCustom := List.length (ElementFinder.custom foundElements) |} |} in
        host_call (HWriteFile "./test-results/element_discovery.json"
                                (stringify_finder results))
                  (writeFileSync host "./test-results/element_discovery.json"
                                 (stringify_finder results)) ;;
        ret (Some results))
       (ret None))
    (release_session).

(** [new UIElementDiscovery(driver)] *)
Definition new_discovery : UIElementDiscovery.Heap E :=
  {| UIElementDiscovery.discoveredScreens := [];
     UIElementDiscovery.current := UIElementDiscovery.no_elements;
     UIElementDiscovery.targetElement := None |}.

(** [screens.reduce((sum, screen) => sum + count(screen), 0)] *)
Definition reduce_sum (count : UIElementDiscovery.Screen -> nat)
           (screens : list UIElementDiscovery.Screen) : nat :=
  fold_left (fun sum screen => sum + count screen) screens 0.

Definition runDeepInspection
  : Effects.M W E (Run (UIElementDiscovery.Heap E)) (option DeepResults) :=
  ensure_directories ;;
  modify_heap (assign_driver false) ;;
  try_finally
    (try_catch
       (connect ;;
        modify_heap (set_instance new_discovery) ;;
        zoom (UIElementDiscovery.exploreClickableElements driver) ;;
        discovery <- zoom get_heap ;;
        let discoveredScreens := UIElementDiscovery.discoveredScreens discovery in
        let testCases := TestCases.generateTestCases discoveredScreens in
        timestamp <- toISOString driver ;;
        appInfo <- read_appInfo ;;
        let results :=
          {| deep_timestamp := timestamp;
             deep_appInfo := appInfo;
             deep_discoveredScreens := discoveredScreens;
             deep_generatedTestCases := testCases;
             deep_summary :=
               {| totalScreens := List.length discoveredScreens;
                  totalClickableElements :=
                    reduce_sum (fun screen =>
                      List.length (UIElementDiscovery.clickable
                                     (UIElementDiscovery.elements screen)))
                      discoveredScreens;
                  totalInputElements :=
                    reduce_sum (fun screen =>
                      List.length (UIElementDiscovery.inputs
                                     (UIElementDiscovery.elements screen)))
                      discoveredScreens;
                  totalTextElements :=
                    reduce_sum (fun screen =>
                      List.length (UIElementDiscovery.texts
                                     (UIElementDiscovery.elements screen)))
                      discoveredScreens;
                  totalTestCases := List.length testCases |} |} in
        host_call (HWriteFile "./test-results/deep_inspection.json"
                                (stringify_deep results))
                  (writeFileSync host "./test-results/deep_inspection.json"
                                 (stringify_deep results)) ;;
        ret (Some results))
       (ret None))
    (release_session).

End Scripts.

Arguments existsSync {W}.
Arguments mkdirSync {W}.
Arguments remote {W}.
Arguments deleteSession {W}.
Arguments writeFileSync {W}.

End Runs.

(* ================================================================== *)
(** * A scripted host, and more predicates *)
(* ================================================================== *)

Module MockHost.
Import Js Effects Runs.

(** Which host operations fail. *)
Record HostFaults : Type := {
  dirs_exist : bool;
  mkdir_throws : bool;
  remote_rejects : bool;
  delete_rejects : bool;
  write_throws : bool
}.

Definition host (f : HostFaults) : Host unit :=
  {| existsSync := fun _ _ => dirs_exist f;
     mkdirSync := fun _ w => if mkdir_throws f then (Thrown, w) else (Resolved tt, w);
     remote := fun w => if remote_rejects f then (Rejected, w) else (Resolved tt, w);
     deleteSession := fun w => if delete_rejects f then (Rejected, w) else (Resolved tt, w);
     writeFileSync := fun _ _ w => if write_throws f then (Thrown, w) else (Resolved tt, w) |}.

Definition sound : HostFaults :=
  {| dirs_exist := false; mkdir_throws := false; remote_rejects := false;
     delete_rejects := false; write_throws := false |}.

Definition unreachable_server : HostFaults :=
  {| dirs_exist := true; mkdir_throws := false; remote_rejects := true;
     delete_rejects := false; write_throws := false |}.

(** Stand-ins for [JSON.stringify] on the two result objects. *)
Definition stringify_finder (r : FinderResults) : string := finder_timestamp r.
Definition stringify_deep (r : DeepResults) : string := deep_timestamp r.

(** A script about to start on the scripted device. *)
Definition script_start {I} (i : I) : St unit Mock.node (Run I) :=
  {| world := tt; calls := [];
     heap := {| driver_assigned := false; instance := i; host_calls := [] |} |}.

(** The healthy session, except that the current activity cannot be read. *)
Definition no_activity : Driver unit Mock.node :=
  let d := Mock.session Mock.healthy in
  {| find_all := find_all d; find_one := find_one d; isDisplayed := isDisplayed d;
     getText := getText d; getTagName := getTagName d; getAttribute := getAttribute d;
     getRect := getRect d; click := click d; back := back d;
     saveScreenshot := saveScreenshot d;
     getCurrentActivity := fun w => (Rejected, w);
     getCurrentPackage := getCurrentPackage d; getPageSource := getPageSource d;
     getWindowSize := getWindowSize d; now := now d; sleep := sleep d |}.

End MockHost.

Module MoreProps.
Import Js Selectors Effects Props Runs.

(** The key of the duplicate filter, as a value. *)
Definition key (i : ElementFinder.Info) : value * string * value :=
  (ElementFinder.resourceId i, ElementFinder.text i, ElementFinder.className i).

(** No list of the accumulator holds two entries with one key. *)
Definition distinct_keys (found : ElementFinder.FoundElements) : Prop :=
  forall k, NoDup (map key (ElementFinder.list_of k found)).

(** [s] has no occurrence of [c]. *)
Fixpoint free_of (c : ascii) (s : string) : bool :=
  match s with
  | EmptyString => true
  | String d rest => negb (Ascii.eqb d c) && free_of c rest
  end.

(** The test cases one screen gives rise to. *)
Definition cases_of (screen : UIElementDiscovery.Screen) : nat :=
  1
  + List.length (filter labelled
                   (UIElementDiscovery.clickable (UIElementDiscovery.elements screen)))
  + List.length (UIElementDiscovery.inputs (UIElementDiscovery.elements screen)).

Section Calls.
Variable E : Type.

Definition is_back (c : Call E) : bool :=
  match c with CBack => true | _ => false end.

(** A call that reads the screen: a query for all matches, a getter, a
    screenshot, or a request for the screen information. *)
Definition is_reading (c : Call E) : bool :=
  match c with
  | CClick _ | CBack | CFindOne _ => false
  | _ => true
  end.

(** A single-node lookup is by XPath; other calls are not concerned. *)
Definition lookup_by_xpath (c : Call E) : bool :=
  match c with
  | CFindOne selector => startsWith "//" selector
  | _ => true
  end.

(** A getter of [element]. *)
Definition getter_of (element : E) (c : Call E) : Prop :=
  match c with
  | CGetText e | CGetAttribute e _ | CGetRect e => e = element
  | _ => False
  end.

Definition count_calls (p : Call E -> bool) (cs : list (Call E)) : nat :=
  List.length (filter p cs).

(** The calls issued since [cs0] hold at least as many clicks as back
    navigations, and one more when [ahead] is set. *)
Definition balanced (H : Type) (cs0 : list (Call E)) (ahead : bool)
  : list (Call E) -> H -> Prop :=
  fun cs _ =>
    exists new, cs = cs0 ++ new
                /\ count_calls is_back new + (if ahead then 1 else 0)
                   <= count_calls (@is_click E) new.

(** A request for the screen information. *)
Definition info_call (c : Call E) : Prop :=
  match c with
  | CGetCurrentActivity | CGetCurrentPackage | CGetPageSource | CGetWindowSize => True
  | _ => False
  end.

(** The heap is [h0], and the calls issued since [cs0] are at most [n],
    all in [P]. *)
Definition footprint (H : Type) (P : Call E -> Prop) (cs0 : list (Call E)) (h0 : H)
           (n : nat) : list (Call E) -> H -> Prop :=
  fun cs h =>
    h = h0
    /\ exists new, cs = cs0 ++ new /\ List.length new <= n /\ Forall P new.

End Calls.

Arguments balanced {E H}.
Arguments footprint {E H}.

Definition is_delete (c : HostCall) : bool :=
  match c with HDeleteSession => true | _ => false end.

Definition is_write (c : HostCall) : bool :=
  match c with HWriteFile _ _ => true | _ => false end.

Definition is_remote (c : HostCall) : bool :=
  match c with HRemote => true | _ => false end.

Definition is_mkdir (c : HostCall) : bool :=
  match c with HMkdir _ => true | _ => false end.

Definition count_host (p : HostCall -> bool) (cs : list HostCall) : nat :=
  List.length (filter p cs).

(** While a script runs: [driver] is assigned or not, and the host calls
    made since [hc0] hold no [deleteSession] and [remotes] calls of
    [remote]. *)
Definition session_state (E I : Type) (hc0 : list HostCall) (assigned : bool)
           (remotes : nat) : list (Call E) -> Run I -> Prop :=
  fun _ r =>
    driver_assigned r = assigned
    /\ exists new, host_calls r = hc0 ++ new
                   /\ count_host is_delete new = 0
                   /\ count_host is_remote new = remotes.

(** When a script is over: [remote] was called once at most; if [driver]
    was assigned, [remote] was called and the last host call is the one
    [deleteSession]; if not, [deleteSession] was not called. *)
Definition concluded (I : Type) (hc0 : list HostCall) (r : Run I) : Prop :=
  exists new,
    host_calls r = hc0 ++ new
    /\ count_host is_remote new <= 1
    /\ if driver_assigned r
       then exists before, new = before ++ [HDeleteSession]
                           /\ count_host is_delete before = 0
                           /\ count_host is_remote before = 1
       else count_host is_delete new = 0.

Arguments session_state {E I}.
Arguments concluded {I}.

End MoreProps.

(* ================================================================== *)
(** * Strings *)
(* ================================================================== *)

Module StringFacts.
Import Js.

Lemma length_append (a b : string) :
  String.length (a ++ b) = String.length a + String.length b.
Proof. induction a as [|c a IH]; simpl; [reflexivity | now rewrite IH]. Qed.

Lemma length_quoted (s : string) : String.length (quoted s) = String.length s + 2.
Proof. unfold quoted, dq. rewrite !length_append. simpl. lia. Qed.

Lemma truthy_str_length (s : string) :
  truthy_str s = true -> 0 < String.length s.
Proof. destruct s; simpl; [discriminate | lia]. Qed.

Lemma seq_str_eq (a b : string) : seq_str a b = true <-> a = b.
Proof. unfold seq_str. apply String.eqb_eq. Qed.

Lemma seq_eq (a b : value) : seq a b = true <-> a = b.
Proof.
  destruct a as [x|], b as [y|]; simpl; split; intro Hab;
    try discriminate; try reflexivity.
  - apply String.eqb_eq in Hab. now subst.
  - injection Hab as ->. apply String.eqb_refl.
Qed.

Lemma truthy_trimmed_truthy (v : value) :
  truthy_trimmed v = true -> truthy_str (trimmed v) = true.
Proof.
  destruct v as [s|]; simpl; [|discriminate].
  intro Hs. apply andb_true_iff in Hs. apply Hs.
Qed.

End StringFacts.

(* ================================================================== *)
(** * Selector synthesis: tiers and their order *)
(* ================================================================== *)

Module SelectorFacts.
Import Js Selectors Props StringFacts.

Lemma trim_condition (text : string) :
  truthy_str text && truthy_str (trim text) = nonblank (Some text).
Proof. destruct text; reflexivity. Qed.

Lemma truthy_trimmed_nonblank (v : value) : truthy_trimmed v = nonblank v.
Proof. destruct v as [s|]; [apply trim_condition | reflexivity]. Qed.

Lemma truthy_str_of_truthy (v : value) : truthy v = true -> truthy_str (str v) = true.
Proof. destruct v; simpl; [auto | discriminate]. Qed.

Ltac nonempty_cases a :=
  destruct a as [|? [|? [|? ?]]]; [discriminate | | |];
  cbn;
  repeat match goal with
         | |- context [Ascii.eqb ?c ?d] => destruct (Ascii.eqb c d)
         end;
  reflexivity.

Lemma built_from_nonempty (a : string) :
  truthy_str a = true ->
  forallb (fun s => negb (from_empty_attribute s))
    [xpath_resource_id a; ui_resource_id a; xpath_text a; ui_text a;
     xpath_content_desc a; ui_description a; ui_text_contains a; xpath_edit_hint a] = true.
Proof. intro Ha. nonempty_cases a. Qed.

Lemma tiers_generateSelectors text className resourceId contentDesc :
  map tier_of (generateSelectors text className resourceId contentDesc)
  = tier_block (truthy resourceId) ByIdentifier
    ++ tier_block (nonblank (Some text)) ByText
    ++ tier_block (nonblank contentDesc) ByLabel.
Proof.
  unfold generateSelectors.
  rewrite trim_condition, truthy_trimmed_nonblank.
  destruct (truthy resourceId), (nonblank (Some text)), (nonblank contentDesc);
    reflexivity.
Qed.

Lemma tiers_generateSelector tagName text contentDesc resourceId :
  map tier_of (generateSelector tagName text contentDesc resourceId)
  = tier_block (truthy resourceId) ByIdentifier
    ++ tier_block (nonblank (Some text)) ByText
    ++ tier_block (nonblank contentDesc) ByLabel.
Proof.
  unfold generateSelector.
  rewrite trim_condition, truthy_trimmed_nonblank.
  destruct (truthy resourceId), (nonblank (Some text)), (nonblank contentDesc);
    reflexivity.
Qed.

Lemma prefix_empty (s : string) : String.prefix EmptyString s = true.
Proof. destruct s; reflexivity. Qed.

Lemma tier_of_position (k : nat) : tier_of (xpath_edit_position k) = Some ByPosition.
Proof.
  unfold tier_of, xpath_edit_position, startsWith. cbn.
  now rewrite prefix_empty.
Qed.

Lemma tiers_generateInputSelector hint resourceId index :
  map tier_of (generateInputSelector hint resourceId index)
  = tier_block (truthy resourceId) ByIdentifier
    ++ tier_block (nonblank hint) ByText
    ++ [Some ByPosition].
Proof.
  unfold generateInputSelector.
  rewrite truthy_trimmed_nonblank.
  destruct (truthy resourceId), (nonblank hint); simpl app;
    rewrite ?map_app; simpl map; rewrite tier_of_position; reflexivity.
Qed.

Lemma generateInputSelector_last hint resourceId index :
  exists higher,
    generateInputSelector hint resourceId index
    = higher ++ [xpath_edit_position (index + 1)]
    /\ map tier_of higher
       = tier_block (truthy resourceId) ByIdentifier
         ++ tier_block (nonblank hint) ByText.
Proof.
  unfold generateInputSelector.
  rewrite truthy_trimmed_nonblank.
  destruct (truthy resourceId), (nonblank hint);
    eexists; (split; reflexivity).
Qed.

Lemma forallb_sub {A} (p : A -> bool) (l l' : list A) :
  forallb p l = true -> (forall a, In a l' -> In a l) -> forallb p l' = true.
Proof.
  intros Hl Hsub. apply forallb_forall. intros a Ha.
  rewrite forallb_forall in Hl. auto.
Qed.

Lemma built_from_nonempty_in (a s : string) :
  truthy_str a = true ->
  In s [xpath_resource_id a; ui_resource_id a; xpath_text a; ui_text a;
        xpath_content_desc a; ui_description a; ui_text_contains a; xpath_edit_hint a] ->
  negb (from_empty_attribute s) = true.
Proof.
  intros Ha Hs. pose proof (built_from_nonempty a Ha) as Hall.
  rewrite forallb_forall in Hall. auto.
Qed.

Ltac nonempty_tiers :=
  simpl app; rewrite ?forallb_app; repeat (apply andb_true_iff; split);
  try reflexivity;
  match goal with
  | |- negb (from_empty_attribute (_ ?a)) = true =>
      apply (@built_from_nonempty_in a); [assumption | simpl; tauto]
  end.

Lemma generateSelectors_nonempty_attributes text className resourceId contentDesc :
  forallb (fun s => negb (from_empty_attribute s))
          (generateSelectors text className resourceId contentDesc) = true.
Proof.
  unfold generateSelectors. rewrite trim_condition.
  destruct (truthy resourceId) eqn:Hr, (nonblank (Some text)) eqn:Ht,
           (truthy_trimmed contentDesc) eqn:Hc;
    try apply truthy_str_of_truthy in Hr;
    try apply truthy_trimmed_truthy in Hc;
    simpl in Ht; nonempty_tiers.
Qed.

Lemma generateSelector_nonempty_attributes tagName text contentDesc resourceId :
  forallb (fun s => negb (from_empty_attribute s))
          (generateSelector tagName text contentDesc resourceId) = true.
Proof.
  unfold generateSelector. rewrite trim_condition.
  destruct (truthy resourceId) eqn:Hr, (nonblank (Some text)) eqn:Ht,
           (truthy_trimmed contentDesc) eqn:Hc;
    try apply truthy_str_of_truthy in Hr;
    try apply truthy_trimmed_truthy in Hc;
    simpl in Ht; nonempty_tiers.
Qed.

End SelectorFacts.

(* ================================================================== *)
(** * The duplicate filter *)
(* ================================================================== *)

Module FilterFacts.
Import Js Effects Props StringFacts ElementFinder.

Lemma isDuplicate_spec (array : list Info) (newItem : Info) :
  isDuplicate array newItem = true
  <-> exists item, In item array /\ same_key item newItem.
Proof.
  unfold isDuplicate, same_key. rewrite existsb_exists.
  split; intros [item [Hin Hkey]]; exists item; split; trivial.
  - apply andb_true_iff in Hkey as [Hkey Hc].
    apply andb_true_iff in Hkey as [Hr Ht].
    now rewrite seq_eq in Hr, Hc; rewrite seq_str_eq in Ht.
  - destruct Hkey as (Hr & Ht & Hc).
    apply seq_eq in Hr, Hc. apply seq_str_eq in Ht.
    now rewrite Hr, Ht, Hc.
Qed.

Lemma isDuplicate_key_only (array : list Info) (a b : Info) :
  same_key a b -> isDuplicate array a = isDuplicate array b.
Proof.
  intros (Hr & Ht & Hc). unfold isDuplicate. now rewrite Hr, Ht, Hc.
Qed.

Lemma isDuplicate_after_push (array : list Info) (a : Info) :
  isDuplicate (if isDuplicate array a then array else array ++ [a]) a = true.
Proof.
  destruct (isDuplicate array a) eqn:Hd; [assumption|].
  apply isDuplicate_spec. exists a. split.
  - apply in_or_app. right. now left.
  - repeat split.
Qed.

Lemma list_of_push_same (k : Kind) (info : Info) (f : FoundElements) :
  list_of k (push k info f) = list_of k f ++ [info].
Proof. destruct k; reflexivity. Qed.

(** What the guarded push does to the list of its kind. *)
Lemma add_unless_duplicate_list (W E : Type) (k : Kind) (info : Info)
      (s : St W E FoundElements) :
  list_of k (heap (snd (add_unless_duplicate k info s)))
  = if isDuplicate (list_of k (heap s)) info
    then list_of k (heap s)
    else list_of k (heap s) ++ [info].
Proof.
  unfold add_unless_duplicate, bind, get_heap.
  destruct (isDuplicate (list_of k (heap s)) info); simpl; [reflexivity|].
  apply list_of_push_same.
Qed.

End FilterFacts.

(* ================================================================== *)
(** * Statements on the pure functions *)
(* ================================================================== *)

Import Js Selectors Effects Props.
Unset Implicit Arguments.

(** C2, as the code has it.  For a descriptor whose resource id is a
    non-empty string, both generators put the identifier locators first:
    the first entry is the resource-id locator, and the tiers come in the
    order identifier, text, accessibility label.  The identifier tier is
    there for every non-empty resource id, trimmed or not; the text and
    label tiers are there exactly when the attribute is non-empty after
    trimming; no entry is a locator built from the empty string. *)
Theorem identifier_tier_first
        (tagName text : string) (className resourceId contentDesc : value) :
  truthy resourceId = true ->
  let finder := generateSelectors text className resourceId contentDesc in
  let inspector := generateSelector tagName text contentDesc resourceId in
  hd_error finder = Some (xpath_resource_id (str resourceId))
  /\ hd_error inspector = Some (ui_resource_id (str resourceId))
  /\ map tier_of finder
     = [Some ByIdentifier; Some ByIdentifier]
       ++ tier_block (nonblank (Some text)) ByText
       ++ tier_block (nonblank contentDesc) ByLabel
  /\ map tier_of inspector
     = [Some ByIdentifier; Some ByIdentifier]
       ++ tier_block (nonblank (Some text)) ByText
       ++ tier_block (nonblank contentDesc) ByLabel
  /\ forallb (fun s => negb (from_empty_attribute s)) finder = true
  /\ forallb (fun s => negb (from_empty_attribute s)) inspector = true.
Proof.
  intros Hid finder inspector. subst finder inspector.
  rewrite SelectorFacts.tiers_generateSelectors, SelectorFacts.tiers_generateSelector.
  rewrite SelectorFacts.generateSelectors_nonempty_attributes,
          SelectorFacts.generateSelector_nonempty_attributes.
  unfold generateSelectors, generateSelector. rewrite Hid.
  repeat split;
    destruct (truthy_str text && truthy_str (trim text)),
             (truthy_trimmed contentDesc); reflexivity.
Qed.

Lemma identifier_tier_first_witness :
  hd_error (generateSelectors "Dome" (Some "android.widget.Button")
                              (Some "com.app:id/dome") None)
  = Some (xpath_resource_id "com.app:id/dome").
Proof.
  exact (proj1 (identifier_tier_first "android.widget.Button" "Dome"
                  (Some "android.widget.Button") (Some "com.app:id/dome") None
                  eq_refl)).
Defined.

(** C2 as stated fails on a resource id made of one space: it is empty
    after trimming and the identifier tier is emitted all the same. *)
Lemma blank_identifier_tier_emitted :
  ~ (forall (text : string) (className resourceId contentDesc : value),
        In (Some ByIdentifier)
           (map tier_of (generateSelectors text className resourceId contentDesc)) ->
        nonblank resourceId = true).
Proof.
  intro Hclaim.
  specialize (Hclaim EmptyString None (Some " ") None).
  assert (Hblank : nonblank (Some " ") = false) by reflexivity.
  rewrite Hclaim in Hblank; [discriminate | now left].
Qed.

(** C4, as the code has it.  [generateInputSelector] ends every list with
    the positional locator of the node's 1-based index among the EditText
    results, whatever the resource id and the hint are; the entries before
    it are the identifier and hint tiers. *)
Theorem positional_locator_always_last (hint resourceId : value) (index : nat) :
  exists higher,
    generateInputSelector hint resourceId index
    = higher ++ [xpath_edit_position (index + 1)]
    /\ map tier_of higher
       = tier_block (truthy resourceId) ByIdentifier
         ++ tier_block (nonblank hint) ByText
    /\ is_positional (xpath_edit_position (index + 1)) = true.
Proof.
  destruct (SelectorFacts.generateInputSelector_last hint resourceId index)
    as (higher & Hsel & Htiers).
  exists higher. split; [exact Hsel | split; [exact Htiers|]].
  unfold is_positional. now rewrite SelectorFacts.tier_of_position.
Qed.

(** C4 as stated fails on an input that has a resource id and a hint: its
    list still holds a positional locator. *)
Lemma positional_locator_with_identifier_and_hint :
  ~ (forall (hint resourceId : value) (index : nat),
        truthy resourceId = true \/ nonblank hint = true ->
        existsb is_positional (generateInputSelector hint resourceId index) = false).
Proof.
  intro Hclaim.
  specialize (Hclaim (Some "Email") (Some "com.app:id/email") 0 (or_introl eq_refl)).
  vm_compute in Hclaim. discriminate.
Qed.

(** C3.  The duplicate filter drops a candidate exactly when an entry of
    the kind's list has the candidate's resource id, text and class name:
    the guarded push leaves the list as it is for a duplicate and appends
    the candidate otherwise.  Nothing else of the candidate is looked at: a
    second candidate with the same key gets the same verdict, and offered
    after the first it is dropped, whatever its bounds and flags. *)
Theorem duplicate_filter_key
        (W E : Type) (k : ElementFinder.Kind)
        (s : St W E ElementFinder.FoundElements)
        (first second : ElementFinder.Info) :
  same_key first second ->
  let array := ElementFinder.list_of k (heap s) in
  let kept := snd (ElementFinder.add_unless_duplicate k first s) in
  (ElementFinder.isDuplicate array first = true
   <-> exists item, In item array /\ same_key item first)
  /\ ElementFinder.list_of k (heap kept)
     = (if ElementFinder.isDuplicate array first then array else array ++ [first])
  /\ ElementFinder.isDuplicate array first = ElementFinder.isDuplicate array second
  /\ ElementFinder.list_of k
       (heap (snd (ElementFinder.add_unless_duplicate k second kept)))
     = ElementFinder.list_of k (heap kept).
Proof.
  intros Hkey array kept. split; [apply FilterFacts.isDuplicate_spec|].
  split; [apply FilterFacts.add_unless_duplicate_list|].
  split; [now apply FilterFacts.isDuplicate_key_only|].
  unfold kept. rewrite !FilterFacts.add_unless_duplicate_list. fold array.
  rewrite <- (FilterFacts.isDuplicate_key_only _ Hkey).
  now rewrite FilterFacts.isDuplicate_after_push.
Qed.

Lemma duplicate_filter_key_witness :
  ElementFinder.bounds (Mock.dome_at 0) <> ElementFinder.bounds (Mock.dome_at 500)
  /\ ElementFinder.buttons
       (heap (snd (ElementFinder.add_unless_duplicate ElementFinder.KButtons
                     (Mock.dome_at 500)
                     (snd (ElementFinder.add_unless_duplicate ElementFinder.KButtons
                             (Mock.dome_at 0) Mock.finder_start)))))
     = [Mock.dome_at 0].
Proof.
  split; [discriminate|].
  exact (proj2 (proj2 (proj2
    (duplicate_filter_key unit Mock.node ElementFinder.KButtons Mock.finder_start
       (Mock.dome_at 0) (Mock.dome_at 500)
       (conj eq_refl (conj eq_refl eq_refl)))))).
Defined.

(* ================================================================== *)
(** * Reasoning rules of the monad *)
(* ================================================================== *)

Module Rules.

Section Rules.
Context {W E H : Type}.
Local Abbreviation M := (Effects.M W E H).
Local Abbreviation St := (Effects.St W E H).

(** ** Normal completion *)

Lemma returns_ret {A} (a : A) : returns (ret a : M A).
Proof. intro s. now exists a. Qed.

Lemma returns_bind {A B} (m : M A) (f : A -> M B) :
  returns m -> (forall a, returns (f a)) -> returns (bind m f).
Proof.
  intros Hm Hf s. unfold bind. destruct (Hm s) as [a Ha].
  destruct (m s) as [r s1]. simpl in Ha. subst r. apply Hf.
Qed.

Lemma returns_try_catch {A} (m h : M A) : returns h -> returns (try_catch m h).
Proof.
  intros Hh s. unfold try_catch. destruct (m s) as [[a|] s1].
  - now exists a.
  - apply Hh.
Qed.

Lemma returns_get_heap : returns (get_heap : M H).
Proof. intro s. now exists (heap s). Qed.

Lemma returns_modify_heap (f : H -> H) : returns (modify_heap f : M unit).
Proof. intro s. now exists tt. Qed.

Lemma returns_wait (d : Driver W E) (ms : nat) : returns (wait d ms : M unit).
Proof. intro s. now exists tt. Qed.

Lemma returns_toISOString (d : Driver W E) : returns (toISOString d : M string).
Proof. intro s. now eexists. Qed.

Lemma returns_for_of {X} (xs : list X) (body : X -> M unit) :
  (forall x, returns (body x)) -> returns (for_of xs body).
Proof.
  intro Hbody. induction xs as [|x xs IH]; simpl.
  - apply returns_ret.
  - apply returns_bind; auto.
Qed.

Lemma returns_for_index {X} (xs : list X) (body : nat -> X -> M unit) (i : nat) :
  (forall i x, returns (body i x)) -> returns (for_index i xs body).
Proof.
  intro Hbody. revert i. induction xs as [|x xs IH]; intro i; simpl.
  - apply returns_ret.
  - apply returns_bind; auto.
Qed.

Lemma returns_unit (m : M unit) (s : St) : returns m -> fst (m s) = Normal tt.
Proof. intro Hm. destruct (Hm s) as [[] Hs]. exact Hs. Qed.

(** A loop whose body always completes normally runs every body, each from
    the state its predecessor left. *)
Lemma for_of_runs_each {X} (xs : list X) (body : X -> M unit) (s : St) :
  (forall x, returns (body x)) ->
  for_of xs body s = (Normal tt, run_each body xs s).
Proof.
  intro Hbody. revert s. induction xs as [|x xs IH]; intro s; simpl.
  - reflexivity.
  - unfold bind. pose proof (returns_unit (body x) s (Hbody x)) as Hx.
    destruct (body x s) as [r s1]. simpl in Hx. subst r. simpl. apply IH.
Qed.

(** ** Pre- and postconditions *)

Lemma triple_weaken {A} (P P' Q Q' : St -> Prop) (m : M A) :
  triple P m Q -> (forall s, P' s -> P s) -> (forall s, Q s -> Q' s) ->
  triple P' m Q'.
Proof. intros Hm HP HQ s Hs. auto. Qed.

Lemma triple_ret {A} (P : St -> Prop) (a : A) : triple P (ret a : M A) P.
Proof. intros s Hs. exact Hs. Qed.

Lemma triple_bind {A B} (P R Q : St -> Prop) (m : M A) (f : A -> M B) :
  triple P m R -> (forall a, triple R (f a) Q) -> (forall s, R s -> Q s) ->
  triple P (bind m f) Q.
Proof.
  intros Hm Hf HRQ s Hs. unfold bind. specialize (Hm s Hs).
  destruct (m s) as [[a|] s1]; simpl in *.
  - now apply Hf.
  - auto.
Qed.

Lemma triple_try_catch {A} (P R Q : St -> Prop) (m h : M A) :
  triple P m R -> triple R h Q -> (forall s, R s -> Q s) ->
  triple P (try_catch m h) Q.
Proof.
  intros Hm Hh HRQ s Hs. unfold try_catch. specialize (Hm s Hs).
  destruct (m s) as [[a|] s1]; simpl in *.
  - auto.
  - now apply Hh.
Qed.

Lemma triple_call {A} (I J : list (Call E) -> H -> Prop) (c : Call E)
      (op : W -> outcome A * W) :
  (forall cs h, I cs h -> J (cs ++ [c]) h) ->
  triple (lifted I) (call c op : M A) (lifted J).
Proof.
  intros HI s Hs. unfold call, lifted in *.
  destruct (op (world s)) as [[a| |] w1]; simpl; auto.
Qed.

Lemma triple_modify_heap (I J : list (Call E) -> H -> Prop) (f : H -> H) :
  (forall cs h, I cs h -> J cs (f h)) ->
  triple (lifted I) (modify_heap f : M unit) (lifted J).
Proof. intros HI s Hs. unfold lifted in *. simpl. auto. Qed.

(** ** Invariants *)

Lemma preserves_triple {A} (I : St -> Prop) (m : M A) :
  preserves I m -> triple I m I.
Proof. intro Hm. exact Hm. Qed.

Lemma preserves_ret {A} (I : St -> Prop) (a : A) : preserves I (ret a : M A).
Proof. intros s Hs. exact Hs. Qed.

Lemma preserves_bind {A B} (I : St -> Prop) (m : M A) (f : A -> M B) :
  preserves I m -> (forall a, preserves I (f a)) -> preserves I (bind m f).
Proof. intros Hm Hf. apply (triple_bind I I I); auto. Qed.

Lemma preserves_try_catch {A} (I : St -> Prop) (m h : M A) :
  preserves I m -> preserves I h -> preserves I (try_catch m h).
Proof. intros Hm Hh. apply (triple_try_catch I I I); auto. Qed.

Lemma preserves_call {A} (I : list (Call E) -> H -> Prop) (c : Call E)
      (op : W -> outcome A * W) :
  (forall cs h, I cs h -> I (cs ++ [c]) h) ->
  preserves (lifted I) (call c op : M A).
Proof. apply triple_call. Qed.

Lemma preserves_call_catch {A} (I : list (Call E) -> H -> Prop) (c : Call E)
      (op : W -> outcome A * W) (dflt : A) :
  (forall cs h, I cs h -> I (cs ++ [c]) h) ->
  preserves (lifted I) (call_catch c op dflt : M A).
Proof.
  intros HI s Hs. unfold call_catch, lifted in *.
  destruct (op (world s)) as [[a| |] w1]; simpl; auto.
Qed.

Lemma preserves_modify_heap (I : list (Call E) -> H -> Prop) (f : H -> H) :
  (forall cs h, I cs h -> I cs (f h)) ->
  preserves (lifted I) (modify_heap f : M unit).
Proof. apply triple_modify_heap. Qed.

Lemma preserves_get_heap (I : St -> Prop) : preserves I (get_heap : M H).
Proof. intros s Hs. exact Hs. Qed.

Lemma preserves_wait (I : list (Call E) -> H -> Prop) (d : Driver W E) (ms : nat) :
  preserves (lifted I) (wait d ms : M unit).
Proof. intros s Hs. exact Hs. Qed.

Lemma preserves_toISOString (I : St -> Prop) (d : Driver W E) :
  preserves I (toISOString d : M string).
Proof. intros s Hs. exact Hs. Qed.

Lemma preserves_for_of {X} (I : St -> Prop) (xs : list X) (body : X -> M unit) :
  (forall x, preserves I (body x)) -> preserves I (for_of xs body).
Proof.
  intro Hbody. induction xs as [|x xs IH]; simpl.
  - apply preserves_ret.
  - apply preserves_bind; auto.
Qed.

Lemma preserves_for_index {X} (I : St -> Prop) (xs : list X)
      (body : nat -> X -> M unit) (i : nat) :
  (forall i x, preserves I (body i x)) -> preserves I (for_index i xs body).
Proof.
  intro Hbody. revert i. induction xs as [|x xs IH]; intro i; simpl.
  - apply preserves_ret.
  - apply preserves_bind; auto.
Qed.

End Rules.

(** Goals [returns m] and [preserves (lifted I) m], by the shape of [m];
    what is left are the side conditions on calls and heap updates. *)
Ltac returns_step :=
  lazymatch goal with
  | |- returns (ret _) => apply returns_ret
  | |- returns (bind _ _) => apply returns_bind; [|intros]
  | |- returns (try_catch _ _) => apply returns_try_catch
  | |- returns get_heap => apply returns_get_heap
  | |- returns (modify_heap _) => apply returns_modify_heap
  | |- returns (wait _ _) => apply returns_wait
  | |- returns (toISOString _) => apply returns_toISOString
  | |- returns (for_of _ _) => apply returns_for_of; intros
  | |- returns (for_index _ _ _) => apply returns_for_index; intros
  end.

Ltac preserves_step :=
  lazymatch goal with
  | |- preserves _ (ret _) => apply preserves_ret
  | |- preserves _ (bind _ _) => apply preserves_bind; [|intros]
  | |- preserves _ (try_catch _ _) => apply preserves_try_catch
  | |- preserves _ get_heap => apply preserves_get_heap
  | |- preserves _ (modify_heap _) => apply preserves_modify_heap
  | |- preserves _ (wait _ _) => apply preserves_wait
  | |- preserves _ (toISOString _) => apply preserves_toISOString
  | |- preserves _ (call _ _) => apply preserves_call
  | |- preserves _ (call_catch _ _ _) => apply preserves_call_catch
  | |- preserves _ (for_of _ _) => apply preserves_for_of; intros
  | |- preserves _ (for_index _ _ _) => apply preserves_for_index; intros
  end.

Ltac split_branch :=
  match goal with
  | |- context [if ?b then _ else _] => destruct b
  | |- context [match ?x with Some _ => _ | None => _ end] => destruct x
  end.

End Rules.

(* ================================================================== *)
(** * One discovery pass *)
(* ================================================================== *)

Module DiscoveryFacts.
Import UIElementDiscovery Rules.

Section Pass.
Context {W E : Type}.
Variable driver : Driver W E.
Local Abbreviation St := (Effects.St W E (Heap E)).

(** The state in which the queries start: [elements] is freshly allocated. *)
Lemma fresh_elements (s : St) :
  snd (modify_heap (set_current (fun _ => no_elements)) s)
  = {| world := world s; calls := calls s;
       heap := {| discoveredScreens := discoveredScreens (heap s);
                  current := no_elements;
                  targetElement := targetElement (heap s) |} |}.
Proof. reflexivity. Qed.

Lemma getCurrentScreenInfo_returns : returns (getCurrentScreenInfo driver).
Proof. unfold getCurrentScreenInfo. repeat returns_step. Qed.

Lemma takeScreenshot_returns (name : string) : returns (takeScreenshot driver name).
Proof. unfold takeScreenshot. repeat returns_step. Qed.

Lemma discover_queries_returns : returns (discover_queries driver).
Proof. unfold discover_queries. repeat returns_step. Qed.

(** The pass when the screen information is available and names an
    activity: the queries run on fresh [elements], the screenshot is
    attempted, and the snapshot holds what the queries left in
    [elements]. *)
Lemma discover_some (s s1 : St) (info : ScreenInfo) (name : string) :
  getCurrentScreenInfo driver s = (Normal (Some info), s1) ->
  activity info = Some name ->
  let s2 := snd (discover_queries driver
                   (snd (modify_heap (set_current (fun _ => no_elements)) s1))) in
  let file := ("screen_" ++ split_dot_pop name)%string in
  exists shot,
    fst (takeScreenshot driver file s2) = Normal shot
    /\ discoverElementsOnCurrentScreen driver s
       = (Normal (Some {| screenInfo := with_activity info name;
                          elements := current (heap s2);
                          screenshot := shot |}),
          snd (takeScreenshot driver file s2)).
Proof.
  intros Hinfo Hname s2 file.
  destruct (takeScreenshot_returns file s2) as [shot Hshot].
  exists shot. split; [exact Hshot|].
  unfold discoverElementsOnCurrentScreen, bind at 1. rewrite Hinfo.
  unfold bind at 1. simpl modify_heap.
  unfold bind at 1.
  pose proof (returns_unit _
    (snd (modify_heap (set_current (fun _ : Elements => no_elements)) s1))
    discover_queries_returns) as Hq.
  fold s2 in Hq. unfold modify_heap in *. simpl in Hq, s2.
  destruct (discover_queries driver _) as [rq sq] eqn:Eq.
  simpl in Hq. subst rq. simpl in s2. subst s2.
  unfold bind at 1, get_heap. rewrite Hname. unfold bind at 1. fold file.
  destruct (takeScreenshot driver file sq) as [rshot s3].
  simpl in Hshot. subst rshot. reflexivity.
Qed.

(** The pass when the screen information holds no activity: the queries
    run, then the pass raises, without any screenshot. *)
Lemma discover_null (s s1 : St) (info : ScreenInfo) :
  getCurrentScreenInfo driver s = (Normal (Some info), s1) ->
  activity info = None ->
  discoverElementsOnCurrentScreen driver s
  = (Raised,
     snd (discover_queries driver
            (snd (modify_heap (set_current (fun _ => no_elements)) s1)))).
Proof.
  intros Hinfo Hname.
  unfold discoverElementsOnCurrentScreen, bind at 1. rewrite Hinfo.
  unfold bind at 1. simpl modify_heap.
  unfold bind at 1.
  pose proof (returns_unit _
    (snd (modify_heap (set_current (fun _ : Elements => no_elements)) s1))
    discover_queries_returns) as Hq.
  unfold modify_heap in *. simpl in Hq |- *.
  destruct (discover_queries driver _) as [rq sq] eqn:Eq.
  simpl in Hq. subst rq.
  unfold bind at 1, get_heap. rewrite Hname. reflexivity.
Qed.

Lemma discover_none (s s1 : St) :
  getCurrentScreenInfo driver s = (Normal None, s1) ->
  discoverElementsOnCurrentScreen driver s = (Normal None, s1).
Proof.
  intro Hinfo. unfold discoverElementsOnCurrentScreen, bind. now rewrite Hinfo.
Qed.

(** ** What a pass leaves alone *)

Section Frame.
Variable I : list (Call E) -> Heap E -> Prop.
Hypothesis I_call :
  forall c cs h, is_click c = false -> I cs h -> I (cs ++ [c]) h.
Hypothesis I_current : forall f cs h, I cs h -> I cs (set_current f h).

Ltac frame :=
  repeat first [preserves_step | split_branch];
  try (intros; apply I_current; assumption);
  try (intros; apply I_call; [reflexivity | assumption]).

Lemma getCurrentScreenInfo_frame : preserves (lifted I) (getCurrentScreenInfo driver).
Proof. unfold getCurrentScreenInfo. frame. Qed.

Lemma takeScreenshot_frame (name : string) :
  preserves (lifted I) (takeScreenshot driver name).
Proof. unfold takeScreenshot. frame. Qed.

Lemma discover_queries_frame : preserves (lifted I) (discover_queries driver).
Proof.
  unfold discover_queries, discover_clickable, discover_inputs, discover_texts,
         discover_scrollable, getRect_or_empty.
  frame.
Qed.

Lemma discover_frame : preserves (lifted I) (discoverElementsOnCurrentScreen driver).
Proof.
  unfold discoverElementsOnCurrentScreen.
  apply preserves_bind; [apply getCurrentScreenInfo_frame|].
  intros [info|]; [|apply preserves_ret].
  apply preserves_bind; [apply preserves_modify_heap; intros; now apply I_current|].
  intros _.
  apply preserves_bind; [apply discover_queries_frame|intros _].
  apply preserves_bind; [apply preserves_get_heap|intros h].
  destruct (activity info) as [name|]; [|intros s Hs; exact Hs].
  apply preserves_bind; [apply takeScreenshot_frame|intros shot].
  apply preserves_ret.
Qed.

End Frame.

(** Where a snapshot comes from. *)
Lemma discover_snapshot (s : St) (screen : Screen) :
  fst (discoverElementsOnCurrentScreen driver s) = Normal (Some screen) ->
  exists s1 info name shot,
    getCurrentScreenInfo driver s = (Normal (Some info), s1)
    /\ activity info = Some name
    /\ screen
       = {| screenInfo := with_activity info name;
            elements :=
              current (heap (snd (discover_queries driver
                 (snd (modify_heap (set_current (fun _ => no_elements)) s1)))));
            screenshot := shot |}.
Proof.
  intro Hrun.
  destruct (getCurrentScreenInfo_returns s) as [oinfo Hinfo].
  destruct (getCurrentScreenInfo driver s) as [r s1] eqn:Einfo.
  simpl in Hinfo. subst r. destruct oinfo as [info|].
  - destruct (activity info) as [name|] eqn:Hname.
    + destruct (discover_some s s1 info name Einfo Hname) as (shot & _ & Hsome).
      rewrite Hsome in Hrun. simpl in Hrun. injection Hrun as <-.
      now exists s1, info, name, shot.
    + rewrite (discover_null s s1 info Einfo Hname) in Hrun. discriminate Hrun.
  - rewrite (discover_none s s1 Einfo) in Hrun. discriminate Hrun.
Qed.

(** The queries fill [elements.inputs] with descriptors whose selectors
    come from [generateInputSelector] on their own hint, id and index. *)
Lemma discover_queries_inputs :
  preserves (lifted (inputs_located (E := E))) (discover_queries driver).
Proof.
  unfold discover_queries, discover_clickable, discover_inputs, discover_texts,
         discover_scrollable, getRect_or_empty.
  repeat first [preserves_step | split_branch];
    unfold inputs_located; simpl; intros; trivial.
  apply Forall_app. split; [assumption|].
  constructor; [reflexivity | constructor].
Qed.

End Pass.
End DiscoveryFacts.

(* ================================================================== *)
(** * The click exploration *)
(* ================================================================== *)

Module ExploreFacts.
Import UIElementDiscovery Rules DiscoveryFacts.

Section Explore.
Context {W E : Type}.
Variable driver : Driver W E.
Local Abbreviation St := (Effects.St W E (Heap E)).
Local Abbreviation M := (Effects.M W E (Heap E)).

Lemma clicks_after_call (c : Call E) (cs : list (Call E)) :
  List.length (filter (@is_click E) (cs ++ [c]))
  = List.length (filter (@is_click E) cs) + (if is_click c then 1 else 0).
Proof.
  rewrite filter_app, length_app. simpl. now destruct (is_click c).
Qed.

Lemma quiet_call n ds (c : Call E) cs h :
  is_click c = false -> quiet n ds cs h -> quiet n ds (cs ++ [c]) h.
Proof.
  intros Hc [Hn Hds]. split; [|assumption].
  rewrite clicks_after_call, Hc. lia.
Qed.

Lemma quiet_current n ds (f : Elements -> Elements) (cs : list (Call E)) h :
  quiet n ds cs h -> quiet n ds cs (set_current f h).
Proof. intros [Hn Hds]. now split. Qed.

Lemma within_call n k ds (c : Call E) cs h :
  is_click c = false -> within n k ds cs h -> within n k ds (cs ++ [c]) h.
Proof.
  intros Hc [Hn Hds]. split; [|assumption].
  rewrite clicks_after_call, Hc. lia.
Qed.

Lemma within_click n k ds (e : E) cs h :
  within n k ds cs h -> within (S n) k ds (cs ++ [CClick e]) h.
Proof.
  intros [Hn Hds]. split; [|assumption].
  rewrite clicks_after_call. simpl. lia.
Qed.

Lemma within_current n k ds (f : Elements -> Elements) (cs : list (Call E)) h :
  within n k ds cs h -> within n k ds cs (set_current f h).
Proof. intros [Hn Hds]. now split. Qed.

Lemma within_target n k ds (t : option E) (cs : list (Call E)) h :
  within n k ds cs h -> within n k ds cs (set_targetElement t h).
Proof. intros [Hn Hds]. now split. Qed.

Lemma within_push n k ds (screen : Screen) (cs : list (Call E)) h :
  within n k ds cs h -> within n (S k) ds cs (push_screen screen h).
Proof.
  intros [Hn (more & Hds & Hk)]. split; [assumption|].
  exists (more ++ [screen]). simpl. rewrite Hds, <- app_assoc. split; [reflexivity|].
  rewrite length_app. simpl. lia.
Qed.

Lemma within_more n n' k k' ds (cs : list (Call E)) h :
  n <= n' -> k <= k' -> within n k ds cs h -> within n' k' ds cs h.
Proof.
  intros Hnn Hkk [Hn (more & Hds & Hk)]. split; [lia|].
  exists more. split; [assumption | lia].
Qed.

Lemma quiet_within n ds (cs : list (Call E)) h :
  quiet n ds cs h -> within n 0 ds cs h.
Proof.
  intros [Hn Hds]. split; [lia|]. exists []. rewrite app_nil_r. now split.
Qed.

(** ** Normal completion *)

Lemma for_of_break_returns {X} (xs : list X) (body : X -> M bool) :
  (forall x, returns (body x)) -> returns (for_of_break xs body).
Proof.
  intro Hbody. induction xs as [|x xs IH]; simpl.
  - apply returns_ret.
  - apply returns_bind; [apply Hbody|]. intros [|]; [apply returns_ret | exact IH].
Qed.

Lemma click_and_discover_returns : returns (click_and_discover driver).
Proof.
  unfold click_and_discover.
  apply returns_bind; [apply returns_get_heap|].
  intros h. destruct (targetElement h); repeat returns_step.
Qed.

Lemma explore_element_returns (element : Clickable.t) :
  returns (explore_element driver element).
Proof.
  unfold explore_element.
  destruct (truthy_str (Clickable.text element) || truthy (Clickable.contentDesc element));
    repeat returns_step.
Qed.

(** ** Clicks and screens of one iteration *)

Lemma for_of_break_preserves {X} (I : St -> Prop) (xs : list X) (body : X -> M bool) :
  (forall x, preserves I (body x)) -> preserves I (for_of_break xs body).
Proof.
  intro Hbody. induction xs as [|x xs IH]; simpl.
  - apply preserves_ret.
  - apply preserves_bind; [apply Hbody|]. intros [|]; [apply preserves_ret | exact IH].
Qed.

Lemma locate_by_xpath_within n k ds (selectors : list string) :
  preserves (lifted (within n k ds)) (locate_by_xpath driver selectors).
Proof.
  unfold locate_by_xpath. apply for_of_break_preserves. intro selector.
  repeat preserves_step; intros;
    first [now apply within_target | now apply within_call].
Qed.

Lemma locate_fallback_within n k ds (element : Clickable.t) :
  preserves (lifted (within n k ds)) (locate_fallback driver element).
Proof.
  unfold locate_fallback.
  apply preserves_bind; [apply preserves_get_heap|]. intro h.
  destruct (targetElement h); [apply preserves_ret|].
  repeat first [preserves_step | split_branch]; intros;
    first [now apply within_target | now apply within_call].
Qed.

Lemma discover_within n k ds :
  preserves (lifted (within n k ds)) (discoverElementsOnCurrentScreen driver).
Proof.
  apply discover_frame; intros.
  - now apply within_call.
  - now apply within_current.
Qed.

Lemma discover_quiet n ds :
  preserves (lifted (quiet n ds)) (discoverElementsOnCurrentScreen driver).
Proof.
  apply discover_frame; intros.
  - now apply quiet_call.
  - now apply quiet_current.
Qed.

Lemma click_and_discover_within n k ds :
  triple (lifted (within n k ds)) (click_and_discover driver)
         (lifted (within (S n) (S k) ds)).
Proof.
  assert (Hup : forall a b (s : St),
             a <= S n -> b <= S k ->
             lifted (within a b ds) s -> lifted (within (S n) (S k) ds) s)
    by (intros a b s Ha Hb; now apply within_more).
  unfold click_and_discover.
  apply (triple_bind _ (lifted (within n k ds)));
    [apply preserves_get_heap | | intro s; apply Hup; lia].
  intro h. destruct (targetElement h) as [target|];
    [|intros s Hs; apply (Hup n k); [lia | lia | exact Hs]].
  apply (triple_try_catch _ (lifted (within (S n) (S k) ds)));
    [| apply triple_ret | trivial].
  apply (triple_bind _ (lifted (within n k ds)));
    [apply preserves_call; intros; now apply within_call
    | | intro s; apply Hup; lia].
  intros [|]; [|intros s Hs; apply (Hup n k); [lia | lia | exact Hs]].
  apply (triple_bind _ (lifted (within (S n) k ds)));
    [apply triple_call; intros; now apply within_click
    | | intro s; apply Hup; lia].
  intros _.
  apply (triple_bind _ (lifted (within (S n) k ds)));
    [apply preserves_wait | | intro s; apply Hup; lia].
  intros _.
  apply (triple_bind _ (lifted (within (S n) k ds)));
    [apply discover_within | | intro s; apply Hup; lia].
  intros newScreen.
  apply (triple_bind _ (lifted (within (S n) (S k) ds))); [ | | trivial].
  - destruct newScreen as [newScreen|].
    + apply triple_modify_heap. intros. now apply within_push.
    + intros s Hs. apply (Hup (S n) k); [lia | lia | exact Hs].
  - intros _. apply preserves_triple.
    repeat preserves_step. intros. now apply within_call.
Qed.

(** One iteration issues at most one click and appends at most one
    screen; the screens captured before stay where they are. *)
Lemma explore_element_within n k ds (element : Clickable.t) :
  triple (lifted (within n k ds)) (explore_element driver element)
         (lifted (within (S n) (S k) ds)).
Proof.
  assert (Hup : forall (s : St),
             lifted (within n k ds) s -> lifted (within (S n) (S k) ds) s)
    by (intro s; apply within_more; lia).
  unfold explore_element.
  destruct (truthy_str (Clickable.text element) || truthy (Clickable.contentDesc element));
    [|intros s Hs; now apply Hup].
  apply (triple_try_catch _ (lifted (within (S n) (S k) ds)));
    [| apply triple_ret | trivial].
  apply (triple_bind _ (lifted (within n k ds)));
    [apply preserves_modify_heap; intros; now apply within_target | | exact Hup].
  intros _.
  apply (triple_bind _ (lifted (within n k ds))); [ | | exact Hup].
  - destruct (Clickable.selectors element);
      [apply preserves_ret | apply locate_by_xpath_within].
  - intros _.
    apply (triple_bind _ (lifted (within n k ds)));
      [apply locate_fallback_within | | exact Hup].
    intros _. apply click_and_discover_within.
Qed.

(** A descriptor with neither text nor label is passed over: no session
    call, no change of state. *)
Lemma explore_element_unlabelled (element : Clickable.t) (s : St) :
  labelled element = false ->
  explore_element driver element s = (Normal tt, s).
Proof. unfold labelled, explore_element. now intros ->. Qed.

Lemma run_each_within n k ds (xs : list Clickable.t) (s : St) :
  lifted (within n k ds) s ->
  lifted (within (n + List.length xs) (k + List.length xs) ds)
         (run_each (explore_element driver) xs s).
Proof.
  revert n k s. induction xs as [|x xs IH]; intros n k s Hs; simpl.
  - now rewrite !Nat.add_0_r.
  - replace (n + S (List.length xs)) with (S n + List.length xs) by lia.
    replace (k + S (List.length xs)) with (S k + List.length xs) by lia.
    apply IH. now apply explore_element_within.
Qed.

Lemma run_each_unlabelled (xs : list Clickable.t) (s : St) :
  run_each (explore_element driver) xs s
  = run_each (explore_element driver) (filter labelled xs) s.
Proof.
  revert s. induction xs as [|x xs IH]; intro s; simpl; [reflexivity|].
  destruct (labelled x) eqn:Hx; simpl.
  - apply IH.
  - rewrite explore_element_unlabelled by assumption. apply IH.
Qed.

(** The run, spelled out: the starting screen is captured and appended,
    then the first five clickable descriptors are processed one by one.
    The capture of the starting screen is the one step of the run that is
    not inside a [try]: when it raises, so does the run. *)
Lemma exploreClickableElements_run (s : St) :
  exploreClickableElements driver s
  = match discoverElementsOnCurrentScreen driver s with
    | (Normal (Some mainScreen), s0) =>
        (Normal tt,
         run_each (explore_element driver)
                  (firstn 5 (clickable (elements mainScreen)))
                  (snd (modify_heap (push_screen mainScreen) s0)))
    | (Normal None, s0) => (Normal tt, s0)
    | (Raised, s0) => (Raised, s0)
    end.
Proof.
  unfold exploreClickableElements, bind at 1.
  destruct (discoverElementsOnCurrentScreen driver s) as [[[mainScreen|]|] s0];
    try reflexivity.
  unfold bind at 1. simpl modify_heap.
  apply for_of_runs_each. apply explore_element_returns.
Qed.

(** Clicks and screens of a whole run. *)
Lemma exploreClickableElements_within (s : St) :
  lifted (within (clicks_issued s + 5) (1 + 5) (discoveredScreens (heap s)))
         (snd (exploreClickableElements driver s)).
Proof.
  rewrite exploreClickableElements_run.
  pose proof (discover_quiet (clicks_issued s) (discoveredScreens (heap s)) s
                (conj eq_refl eq_refl)) as Hquiet.
  destruct (discoverElementsOnCurrentScreen driver s) as [r s0].
  simpl snd in Hquiet. apply quiet_within in Hquiet.
  assert (Hstay : lifted (within (clicks_issued s + 5) (1 + 5)
                                 (discoveredScreens (heap s))) s0)
    by (revert Hquiet; apply within_more; lia).
  destruct r as [[mainScreen|]|]; simpl snd; try exact Hstay.
  set (first5 := firstn 5 (clickable (elements mainScreen))).
  assert (Hfirst : List.length first5 <= 5) by apply firstn_le_length.
  pose proof (run_each_within (clicks_issued s) 1 (discoveredScreens (heap s))
                first5 (snd (modify_heap (push_screen mainScreen) s0))) as Hrun.
  revert Hrun.
  intro Hrun. eapply within_more; [| |apply Hrun].
  - lia.
  - lia.
  - now apply (within_push (clicks_issued s) 0).
Qed.

End Explore.
End ExploreFacts.

(* ================================================================== *)
(** * Descriptor extraction and the finders *)
(* ================================================================== *)

Module FinderFacts.
Import ElementFinder Rules.

Section Finder.
Context {W E : Type}.
Variable driver : Driver W E.
Local Abbreviation St := (Effects.St W E FoundElements).

Lemma getElementInfo_returns (element : E) : returns (getElementInfo driver element).
Proof. unfold getElementInfo. repeat returns_step. Qed.

Lemma add_unless_duplicate_returns (k : Kind) (info : Info) :
  returns (add_unless_duplicate (W := W) (E := E) k info).
Proof.
  unfold add_unless_duplicate.
  apply returns_bind; [apply returns_get_heap | intro found].
  destruct (negb (isDuplicate (list_of k found) info)); returns_step.
Qed.

(** The finders that query inside a [try] complete normally whatever the
    session does. *)
Lemma findButtons_returns : returns (findButtons driver).
Proof. unfold findButtons. repeat returns_step. Qed.

Lemma findInputFields_returns : returns (findInputFields driver).
Proof. unfold findInputFields. repeat returns_step. Qed.

Lemma findImageElements_returns : returns (findImageElements driver).
Proof. unfold findImageElements. repeat returns_step. Qed.

Lemma findListElements_returns : returns (findListElements driver).
Proof. unfold findListElements. repeat returns_step. Qed.

Lemma findCheckboxes_returns : returns (findCheckboxes driver).
Proof. unfold findCheckboxes. repeat returns_step. Qed.

Lemma findCustomElements_returns : returns (findCustomElements driver).
Proof. unfold findCustomElements. repeat returns_step. Qed.

(** [findTextElements] raises as soon as its query does. *)
Lemma findTextElements_raises (s : St) :
  fst (find_all driver "//android.widget.TextView" (world s)) = Rejected ->
  fst (findTextElements driver s) = Raised.
Proof.
  intro Hq. unfold findTextElements, bind, call.
  destruct (find_all driver "//android.widget.TextView" (world s)) as [r w1].
  simpl in Hq. now subst r.
Qed.

Ltac getter_fails Hfail :=
  match goal with
  | |- context [let (_, _) := (let (_, _) := ?op ?w in _) in _] =>
      let Eop := fresh "Eop" in
      destruct (Hfail w) as [Eop|Eop]; destruct (op w) as [[?| |] ?];
      simpl in Eop; try discriminate Eop; clear Eop
  | |- context [let (_, _) := ?op ?w in _] =>
      let Eop := fresh "Eop" in
      destruct (Hfail w) as [Eop|Eop]; destruct (op w) as [[?| |] ?];
      simpl in Eop; try discriminate Eop; clear Eop
  end.

(** With every getter of the node failing, the descriptor is the one of
    the [catch] arm, field for field. *)
Lemma getElementInfo_all_fail (element : E) (s : St) :
  fails (getText driver element) ->
  (forall name, fails (getAttribute driver element name)) ->
  fails (getRect driver element) ->
  fst (getElementInfo driver element s) = Normal fallback_info.
Proof.
  intros Htext Hattr Hrect.
  unfold getElementInfo, try_catch, bind, call_catch, ret.
  getter_fails Htext; [|reflexivity].
  simpl world.
  getter_fails (Hattr "class"); [|reflexivity]. simpl world.
  getter_fails (Hattr "resource-id"); [|reflexivity]. simpl world.
  getter_fails (Hattr "content-desc"); [|reflexivity]. simpl world.
  getter_fails (Hattr "clickable"); [|reflexivity]. simpl world.
  getter_fails (Hattr "enabled"); [|reflexivity]. simpl world.
  getter_fails Hrect; reflexivity.
Qed.

End Finder.
End FinderFacts.

(* ================================================================== *)
(** * Statements on descriptor extraction and discovery *)
(* ================================================================== *)

(** C1, as the code has it.  When every attribute getter of a node fails
    (rejects or throws), [getElementInfo] completes normally with a
    descriptor whose text, resource id, accessibility label and class are
    the empty string, whose bounds is the empty object, whose selectors
    list is empty, whose [clickable] flag is false, whose [checked]
    property is not set, and whose [enabled] flag is true. *)
Theorem getElementInfo_defaults
        (W E : Type) (driver : Driver W E) (element : E)
        (s : St W E ElementFinder.FoundElements) :
  fails (getText driver element) ->
  (forall name, fails (getAttribute driver element name)) ->
  fails (getRect driver element) ->
  exists info,
    fst (ElementFinder.getElementInfo driver element s) = Normal info
    /\ ElementFinder.text info = EmptyString
    /\ ElementFinder.resourceId info = Some EmptyString
    /\ ElementFinder.contentDesc info = Some EmptyString
    /\ ElementFinder.className info = Some EmptyString
    /\ ElementFinder.bounds info = empty_object
    /\ ElementFinder.selectors info = []
    /\ ElementFinder.clickable info = false
    /\ ElementFinder.checked info = None
    /\ ElementFinder.enabled info = true.
Proof.
  intros Htext Hattr Hrect. exists ElementFinder.fallback_info.
  split; [now apply FinderFacts.getElementInfo_all_fail|].
  repeat split.
Qed.

Lemma getElementInfo_defaults_witness :
  exists info,
    fst (ElementFinder.getElementInfo (Mock.session Mock.throwing_getters) 0
                                      Mock.finder_start) = Normal info
    /\ ElementFinder.selectors info = []
    /\ ElementFinder.enabled info = true.
Proof.
  destruct (getElementInfo_defaults unit Mock.node
              (Mock.session Mock.throwing_getters) 0 Mock.finder_start)
    as [info Hinfo].
  - intro w. right. reflexivity.
  - intros name w. right. reflexivity.
  - intro w. right. reflexivity.
  - exists info. repeat split; apply Hinfo.
Defined.

(** C1 as stated fails on a node whose getters all reject: the descriptor
    comes back with [enabled] true, not false. *)
Lemma enabled_defaults_to_true :
  ~ (forall info,
        fst (ElementFinder.getElementInfo (Mock.session Mock.rejecting_getters) 0
                                          Mock.finder_start) = Normal info ->
        ElementFinder.enabled info = false).
Proof.
  intro Hclaim.
  specialize (Hclaim ElementFinder.fallback_info eq_refl).
  discriminate Hclaim.
Qed.

(** C7 on the code.  On a session that rejects the TextView query and
    answers every other query, [findAllElementTypes] raises: buttons and
    inputs were collected, and the image, list, checkbox and custom queries
    are never issued, so those lists stay empty. *)
Theorem textview_query_failure_aborts_discovery :
  let run := ElementFinder.findAllElementTypes
               (Mock.session Mock.textview_query_rejects) Mock.finder_start in
  fst run = Raised
  /\ List.length (ElementFinder.buttons (heap (snd run))) = 3
  /\ List.length (ElementFinder.inputs (heap (snd run))) = 3
  /\ Mock.queried "//android.widget.TextView" (calls (snd run)) = true
  /\ Mock.queried "//android.widget.ImageView" (calls (snd run)) = false
  /\ Mock.queried "//android.widget.ListView" (calls (snd run)) = false
  /\ Mock.queried "//android.widget.CheckBox" (calls (snd run)) = false
  /\ Mock.queried "//*[@resource-id]" (calls (snd run)) = false
  /\ ElementFinder.images (heap (snd run)) = []
  /\ ElementFinder.lists (heap (snd run)) = []
  /\ ElementFinder.checkboxes (heap (snd run)) = []
  /\ ElementFinder.custom (heap (snd run)) = [].
Proof. vm_compute. repeat split. Qed.

(** The sibling path: a rejected Button query is caught inside
    [findButtons], and every later kind is still queried and collected. *)
Example button_query_failure_is_local :
  let run := ElementFinder.findAllElementTypes
               (Mock.session Mock.button_query_rejects) Mock.finder_start in
  (exists found, fst run = Normal found)
  /\ Mock.queried "//android.widget.Button" (calls (snd run)) = true
  /\ Mock.queried "//android.widget.ImageView" (calls (snd run)) = true
  /\ Mock.queried "//*[@resource-id]" (calls (snd run)) = true
  /\ List.length (ElementFinder.images (heap (snd run))) = 3.
Proof. vm_compute. repeat split. eexists. reflexivity. Qed.

(* ================================================================== *)
(** * Statements on the screen snapshot and the exploration *)
(* ================================================================== *)

Import UIElementDiscovery.

(** C8.  When the screen information was obtained, with the activity the
    screenshot is named after, and [saveScreenshot] fails,
    [discoverElementsOnCurrentScreen] completes normally with a snapshot
    whose [screenshot] is null and whose [elements] is the object the
    discovery queries filled. *)
Theorem screenshot_failure_tolerated
        (W E : Type) (driver : Driver W E) (s s1 : St W E (Heap E))
        (info : ScreenInfo) (name : string) :
  getCurrentScreenInfo driver s = (Normal (Some info), s1) ->
  activity info = Some name ->
  (forall path, fails (saveScreenshot driver path)) ->
  let s2 := snd (discover_queries driver
                   (snd (modify_heap (set_current (fun _ => no_elements)) s1))) in
  fst (discoverElementsOnCurrentScreen driver s)
  = Normal (Some {| screenInfo := with_activity info name;
                    elements := current (heap s2);
                    screenshot := None |}).
Proof.
  intros Hinfo Hactivity Hshot s2.
  destruct (DiscoveryFacts.discover_some driver s s1 info name Hinfo Hactivity)
    as (shot & Hname & Hrun).
  fold s2 in Hname, Hrun. rewrite Hrun. simpl fst.
  assert (Hnone : shot = None).
  { revert Hname. unfold takeScreenshot, try_catch, bind, toISOString, call.
    match goal with
    | |- context [saveScreenshot driver ?path ?w] =>
        destruct (Hshot path w) as [Hf|Hf];
        destruct (saveScreenshot driver path w) as [[?| |] ?];
        simpl in Hf; try discriminate Hf
    end; simpl; congruence. }
  now subst shot.
Qed.

Lemma screenshot_failure_tolerated_witness :
  exists screen,
    fst (discoverElementsOnCurrentScreen (Mock.session Mock.screenshot_fails)
                                         Mock.discovery_start)
    = Normal (Some screen)
    /\ screenshot screen = None
    /\ List.length (clickable (elements screen)) = 3.
Proof.
  eexists. split.
  - apply (screenshot_failure_tolerated unit Mock.node
             (Mock.session Mock.screenshot_fails) Mock.discovery_start
             {| world := tt;
                calls := [CGetCurrentActivity; CGetCurrentPackage;
                          CGetPageSource; CGetWindowSize];
                heap := heap Mock.discovery_start |}
             {| activity := Some "com.app.MainActivity"; package := "com.app";
                pageSource := "<hierarchy/>"; windowSize := (1080, 2400)%Z;
                timestamp := "2024-01-01T00:00:00.000Z" |}
             "com.app.MainActivity").
    + reflexivity.
    + reflexivity.
    + intros path w. left. reflexivity.
  - split; reflexivity.
Defined.

(** C10.  Every input descriptor of a snapshot has the selectors
    [generateInputSelector] yields on its hint, resource id and index: the
    list is not empty and holds the positional locator of the index plus
    one; with neither a hint nor a resource id it is that locator alone. *)
Theorem input_selectors_never_empty
        (W E : Type) (driver : Driver W E) (s : St W E (Heap E)) (screen : Screen) :
  fst (discoverElementsOnCurrentScreen driver s) = Normal (Some screen) ->
  Forall (fun input =>
            Input.selectors input <> []
            /\ In (xpath_edit_position (Input.index input + 1)) (Input.selectors input)
            /\ (truthy (Input.resourceId input) = false ->
                nonblank (Input.hint input) = false ->
                Input.selectors input = [xpath_edit_position (Input.index input + 1)]))
         (inputs (elements screen)).
Proof.
  intro Hrun.
  assert (Hloc : Forall located_by_index (inputs (elements screen))).
  { destruct (DiscoveryFacts.discover_snapshot driver s screen Hrun)
      as (s1 & info & name & shot & _ & _ & ->).
    simpl.
    apply (DiscoveryFacts.discover_queries_inputs driver).
    constructor. }
  eapply Forall_impl; [|exact Hloc].
  intros input Hinput. unfold located_by_index in Hinput. rewrite Hinput.
  destruct (SelectorFacts.generateInputSelector_last (Input.hint input)
              (Input.resourceId input) (Input.index input))
    as (higher & Hsel & Htiers).
  split; [|split].
  - rewrite Hsel. intro Hnil. now apply app_eq_nil in Hnil as [_ Hnil].
  - rewrite Hsel. apply in_or_app. right. now left.
  - intros Hid Hhint. unfold generateInputSelector.
    rewrite SelectorFacts.truthy_trimmed_nonblank, Hid, Hhint. reflexivity.
Qed.

Lemma input_selectors_never_empty_witness :
  Forall (fun input =>
            Input.selectors input <> []
            /\ In (xpath_edit_position (Input.index input + 1)) (Input.selectors input)
            /\ (truthy (Input.resourceId input) = false ->
                nonblank (Input.hint input) = false ->
                Input.selectors input = [xpath_edit_position (Input.index input + 1)]))
         (inputs (elements Mock.healthy_screen)).
Proof.
  apply (input_selectors_never_empty unit Mock.node (Mock.session Mock.healthy)
           Mock.discovery_start Mock.healthy_screen).
  vm_compute. reflexivity.
Defined.

(** C5.  A run issues at most five clicks and appends at most five screens
    after the starting one.  Only the first five clickable descriptors of
    the starting screen are looked at; the clicks, and the screens appended
    after the starting one, are at most as many as those among the five
    that have text or a label; a descriptor with neither is passed over
    without any session call. *)
Theorem exploration_bounded
        (W E : Type) (driver : Driver W E) (s : St W E (Heap E)) :
  let final := snd (exploreClickableElements driver s) in
  clicks_issued final <= clicks_issued s + 5
  /\ List.length (discoveredScreens (heap final))
     <= List.length (discoveredScreens (heap s)) + 1 + 5
  /\ match fst (discoverElementsOnCurrentScreen driver s) with
     | Normal (Some mainScreen) =>
         let chosen := filter labelled (firstn 5 (clickable (elements mainScreen))) in
         List.length chosen <= 5
         /\ clicks_issued final <= clicks_issued s + List.length chosen
         /\ exists visited,
             discoveredScreens (heap final)
             = discoveredScreens (heap s) ++ mainScreen :: visited
             /\ List.length visited <= List.length chosen
     | _ =>
         clicks_issued final = clicks_issued s
         /\ discoveredScreens (heap final) = discoveredScreens (heap s)
     end
  /\ (forall element s1,
        labelled element = false ->
        explore_element driver element s1 = (Normal tt, s1)).
Proof.
  intro final. subst final.
  rewrite (ExploreFacts.exploreClickableElements_run driver s).
  pose proof (ExploreFacts.discover_quiet driver (clicks_issued s)
                (discoveredScreens (heap s)) s (conj eq_refl eq_refl)) as Hquiet.
  destruct (discoverElementsOnCurrentScreen driver s) as [r s0].
  cbn [snd] in Hquiet. cbn [fst]. destruct Hquiet as [Hn Hds].
  assert (Hskip : forall element s1,
             labelled element = false ->
             explore_element driver element s1 = (Normal tt, s1))
    by (intros; now apply ExploreFacts.explore_element_unlabelled).
  assert (Hstay :
            clicks_issued s0 <= clicks_issued s + 5
            /\ List.length (discoveredScreens (heap s0))
               <= List.length (discoveredScreens (heap s)) + 1 + 5
            /\ (clicks_issued s0 = clicks_issued s
                /\ discoveredScreens (heap s0) = discoveredScreens (heap s))
            /\ (forall element s1,
                  labelled element = false ->
                  explore_element driver element s1 = (Normal tt, s1))).
  { unfold clicks_issued in *. rewrite Hds. repeat split; trivial; lia. }
  destruct r as [[mainScreen|]|]; cbn [snd]; try exact Hstay.
  rewrite ExploreFacts.run_each_unlabelled.
  cbn zeta.
  set (chosen := filter labelled (firstn 5 (clickable (elements mainScreen)))).
  assert (Hchosen : List.length chosen <= 5).
  { unfold chosen.
    etransitivity; [apply filter_length_le | apply firstn_le_length]. }
  pose proof (ExploreFacts.run_each_within driver (clicks_issued s) 0
                (discoveredScreens (heap s) ++ [mainScreen]) chosen
                (snd (modify_heap (push_screen mainScreen) s0))) as Hrun.
  destruct Hrun as [Hclicks (visited & Hvisited & Hlen)].
  { split; [unfold clicks_issued in *; cbn; lia|].
    exists []. cbn. rewrite Hds, app_nil_r. split; [reflexivity | lia]. }
  rewrite <- app_assoc in Hvisited. cbn [app] in Hvisited.
  unfold clicks_issued at 1 3.
  split; [lia|].
  split; [rewrite Hvisited, length_app; cbn [List.length]; lia|].
  split; [|exact Hskip].
  split; [exact Hchosen|]. split; [exact Hclicks|].
  exists visited. split; [exact Hvisited | lia].
Qed.

(** C6.  Every iteration of the loop completes normally, whatever the
    session does: a failure while the descriptor is located again, while
    it is clicked or while the new screen is captured (the throw on a null
    activity included) ends the iteration, not the run, and the screens
    captured before it are kept.  Hence the loop runs the iteration of
    every descriptor, each from the state the one before left.  The run
    as a whole is decided by the capture of the starting screen, the one
    step outside the loop: when that capture completes, the run completes
    normally; the run raises exactly when that capture raises.  In every
    case the screens captured before are in the final list. *)
Theorem descriptor_failures_caught
        (W E : Type) (driver : Driver W E) (s : St W E (Heap E)) :
  (forall element s1,
      fst (explore_element driver element s1) = Normal tt
      /\ exists more,
          discoveredScreens (heap (snd (explore_element driver element s1)))
          = discoveredScreens (heap s1) ++ more)
  /\ (forall s1,
        fst (click_and_discover driver s1) = Normal tt
        /\ exists more,
            discoveredScreens (heap (snd (click_and_discover driver s1)))
            = discoveredScreens (heap s1) ++ more)
  /\ (forall elements s1,
        for_of elements (explore_element driver) s1
        = (Normal tt, run_each (explore_element driver) elements s1))
  /\ exploreClickableElements driver s
     = match discoverElementsOnCurrentScreen driver s with
       | (Normal (Some mainScreen), s0) =>
           (Normal tt,
            run_each (explore_element driver)
                     (firstn 5 (clickable (elements mainScreen)))
                     (snd (modify_heap (push_screen mainScreen) s0)))
       | (Normal None, s0) => (Normal tt, s0)
       | (Raised, s0) => (Raised, s0)
       end
  /\ exists more,
      discoveredScreens (heap (snd (exploreClickableElements driver s)))
      = discoveredScreens (heap s) ++ more.
Proof.
  split.
  { intros element s1.
    split; [apply Rules.returns_unit, ExploreFacts.explore_element_returns|].
    pose proof (ExploreFacts.explore_element_within driver
                  (clicks_issued s1) 0 (discoveredScreens (heap s1)) element s1)
      as [_ (more & Hmore & _)].
    - split; [apply Nat.le_refl|]. exists []. now rewrite app_nil_r.
    - now exists more. }
  split.
  { intro s1.
    split; [apply Rules.returns_unit, ExploreFacts.click_and_discover_returns|].
    pose proof (ExploreFacts.click_and_discover_within driver
                  (clicks_issued s1) 0 (discoveredScreens (heap s1)) s1)
      as [_ (more & Hmore & _)].
    - split; [apply Nat.le_refl|]. exists []. now rewrite app_nil_r.
    - now exists more. }
  split.
  { intros elements s1. apply Rules.for_of_runs_each.
    intro element. apply ExploreFacts.explore_element_returns. }
  split; [apply ExploreFacts.exploreClickableElements_run|].
  destruct (ExploreFacts.exploreClickableElements_within driver s)
    as [_ (more & Hmore & _)].
  now exists more.
Qed.

(** C9.  The capture of the starting screen issues no click and appends
    nothing.  When it yields a snapshot, the snapshot is appended to
    [discoveredScreens] before the loop starts, with still no click
    issued, and it stays at that index at the start of every iteration;
    when it yields none, the run ends there without any click, raising if
    the capture raised. *)
Theorem main_screen_captured_before_clicks
        (W E : Type) (driver : Driver W E) (s : St W E (Heap E)) :
  let capture := discoverElementsOnCurrentScreen driver s in
  clicks_issued (snd capture) = clicks_issued s
  /\ discoveredScreens (heap (snd capture)) = discoveredScreens (heap s)
  /\ match fst capture with
     | Normal (Some mainScreen) =>
         let loop_start := snd (modify_heap (push_screen mainScreen) (snd capture)) in
         let first5 := firstn 5 (clickable (elements mainScreen)) in
         discoveredScreens (heap loop_start) = discoveredScreens (heap s) ++ [mainScreen]
         /\ clicks_issued loop_start = clicks_issued s
         /\ exploreClickableElements driver s
            = (Normal tt, run_each (explore_element driver) first5 loop_start)
         /\ forall k,
             nth_error
               (discoveredScreens
                  (heap (run_each (explore_element driver) (firstn k first5) loop_start)))
               (List.length (discoveredScreens (heap s)))
             = Some mainScreen
     | Normal None => exploreClickableElements driver s = (Normal tt, snd capture)
     | Raised => exploreClickableElements driver s = (Raised, snd capture)
     end.
Proof.
  intro capture.
  pose proof (ExploreFacts.discover_quiet driver (clicks_issued s)
                (discoveredScreens (heap s)) s (conj eq_refl eq_refl)) as Hquiet.
  pose proof (ExploreFacts.exploreClickableElements_run driver s) as Hrun.
  fold capture in Hquiet, Hrun.
  destruct capture as [r s0]. cbn [fst snd] in *.
  destruct Hquiet as [Hclicks Hscreens].
  split; [exact Hclicks|]. split; [exact Hscreens|].
  destruct r as [[mainScreen|]|]; try exact Hrun.
  cbn zeta. split; [cbn; now rewrite Hscreens|].
  split; [exact Hclicks|]. split; [exact Hrun|].
  intro k.
  set (loop_start := snd (modify_heap (push_screen mainScreen) s0)).
  pose proof (ExploreFacts.run_each_within driver (clicks_issued s) 0
                (discoveredScreens (heap s) ++ [mainScreen])
                (firstn k (firstn 5 (clickable (elements mainScreen))))
                loop_start) as [_ (more & Hmore & _)].
  { split; [unfold clicks_issued in *; cbn; lia|].
    exists []. cbn. rewrite Hscreens, app_nil_r. split; [reflexivity | lia]. }
  rewrite Hmore, <- app_assoc.
  rewrite nth_error_app2 by apply Nat.le_refl.
  now rewrite Nat.sub_diag.
Qed.

(** A click that rejects on the first descriptor leaves the run going: the
    second descriptor is clicked and its screen is captured; the third has
    neither text nor label and is passed over. *)
Example exploration_continues_after_failed_click :
  let run := exploreClickableElements (Mock.session Mock.click_fails)
                                      Mock.discovery_start in
  fst run = Normal tt
  /\ clicks_issued (snd run) = 2
  /\ List.length (discoveredScreens (heap (snd run))) = 2
  /\ map labelled (clickable (elements Mock.healthy_screen)) = [true; true; false].
Proof. vm_compute. repeat split. Qed.

(** With no activity in focus the capture of the starting screen raises,
    and the run with it; nothing was captured. *)
Example exploration_raises_without_activity :
  let run := exploreClickableElements Mock.no_focus Mock.discovery_start in
  fst run = Raised
  /\ discoveredScreens (heap (snd run)) = []
  /\ clicks_issued (snd run) = 0.
Proof. vm_compute. repeat split. Qed.

(** On a device that loses the focused activity at every click, the
    capture after the click raises; the iteration ends there, without
    going back, and the next descriptor is clicked all the same. *)
Lemma descriptor_failures_caught_witness :
  let run := exploreClickableElements Mock.focus_lost_by_click Mock.focused_start in
  fst (discoverElementsOnCurrentScreen Mock.focus_lost_by_click
         {| world := true; calls := []; heap := heap Mock.focused_start |})
  = Raised
  /\ fst run = Normal tt
  /\ clicks_issued (snd run) = 2
  /\ discoveredScreens (heap (snd run)) = [Mock.healthy_screen].
Proof.
  pose proof (descriptor_failures_caught bool Mock.node Mock.focus_lost_by_click
                Mock.focused_start) as (_ & _ & _ & Hrun & _).
  cbv zeta. rewrite Hrun. vm_compute. repeat split.
Defined.

Lemma exploration_bounded_witness :
  clicks_issued (snd (exploreClickableElements (Mock.session Mock.healthy)
                                               Mock.discovery_start)) <= 0 + 5
  /\ explore_element (Mock.session Mock.healthy)
       {| Clickable.index := 2; Clickable.text := EmptyString;
          Clickable.tagName := "android.widget.Button";
          Clickable.contentDesc := None; Clickable.resourceId := Some EmptyString;
          Clickable.bounds := None; Clickable.selectors := [] |}
       Mock.discovery_start
     = (Normal tt, Mock.discovery_start).
Proof.
  pose proof (exploration_bounded unit Mock.node (Mock.session Mock.healthy)
                Mock.discovery_start) as (Hclicks & _ & _ & Hskip).
  split; [exact Hclicks|].
  apply Hskip. reflexivity.
Defined.

(* ================================================================== *)
(** * Further properties: selectors, names, test cases *)
(* ================================================================== *)

Import MoreProps.

Module MoreStringFacts.
Import StringFacts.

Lemma append_assoc (a b c : string) : ((a ++ b) ++ c = a ++ (b ++ c))%string.
Proof. induction a as [|x a IH]; simpl; [reflexivity | now rewrite IH]. Qed.

Lemma append_empty_r (a : string) : (a ++ EmptyString = a)%string.
Proof. induction a as [|x a IH]; simpl; [reflexivity | now rewrite IH]. Qed.

Lemma rev_onto_append (s acc : string) :
  rev_onto s acc = (reverse s ++ acc)%string.
Proof.
  unfold reverse. revert acc. induction s as [|c s IH]; intro acc; simpl.
  - reflexivity.
  - rewrite IH, (IH (String c EmptyString)), append_assoc. reflexivity.
Qed.

Lemma reverse_cons (c : ascii) (s : string) :
  reverse (String c s) = (reverse s ++ String c EmptyString)%string.
Proof. unfold reverse at 1. simpl. apply rev_onto_append. Qed.

Lemma free_of_append (c : ascii) (a b : string) :
  free_of c (a ++ b) = free_of c a && free_of c b.
Proof.
  induction a as [|x a IH]; simpl; [reflexivity|].
  now rewrite IH, andb_assoc.
Qed.

Lemma free_of_reverse (c : ascii) (s : string) :
  free_of c (reverse s) = free_of c s.
Proof.
  induction s as [|x s IH]; [reflexivity|].
  rewrite reverse_cons, free_of_append, IH. simpl.
  rewrite andb_true_r. apply andb_comm.
Qed.

Lemma append_right_cancel (a b c : string) :
  (a ++ c = b ++ c)%string -> a = b.
Proof.
  revert b. induction a as [|x a IH]; intros [|y b] Heq; simpl in Heq.
  - reflexivity.
  - apply (f_equal String.length) in Heq. simpl in Heq.
    rewrite length_append in Heq. lia.
  - apply (f_equal String.length) in Heq. simpl in Heq.
    rewrite length_append in Heq. lia.
  - injection Heq as -> Heq. f_equal. now apply IH.
Qed.

(** The scan behind [split('.').pop()], from any point of the string. *)
Lemma last_segment_from_spec (s cur : string) :
  free_of "."%char cur = true ->
  free_of "."%char (last_segment_from s cur) = true
  /\ exists before,
      (reverse cur ++ s = before ++ last_segment_from s cur)%string
      /\ (before = EmptyString \/ exists b, before = (b ++ ".")%string).
Proof.
  revert cur. induction s as [|c s IH]; intros cur Hcur; simpl.
  - split; [now rewrite free_of_reverse|].
    exists EmptyString. rewrite append_empty_r. split; [reflexivity | now left].
  - destruct (Ascii.eqb c "."%char) eqn:Hc.
    + apply Ascii.eqb_eq in Hc. subst c.
      destruct (IH EmptyString eq_refl) as (Hfree & before & Heq & Hb).
      split; [exact Hfree|].
      set (segment := last_segment_from s EmptyString) in *.
      change (reverse EmptyString ++ s)%string with s in Heq.
      exists (reverse cur ++ "." ++ before)%string. split.
      * rewrite Heq. simpl. now rewrite !append_assoc.
      * right. destruct Hb as [-> | (b & ->)].
        -- exists (reverse cur). reflexivity.
        -- exists (reverse cur ++ "." ++ b)%string. now rewrite !append_assoc.
    + destruct (IH (String c cur)) as (Hfree & before & Heq & Hb).
      { simpl. now rewrite Hc. }
      split; [exact Hfree|]. exists before. split; [|exact Hb].
      rewrite <- Heq, reverse_cons, append_assoc. reflexivity.
Qed.

Lemma last_segment_from_free (s cur : string) :
  free_of "."%char s = true ->
  last_segment_from s cur = (reverse cur ++ s)%string.
Proof.
  revert cur. induction s as [|c s IH]; intros cur Hs; simpl.
  - now rewrite append_empty_r.
  - simpl in Hs. apply andb_true_iff in Hs as [Hc Hs].
    apply negb_true_iff in Hc. rewrite Hc.
    rewrite IH by assumption. rewrite reverse_cons, append_assoc. reflexivity.
Qed.

End MoreStringFacts.

(** X1.  A selectors list is empty exactly when the descriptor has no
    resource id, no text left after trimming and no label left after
    trimming; otherwise it holds two locators per attribute present, six
    at most.  This holds for both generators. *)
Theorem selectors_empty_without_attributes
        (tagName text : string) (className resourceId contentDesc : value) :
  let finder := generateSelectors text className resourceId contentDesc in
  let inspector := generateSelector tagName text contentDesc resourceId in
  let present := Nat.b2n (truthy resourceId) + Nat.b2n (nonblank (Some text))
                 + Nat.b2n (nonblank contentDesc) in
  List.length finder = 2 * present
  /\ List.length inspector = 2 * present
  /\ (finder = [] <-> present = 0)
  /\ (inspector = [] <-> present = 0)
  /\ List.length finder <= 6.
Proof.
  intros finder inspector present. subst finder inspector present.
  unfold generateSelectors, generateSelector.
  rewrite SelectorFacts.trim_condition, SelectorFacts.truthy_trimmed_nonblank.
  destruct (truthy resourceId), (nonblank (Some text)), (nonblank contentDesc);
    simpl; repeat split; intros; try discriminate; try reflexivity; lia.
Qed.

(** X2.  For the same attributes the two generators emit the same locator
    strings; only the order of the two strings of a tier differs. *)
Theorem generators_emit_same_locators
        (tagName text : string) (className resourceId contentDesc : value) :
  Permutation (generateSelectors text className resourceId contentDesc)
              (generateSelector tagName text contentDesc resourceId).
Proof.
  unfold generateSelectors, generateSelector.
  destruct (truthy resourceId), (truthy_str text && truthy_str (trim text)),
           (truthy_trimmed contentDesc); simpl;
    repeat first [ apply perm_nil
                 | eapply perm_trans; [apply perm_swap|];
                   apply perm_skip; apply perm_skip ].
Qed.

(** X3.  The screen name taken from an activity is its last dot-separated
    segment: it has no dot, the activity ends with it, and what comes
    before it is empty or ends with a dot.  An activity without a dot is
    its own screen name. *)
Theorem screen_name_is_last_segment (activity : string) :
  free_of "."%char (split_dot_pop activity) = true
  /\ (exists before,
        activity = (before ++ split_dot_pop activity)%string
        /\ (before = EmptyString \/ exists b, before = (b ++ ".")%string))
  /\ (free_of "."%char activity = true -> split_dot_pop activity = activity).
Proof.
  unfold split_dot_pop.
  destruct (MoreStringFacts.last_segment_from_spec activity EmptyString eq_refl)
    as (Hfree & before & Heq & Hbefore).
  split; [exact Hfree|]. split.
  - exists before. split; [exact Heq | exact Hbefore].
  - intro Hnone. now rewrite MoreStringFacts.last_segment_from_free.
Qed.

Lemma screen_name_is_last_segment_witness :
  split_dot_pop "MainActivity" = "MainActivity"
  /\ split_dot_pop "com.app.MainActivity" = "MainActivity".
Proof.
  split; [|reflexivity].
  exact (proj2 (proj2 (screen_name_is_last_segment "MainActivity")) eq_refl).
Defined.

Module TestCaseFacts.
Import TestCases.

Lemma click_cases_spec (testCases : list TestCase) (clickables : list Clickable.t) :
  click_cases testCases clickables
  = testCases ++ map click_case (filter labelled clickables).
Proof.
  revert testCases. induction clickables as [|element rest IH]; intro testCases; simpl.
  - now rewrite app_nil_r.
  - unfold labelled at 1.
    destruct (truthy_str (Clickable.text element) || truthy (Clickable.contentDesc element)).
    + rewrite IH, <- app_assoc. reflexivity.
    + apply IH.
Qed.

Lemma input_cases_spec (testCases : list TestCase) (index : nat) (inputs : list Input.t) :
  input_cases testCases index inputs = testCases ++ input_cases [] index inputs.
Proof.
  revert testCases index.
  induction inputs as [|element rest IH]; intros testCases index; simpl.
  - now rewrite app_nil_r.
  - rewrite IH, (IH [input_case index element]), <- app_assoc. reflexivity.
Qed.

Lemma input_cases_length (index : nat) (inputs : list Input.t) :
  List.length (input_cases [] index inputs) = List.length inputs.
Proof.
  revert index. induction inputs as [|element rest IH]; intro index; simpl.
  - reflexivity.
  - rewrite input_cases_spec, length_app, IH. reflexivity.
Qed.

Lemma input_cases_subjects (index : nat) (inputs : list Input.t) :
  Forall (fun case => type case = "input_interaction"
                      /\ exists element, subject case = InputElement element
                                         /\ In element inputs)
         (input_cases [] index inputs).
Proof.
  revert index. induction inputs as [|element rest IH]; intro index; simpl.
  - constructor.
  - rewrite input_cases_spec. constructor.
    + split; [reflexivity|]. exists element. split; [reflexivity | now left].
    + eapply Forall_impl; [|apply IH].
      intros case (Htype & e & Hsubject & Hin).
      split; [exact Htype|]. exists e. split; [exact Hsubject | now right].
Qed.

Lemma screen_cases_spec (testCases : list TestCase) (screen : Screen) :
  screen_cases testCases screen
  = testCases
    ++ screen_load_case screen
       :: map click_case (filter labelled (clickable (elements screen)))
       ++ input_cases [] 0 (inputs (elements screen)).
Proof.
  unfold screen_cases. rewrite input_cases_spec, click_cases_spec.
  rewrite <- !app_assoc. reflexivity.
Qed.

Lemma screen_cases_length (screen : Screen) :
  List.length (screen_cases [] screen) = cases_of screen.
Proof.
  rewrite screen_cases_spec. simpl.
  rewrite length_app, length_map, input_cases_length. reflexivity.
Qed.

Lemma fold_screen_cases (testCases : list TestCase) (screens : list Screen) :
  fold_left screen_cases screens testCases
  = testCases ++ flat_map (screen_cases []) screens.
Proof.
  revert testCases. induction screens as [|screen rest IH]; intro testCases; simpl.
  - now rewrite app_nil_r.
  - rewrite IH, (screen_cases_spec testCases), (screen_cases_spec []).
    simpl. rewrite <- app_assoc. reflexivity.
Qed.

Lemma generateTestCases_flat_map (screens : list Screen) :
  generateTestCases screens = flat_map (screen_cases []) screens.
Proof. unfold generateTestCases. now rewrite fold_screen_cases. Qed.

Lemma generateTestCases_length (screens : list Screen) :
  List.length (generateTestCases screens) = list_sum (map cases_of screens).
Proof.
  rewrite generateTestCases_flat_map.
  induction screens as [|screen rest IH]; simpl; [reflexivity|].
  now rewrite length_app, screen_cases_length, IH.
Qed.

Lemma cases_at_least_screens (screens : list Screen) :
  List.length screens <= list_sum (map cases_of screens).
Proof.
  induction screens as [|screen rest IH]; [apply Nat.le_refl|].
  cbn [map List.length].
  change (list_sum (cases_of screen :: map cases_of rest))
    with (cases_of screen + list_sum (map cases_of rest)).
  unfold cases_of at 1. lia.
Qed.

End TestCaseFacts.

(** X4.  [generateTestCases] treats the screens one by one: the cases of a
    list of screens are the cases of its parts, one after the other.  The
    number of cases is, summed over the screens, one plus the clickable
    descriptors with text or label plus the inputs; so there is at least
    one case per screen, and none for no screen. *)
Theorem test_cases_counted (screens more : list Screen) :
  TestCases.generateTestCases (screens ++ more)
  = TestCases.generateTestCases screens ++ TestCases.generateTestCases more
  /\ List.length (TestCases.generateTestCases screens)
     = list_sum (map cases_of screens)
  /\ List.length screens <= List.length (TestCases.generateTestCases screens).
Proof.
  split; [|split].
  - rewrite !TestCaseFacts.generateTestCases_flat_map. apply flat_map_app.
  - apply TestCaseFacts.generateTestCases_length.
  - rewrite TestCaseFacts.generateTestCases_length.
    apply TestCaseFacts.cases_at_least_screens.
Qed.

(** X5.  Every generated case is of one of three kinds and is about what
    was discovered: a screen-load case carries at most three text
    descriptors; a click case is about a clickable descriptor of one of
    the screens that has text or a label, and its name ends with that text
    or label, which is not empty; an input case is about an input
    descriptor of one of the screens. *)
Theorem test_cases_subjects (screens : list Screen) :
  Forall (fun case =>
            match TestCases.subject case with
            | TestCases.Elements texts =>
                TestCases.type case = "screen_load" /\ List.length texts <= 3
            | TestCases.ClickElement element =>
                TestCases.type case = "click_interaction"
                /\ labelled element = true
                /\ TestCases.name case
                   = ("Test Click " ++ TestCases.text_or_label element)%string
                /\ truthy_str (TestCases.text_or_label element) = true
                /\ exists screen, In screen screens
                                  /\ In element (clickable (elements screen))
            | TestCases.InputElement element =>
                TestCases.type case = "input_interaction"
                /\ exists screen, In screen screens
                                  /\ In element (inputs (elements screen))
            end)
         (TestCases.generateTestCases screens).
Proof.
  rewrite TestCaseFacts.generateTestCases_flat_map.
  apply Forall_flat_map. apply Forall_forall. intros screen Hscreen.
  rewrite TestCaseFacts.screen_cases_spec. simpl.
  constructor; [split; [reflexivity | apply firstn_le_length]|].
  apply Forall_app. split.
  - apply Forall_forall. intros case Hcase.
    apply in_map_iff in Hcase as (element & <- & Helement).
    apply filter_In in Helement as [Hin Hlabelled]. simpl.
    split; [reflexivity|]. split; [exact Hlabelled|]. split; [reflexivity|].
    split.
    + unfold TestCases.text_or_label, labelled in *.
      destruct (truthy_str (Clickable.text element)) eqn:Htext; [exact Htext|].
      simpl in Hlabelled. now apply SelectorFacts.truthy_str_of_truthy.
    + now exists screen.
  - eapply Forall_impl; [|apply TestCaseFacts.input_cases_subjects].
    intros case (Htype & element & Hsubject & Hin). rewrite Hsubject.
    split; [exact Htype|]. now exists screen.
Qed.

(* ================================================================== *)
(** * Further properties: the finders *)
(* ================================================================== *)

Module MoreRules.
Import Rules.

Section MoreRules.
Context {W E H : Type}.
Local Abbreviation M := (Effects.M W E H).
Local Abbreviation St := (Effects.St W E H).

Lemma preserves_raise {A} (I : St -> Prop) : preserves I (raise : M A).
Proof. intros s Hs. exact Hs. Qed.

Lemma triple_call_catch {A} (I J : list (Call E) -> H -> Prop) (c : Call E)
      (op : W -> outcome A * W) (dflt : A) :
  (forall cs h, I cs h -> J (cs ++ [c]) h) ->
  triple (lifted I) (call_catch c op dflt : M A) (lifted J).
Proof.
  intros HI s Hs. unfold call_catch, lifted in *.
  destruct (op (world s)) as [[a| |] w1]; simpl; auto.
Qed.

(** A loop whose every iteration moves a counted property one step. *)
Lemma triple_for_of_counted {X} (G : nat -> St -> Prop) (xs : list X)
      (body : X -> M unit) (n : nat) :
  (forall x m, triple (G m) (body x) (G (S m))) ->
  (forall m s, G m s -> G (S m) s) ->
  triple (G n) (for_of xs body) (G (n + List.length xs)).
Proof.
  intros Hbody Hmono. revert n. induction xs as [|x xs IH]; intro n; simpl.
  - rewrite Nat.add_0_r. apply triple_ret.
  - replace (n + S (List.length xs)) with (S n + List.length xs) by lia.
    apply (triple_bind _ (G (S n))); [apply Hbody | intros _; apply IH |].
    intros s Hs. clear - Hmono Hs.
    induction (List.length xs) as [|k IHk]; [now rewrite Nat.add_0_r|].
    rewrite Nat.add_succ_r. now apply Hmono.
Qed.

Lemma triple_for_index_counted {X} (G : nat -> St -> Prop) (xs : list X)
      (body : nat -> X -> M unit) (i n : nat) :
  (forall i x m, triple (G m) (body i x) (G (S m))) ->
  (forall m s, G m s -> G (S m) s) ->
  triple (G n) (for_index i xs body) (G (n + List.length xs)).
Proof.
  intros Hbody Hmono. revert i n. induction xs as [|x xs IH]; intros i n; simpl.
  - rewrite Nat.add_0_r. apply triple_ret.
  - replace (n + S (List.length xs)) with (S n + List.length xs) by lia.
    apply (triple_bind _ (G (S n))); [apply Hbody | intros _; apply IH |].
    intros s Hs. clear - Hmono Hs.
    induction (List.length xs) as [|k IHk]; [now rewrite Nat.add_0_r|].
    rewrite Nat.add_succ_r. now apply Hmono.
Qed.

Lemma counted_more (G : nat -> St -> Prop) (n m : nat) (s : St) :
  (forall m s, G m s -> G (S m) s) -> n <= m -> G n s -> G m s.
Proof.
  intros Hmono Hle Hs. induction Hle as [|m Hle IH]; [exact Hs | now apply Hmono].
Qed.

(** Running a computation that returns, inside a sequence. *)
Lemma bind_returns {A B} (m : M A) (f : A -> M B) (s : St) :
  returns m ->
  exists a, fst (m s) = Normal a /\ bind m f s = f a (snd (m s)).
Proof.
  intro Hm. destruct (Hm s) as [a Ha]. exists a. split; [exact Ha|].
  unfold bind. destruct (m s) as [r s1]. simpl in Ha. now subst r.
Qed.

(** A sequence that starts with an awaited call. *)
Lemma bind_call_outcome {A B} (c : Call E) (op : W -> outcome A * W)
      (f : A -> M B) (s : St) :
  match fst (op (world s)) with
  | Resolved a =>
      bind (call c op) f s
      = f a {| world := snd (op (world s)); calls := calls s ++ [c]; heap := heap s |}
  | Rejected | Thrown => fst (bind (call c op) f s) = Raised
  end.
Proof.
  unfold bind, call. destruct (op (world s)) as [[a| |] w]; reflexivity.
Qed.

End MoreRules.
End MoreRules.

Module MoreFinderFacts.
Import ElementFinder Rules MoreRules FinderFacts.

Section Finder.
Context {W E : Type}.
Variable driver : Driver W E.
Local Abbreviation St := (Effects.St W E FoundElements).

(** [getElementInfo] only issues calls and leaves the heap alone. *)
Lemma getElementInfo_frame (I : list (Call E) -> FoundElements -> Prop)
      (element : E) :
  (forall c cs h, I cs h -> I (cs ++ [c]) h) ->
  preserves (lifted I) (getElementInfo driver element).
Proof.
  intro Hcall. unfold getElementInfo.
  repeat preserves_step; intros; now apply Hcall.
Qed.

Lemma isDuplicate_false_key (array : list Info) (info : Info) :
  isDuplicate array info = false -> ~ In (key info) (map key array).
Proof.
  intros Hdup Hin. apply in_map_iff in Hin as (item & Hkey & Hitem).
  assert (Htrue : isDuplicate array info = true).
  { apply FilterFacts.isDuplicate_spec. exists item. split; [exact Hitem|].
    unfold key in Hkey. injection Hkey as Hr Ht Hc. now repeat split. }
  congruence.
Qed.

Lemma list_of_push_other (k k' : Kind) (info : Info) (f : FoundElements) :
  k <> k' -> list_of k' (push k info f) = list_of k' f.
Proof. intro Hk. destruct k, k'; try reflexivity; now contradiction Hk. Qed.

Lemma kind_eq_dec (k k' : Kind) : {k = k'} + {k <> k'}.
Proof. decide equality. Qed.

Lemma add_unless_duplicate_distinct (k : Kind) (info : Info) :
  preserves (lifted (fun _ found => distinct_keys found))
            (add_unless_duplicate (W := W) (E := E) k info).
Proof.
  intros s Hs. unfold lifted in *.
  unfold add_unless_duplicate, bind, get_heap.
  destruct (isDuplicate (list_of k (heap s)) info) eqn:Hdup; simpl; [exact Hs|].
  intro k'. destruct (kind_eq_dec k k') as [<- | Hk].
  - rewrite FilterFacts.list_of_push_same, map_app. simpl.
    apply (Permutation_NoDup (Permutation_cons_append _ _)).
    constructor; [now apply isDuplicate_false_key | apply Hs].
  - rewrite list_of_push_other by assumption. apply Hs.
Qed.

Ltac distinct :=
  repeat first
    [ preserves_step | split_branch
    | apply add_unless_duplicate_distinct
    | apply getElementInfo_frame
    | apply preserves_raise ];
  intros; trivial.

Lemma findAllElementTypes_distinct :
  preserves (lifted (fun _ found => distinct_keys found))
            (findAllElementTypes driver).
Proof.
  unfold findAllElementTypes, findButtons, findInputFields, findTextElements,
         findImageElements, findListElements, findCheckboxes, findCustomElements,
         value_startsWith.
  distinct.
Qed.

(** What [findAllElementTypes] returns is the accumulator it leaves. *)
Lemma findAllElementTypes_returns_heap (s : St) (found : FoundElements) :
  fst (findAllElementTypes driver s) = Normal found ->
  found = heap (snd (findAllElementTypes driver s)).
Proof.
  unfold findAllElementTypes, bind, get_heap.
  destruct (findButtons driver s) as [[[]|] s1]; [|discriminate].
  destruct (findInputFields driver s1) as [[[]|] s2]; [|discriminate].
  destruct (findTextElements driver s2) as [[[]|] s3]; [|discriminate].
  destruct (findImageElements driver s3) as [[[]|] s4]; [|discriminate].
  destruct (findListElements driver s4) as [[[]|] s5]; [|discriminate].
  destruct (findCheckboxes driver s5) as [[[]|] s6]; [|discriminate].
  destruct (findCustomElements driver s6) as [[[]|] s7]; [|discriminate].
  simpl. congruence.
Qed.

(** [findTextElements] completes as its query does. *)
Lemma findTextElements_outcome (s : St) :
  match fst (find_all driver "//android.widget.TextView" (world s)) with
  | Resolved _ => fst (findTextElements driver s) = Normal tt
  | Rejected | Thrown => fst (findTextElements driver s) = Raised
  end.
Proof.
  unfold findTextElements.
  match goal with
  | |- context [bind (call ?c ?op) ?f s] =>
      pose proof (bind_call_outcome c op f s) as Hcall
  end.
  destruct (fst (find_all driver "//android.widget.TextView" (world s)));
    try exact Hcall.
  rewrite Hcall. apply returns_unit. repeat returns_step.
Qed.

(** ** The caps of [findTextElements] and [findCustomElements] *)

(** The list of kind [k] is [before] followed by at most [n] entries that
    satisfy [P]; the other lists are those of [found0]. *)
Local Abbreviation grown k P before found0 n :=
  (lifted (fun (_ : list (Call E)) found =>
             (exists more, list_of k found = before ++ more
                           /\ List.length more <= n /\ Forall P more)
             /\ forall k', k <> k' -> list_of k' found = list_of k' found0)).

Lemma grown_more k (P : Info -> Prop) before found0 (n : nat) (s : St) :
  grown k P before found0 n s -> grown k P before found0 (S n) s.
Proof.
  intros [(more & Hmore & Hlen & HP) Hothers]. split; [|exact Hothers].
  exists more. repeat split; trivial. lia.
Qed.

Lemma add_unless_duplicate_grown k (P : Info -> Prop) before found0 n (info : Info) :
  P info ->
  triple (grown k P before found0 n)
         (add_unless_duplicate (W := W) (E := E) k info)
         (grown k P before found0 (S n)).
Proof.
  intros Hinfo s [(more & Hmore & Hlen & HP) Hothers]. unfold lifted.
  unfold add_unless_duplicate, bind, get_heap.
  destruct (isDuplicate (list_of k (heap s)) info); simpl.
  - split; [|exact Hothers]. exists more. repeat split; trivial. lia.
  - split.
    + exists (more ++ [info]). rewrite FilterFacts.list_of_push_same, Hmore, app_assoc.
      split; [reflexivity|]. split; [rewrite length_app; simpl; lia|].
      apply Forall_app. split; [exact HP | now constructor].
    + intros k' Hk. rewrite list_of_push_other by assumption. now apply Hothers.
Qed.

Lemma getElementInfo_grown k (P : Info -> Prop) before found0 n (element : E) :
  preserves (grown k P before found0 n) (getElementInfo driver element).
Proof. apply getElementInfo_frame. intros; assumption. Qed.

Lemma findTextElements_grown before found0 :
  triple (grown KTexts (fun info => truthy_str (text info) = true) before found0 0)
         (findTextElements driver)
         (grown KTexts (fun info => truthy_str (text info) = true) before found0 20).
Proof.
  set (P := fun info => truthy_str (text info) = true).
  assert (Hup : forall n (s : St),
             n <= 20 -> grown KTexts P before found0 n s ->
             grown KTexts P before found0 20 s).
  { intros n s Hn. apply (counted_more (fun m => grown KTexts P before found0 m)); trivial.
    intros m s'. apply grown_more. }
  unfold findTextElements.
  apply (triple_bind _ (grown KTexts P before found0 0));
    [apply preserves_call; intros; assumption | | intro s; apply Hup; lia].
  intro elements.
  eapply triple_weaken;
    [apply (triple_for_of_counted (fun m => grown KTexts P before found0 m) _ _ 0)
    | trivial
    | intro s; apply Hup; pose proof (firstn_le_length 20 elements); lia].
  - intros element m.
    apply (triple_try_catch _ (grown KTexts P before found0 (S m)));
      [| apply triple_ret | trivial].
    apply (triple_bind _ (grown KTexts P before found0 m));
      [apply preserves_call; intros; assumption | | apply grown_more].
    intros [|]; [|intros s Hs; now apply grown_more].
    apply (triple_bind _ (grown KTexts P before found0 m));
      [apply getElementInfo_grown | | apply grown_more].
    intro info.
    destruct (truthy_str (text info)) eqn:Htext; cbn [andb];
      [|intros s Hs; now apply grown_more].
    destruct (truthy_str (trim (text info)) && Nat.ltb 0 (String.length (text info)));
      [|intros s Hs; now apply grown_more].
    now apply add_unless_duplicate_grown.
  - intros m s. apply grown_more.
Qed.

Lemma findCustomElements_grown before found0 :
  triple (grown KCustom (fun _ => True) before found0 0)
         (findCustomElements driver)
         (grown KCustom (fun _ => True) before found0 15).
Proof.
  set (P := fun _ : Info => True).
  assert (Hup : forall n (s : St),
             n <= 15 -> grown KCustom P before found0 n s ->
             grown KCustom P before found0 15 s).
  { intros n s Hn. apply (counted_more (fun m => grown KCustom P before found0 m)); trivial.
    intros m s'. apply grown_more. }
  unfold findCustomElements.
  apply (triple_try_catch _ (grown KCustom P before found0 15));
    [| apply triple_ret | trivial].
  apply (triple_bind _ (grown KCustom P before found0 0));
    [apply preserves_call; intros; assumption | | intro s; apply Hup; lia].
  intro allElements.
  eapply triple_weaken;
    [apply (triple_for_of_counted (fun m => grown KCustom P before found0 m) _ _ 0)
    | trivial
    | intro s; apply Hup; pose proof (firstn_le_length 15 allElements); lia].
  - intros element m.
    apply (triple_try_catch _ (grown KCustom P before found0 (S m)));
      [| apply triple_ret | trivial].
    apply (triple_bind _ (grown KCustom P before found0 m));
      [apply preserves_call; intros; assumption | | apply grown_more].
    intros [|]; [|intros s Hs; now apply grown_more].
    apply (triple_bind _ (grown KCustom P before found0 m));
      [apply preserves_call; intros; assumption | | apply grown_more].
    intro resourceId.
    apply (triple_bind _ (grown KCustom P before found0 m));
      [apply preserves_call; intros; assumption | | apply grown_more].
    intro className.
    destruct (truthy resourceId); [|intros s Hs; now apply grown_more].
    apply (triple_bind _ (grown KCustom P before found0 m));
      [destruct className; [apply preserves_ret | apply preserves_raise]
      | | apply grown_more].
    intros [|]; cbn [negb]; [intros s Hs; now apply grown_more|].
    apply (triple_bind _ (grown KCustom P before found0 m));
      [destruct className; [apply preserves_ret | apply preserves_raise]
      | | apply grown_more].
    intros [|]; cbn [negb]; [intros s Hs; now apply grown_more|].
    apply (triple_bind _ (grown KCustom P before found0 m));
      [apply getElementInfo_grown | | apply grown_more].
    intro info. now apply add_unless_duplicate_grown.
  - intros m s. apply grown_more.
Qed.

End Finder.
End MoreFinderFacts.

(** X6.  The duplicate filter gives an invariant of the accumulator: when
    no list of [foundElements] holds two entries with the same resource
    id, text and class name, none does after [findAllElementTypes],
    however the run ends. *)
Theorem found_elements_keys_distinct
        (W E : Type) (driver : Driver W E)
        (s : St W E ElementFinder.FoundElements) :
  distinct_keys (heap s) ->
  distinct_keys (heap (snd (ElementFinder.findAllElementTypes driver s))).
Proof. apply (MoreFinderFacts.findAllElementTypes_distinct driver). Qed.

Lemma found_elements_keys_distinct_witness :
  NoDup (map key
           (ElementFinder.buttons
              (heap (snd (ElementFinder.findAllElementTypes
                            (Mock.session Mock.healthy) Mock.finder_start)))))
  /\ List.length
       (ElementFinder.buttons
          (heap (snd (ElementFinder.findAllElementTypes
                        (Mock.session Mock.healthy) Mock.finder_start)))) = 3.
Proof.
  split; [|vm_compute; reflexivity].
  apply (found_elements_keys_distinct unit Mock.node (Mock.session Mock.healthy)
           Mock.finder_start
           (fun k => match k with
                     | ElementFinder.KButtons | ElementFinder.KInputs
                     | ElementFinder.KTexts | ElementFinder.KImages
                     | ElementFinder.KLists | ElementFinder.KCheckboxes
                     | ElementFinder.KCustom => NoDup_nil _
                     end)
           ElementFinder.KButtons).
Defined.

(** X7.  [findAllElementTypes] raises in one case only: the TextView query
    of [findTextElements], issued in the state [findButtons] and
    [findInputFields] left, does not resolve.  Whenever that query
    resolves the run returns the accumulator, whatever else fails. *)
Theorem discovery_aborts_only_on_text_query
        (W E : Type) (driver : Driver W E)
        (s : St W E ElementFinder.FoundElements) :
  let s2 := snd (ElementFinder.findInputFields driver
                   (snd (ElementFinder.findButtons driver s))) in
  let run := ElementFinder.findAllElementTypes driver s in
  match fst (find_all driver "//android.widget.TextView" (world s2)) with
  | Resolved _ => fst run = Normal (heap (snd run))
  | Rejected | Thrown => fst run = Raised
  end.
Proof.
  intros s2 run.
  assert (Hrun :
            match fst (find_all driver "//android.widget.TextView" (world s2)) with
            | Resolved _ => exists found, fst run = Normal found
            | Rejected | Thrown => fst run = Raised
            end).
  { subst run. unfold ElementFinder.findAllElementTypes.
    destruct (MoreRules.bind_returns (ElementFinder.findButtons driver)
                (fun _ => bind (ElementFinder.findInputFields driver)
                   (fun _ => bind (ElementFinder.findTextElements driver)
                      (fun _ => bind (ElementFinder.findImageElements driver)
                         (fun _ => bind (ElementFinder.findListElements driver)
                            (fun _ => bind (ElementFinder.findCheckboxes driver)
                               (fun _ => bind (ElementFinder.findCustomElements driver)
                                  (fun _ => get_heap)))))))
                s (FinderFacts.findButtons_returns driver)) as ([] & _ & ->).
    destruct (MoreRules.bind_returns (ElementFinder.findInputFields driver)
                (fun _ => bind (ElementFinder.findTextElements driver)
                   (fun _ => bind (ElementFinder.findImageElements driver)
                      (fun _ => bind (ElementFinder.findListElements driver)
                         (fun _ => bind (ElementFinder.findCheckboxes driver)
                            (fun _ => bind (ElementFinder.findCustomElements driver)
                               (fun _ => get_heap))))))
                (snd (ElementFinder.findButtons driver s))
                (FinderFacts.findInputFields_returns driver)) as ([] & _ & ->).
    fold s2.
    pose proof (MoreFinderFacts.findTextElements_outcome driver s2) as Htext.
    destruct (fst (find_all driver "//android.widget.TextView" (world s2)));
      unfold bind at 1;
      destruct (ElementFinder.findTextElements driver s2) as [r3 s4];
      cbn [fst] in Htext; subst r3; try reflexivity.
    assert (Hrest : returns
              (bind (ElementFinder.findImageElements driver)
                 (fun _ => bind (ElementFinder.findListElements driver)
                    (fun _ => bind (ElementFinder.findCheckboxes driver)
                       (fun _ => ElementFinder.findCustomElements driver))))).
    { apply Rules.returns_bind;
        [apply FinderFacts.findImageElements_returns | intros _].
      apply Rules.returns_bind;
        [apply FinderFacts.findListElements_returns | intros _].
      apply Rules.returns_bind;
        [apply FinderFacts.findCheckboxes_returns | intros _].
      apply FinderFacts.findCustomElements_returns. }
    pose proof (Rules.returns_unit _ s4 Hrest) as Hunit.
    unfold bind in *.
    destruct (ElementFinder.findImageElements driver s4) as [[[]|] s5];
      [|discriminate Hunit].
    destruct (ElementFinder.findListElements driver s5) as [[[]|] s6];
      [|discriminate Hunit].
    destruct (ElementFinder.findCheckboxes driver s6) as [[[]|] s7];
      [|discriminate Hunit].
    destruct (ElementFinder.findCustomElements driver s7) as [[[]|] s8];
      [|discriminate Hunit].
    eexists. reflexivity. }
  destruct (fst (find_all driver "//android.widget.TextView" (world s2)));
    try exact Hrun.
  destruct Hrun as [found Hfound]. rewrite Hfound. f_equal.
  now apply MoreFinderFacts.findAllElementTypes_returns_heap.
Qed.

(** X8.  The two capped finders: [findTextElements] appends at most 20
    entries to [texts], each with non-empty text, and [findCustomElements]
    at most 15 to [custom]; the entries already there stay in place and no
    other list changes, however the finder ends. *)
Theorem capped_finders
        (W E : Type) (driver : Driver W E)
        (s : St W E ElementFinder.FoundElements) :
  let after_texts := heap (snd (ElementFinder.findTextElements driver s)) in
  let after_custom := heap (snd (ElementFinder.findCustomElements driver s)) in
  (exists more,
      ElementFinder.texts after_texts = ElementFinder.texts (heap s) ++ more
      /\ List.length more <= 20
      /\ Forall (fun info => truthy_str (ElementFinder.text info) = true) more)
  /\ (forall k, k <> ElementFinder.KTexts ->
                ElementFinder.list_of k after_texts = ElementFinder.list_of k (heap s))
  /\ (exists more,
        ElementFinder.custom after_custom = ElementFinder.custom (heap s) ++ more
        /\ List.length more <= 15)
  /\ (forall k, k <> ElementFinder.KCustom ->
                ElementFinder.list_of k after_custom = ElementFinder.list_of k (heap s)).
Proof.
  intros after_texts after_custom.
  assert (Hstart : forall k (P : ElementFinder.Info -> Prop),
             (exists more,
                 ElementFinder.list_of k (heap s)
                 = ElementFinder.list_of k (heap s) ++ more
                 /\ List.length more <= 0 /\ Forall P more)
             /\ forall k', k <> k' ->
                  ElementFinder.list_of k' (heap s) = ElementFinder.list_of k' (heap s)).
  { intros k P. split; [|reflexivity].
    exists []. rewrite app_nil_r. repeat split; [apply Nat.le_refl | constructor]. }
  destruct (MoreFinderFacts.findTextElements_grown driver
              (ElementFinder.texts (heap s)) (heap s) s (Hstart ElementFinder.KTexts _))
    as [Htexts Hothers].
  destruct (MoreFinderFacts.findCustomElements_grown driver
              (ElementFinder.custom (heap s)) (heap s) s (Hstart ElementFinder.KCustom _))
    as [(more & Hcustom & Hlen & _) Hothers'].
  split; [exact Htexts|].
  split; [intros k Hk; apply Hothers; congruence|].
  split; [now exists more|].
  intros k Hk. apply Hothers'. congruence.
Qed.

(* ================================================================== *)
(** * Further properties: snapshots *)
(* ================================================================== *)

Module MoreDiscoveryFacts.
Import Rules MoreRules DiscoveryFacts MoreStringFacts.

Lemma append_left_cancel (p a b : string) :
  (p ++ a = p ++ b)%string -> a = b.
Proof.
  induction p as [|c p IH]; simpl; intro Heq; [exact Heq|].
  injection Heq as Heq. now apply IH.
Qed.

Lemma num_injective (a b : nat) : num a = num b -> a = b.
Proof.
  unfold num. intro Heq. apply Unsigned.to_uint_inj.
  assert (Hsome : Some (Nat.to_uint a) = Some (Nat.to_uint b))
    by (rewrite <- !NilEmpty.usu; now rewrite Heq).
  now injection Hsome.
Qed.

Lemma xpath_edit_position_injective (a b : nat) :
  xpath_edit_position a = xpath_edit_position b -> a = b.
Proof.
  unfold xpath_edit_position. intro Heq.
  apply append_left_cancel, append_right_cancel in Heq.
  now apply num_injective.
Qed.

Section Pass.
Context {W E : Type}.
Variable driver : Driver W E.
Local Abbreviation St := (Effects.St W E (Heap E)).
Local Abbreviation M := (Effects.M W E (Heap E)).

(** A loop over indexed results whose iteration [i] moves a property of
    the index from [i] to its successor. *)
Lemma triple_for_index_indexed {X} (G : nat -> St -> Prop) (xs : list X)
      (body : nat -> X -> M unit) (i : nat) :
  (forall i x, triple (G i) (body i x) (G (S i))) ->
  (forall i s, G i s -> G (S i) s) ->
  triple (G i) (for_index i xs body) (fun s => exists j, G j s).
Proof.
  intros Hbody Hmono. revert i. induction xs as [|x xs IH]; intro i; simpl.
  - intros s Hs. now exists i.
  - apply (triple_bind _ (G (S i))); [apply Hbody | intros _; apply IH |].
    intros s Hs. now exists (S i).
Qed.

(** ** A pass issues reading calls only *)

Section Reading.
Variable I : list (Call E) -> Heap E -> Prop.
Hypothesis I_call :
  forall c cs h, is_reading c = true -> I cs h -> I (cs ++ [c]) h.
Hypothesis I_current : forall f cs h, I cs h -> I cs (set_current f h).

Ltac reading :=
  repeat first [preserves_step | split_branch | apply preserves_raise];
  try (intros; apply I_current; assumption);
  try (intros; apply I_call; [reflexivity | assumption]).

Lemma discover_reading : preserves (lifted I) (discoverElementsOnCurrentScreen driver).
Proof.
  unfold discoverElementsOnCurrentScreen, getCurrentScreenInfo, takeScreenshot,
         discover_queries, discover_clickable, discover_inputs, discover_texts,
         discover_scrollable, getRect_or_empty.
  reading.
Qed.

End Reading.

(** ** Texts of a snapshot *)

Local Abbreviation texts_within n :=
  (lifted (fun (_ : list (Call E)) (h : Heap E) =>
             List.length (texts (current h)) <= n
             /\ Forall (fun t => truthy_str (Text.text t) = true) (texts (current h))
             /\ buttons (current h) = [])).

Lemma texts_within_more n (s : St) : texts_within n s -> texts_within (S n) s.
Proof. intros (Hlen & Hall & Hb). repeat split; trivial. lia. Qed.

Ltac untouched :=
  repeat first [preserves_step | split_branch];
  intros; trivial.

Lemma discover_clickable_texts n : preserves (texts_within n) (discover_clickable driver).
Proof. unfold discover_clickable, getRect_or_empty. untouched. Qed.

Lemma discover_inputs_texts n : preserves (texts_within n) (discover_inputs driver).
Proof. unfold discover_inputs, getRect_or_empty. untouched. Qed.

Lemma discover_scrollable_texts n : preserves (texts_within n) (discover_scrollable driver).
Proof. unfold discover_scrollable, getRect_or_empty. untouched. Qed.

Lemma discover_texts_texts : triple (texts_within 0) (discover_texts driver) (texts_within 20).
Proof.
  assert (Hup : forall n (s : St), n <= 20 -> texts_within n s -> texts_within 20 s).
  { intros n s Hn. apply (counted_more (fun m => texts_within m)); trivial.
    intros m s'. apply texts_within_more. }
  unfold discover_texts.
  apply (triple_bind _ (texts_within 0));
    [apply preserves_call; intros; assumption | | intro s; apply Hup; lia].
  intro textElements.
  eapply triple_weaken;
    [apply (triple_for_index_counted (fun m => texts_within m) _ _ 0 0)
    | trivial
    | intro s; apply Hup; pose proof (firstn_le_length 20 textElements); lia].
  - intros i element m.
    apply (triple_try_catch _ (texts_within (S m))); [| apply triple_ret | trivial].
    apply (triple_bind _ (texts_within m));
      [apply preserves_call; intros; assumption | | apply texts_within_more].
    intros [|]; [|intros s Hs; now apply texts_within_more].
    apply (triple_bind _ (texts_within m));
      [apply preserves_call_catch; intros; assumption | | apply texts_within_more].
    intro text.
    apply (triple_bind _ (texts_within m));
      [apply preserves_call_catch; intros; assumption | | apply texts_within_more].
    intro resourceId.
    apply (triple_bind _ (texts_within m));
      [unfold getRect_or_empty; apply preserves_call_catch; intros; assumption
      | | apply texts_within_more].
    intro bounds.
    destruct (truthy_str text); cbn [andb];
      [|intros s Hs; now apply texts_within_more].
    destruct (truthy_str (trim text)) eqn:Htrim; cbn [andb];
      [|intros s Hs; now apply texts_within_more].
    destruct (Nat.ltb 0 (String.length text));
      [|intros s Hs; now apply texts_within_more].
    apply triple_modify_heap. intros cs h (Hlen & Hall & Hb). simpl.
    rewrite length_app. simpl. split; [lia|]. split; [|exact Hb].
    apply Forall_app. split; [exact Hall | now constructor].
  - intros m s. apply texts_within_more.
Qed.

Lemma discover_queries_texts :
  triple (texts_within 0) (discover_queries driver) (texts_within 20).
Proof.
  assert (Hup : forall (s : St), texts_within 0 s -> texts_within 20 s).
  { intro s. apply (counted_more (fun m => texts_within m) 0 20 s); [|lia].
    intros m s'. apply texts_within_more. }
  unfold discover_queries.
  apply (triple_try_catch _ (texts_within 20)); [| apply triple_ret | trivial].
  apply (triple_bind _ (texts_within 0));
    [apply discover_clickable_texts | | exact Hup].
  intros _.
  apply (triple_bind _ (texts_within 0));
    [apply discover_inputs_texts | | exact Hup].
  intros _.
  apply (triple_bind _ (texts_within 20));
    [apply discover_texts_texts | | trivial].
  intros _. apply discover_scrollable_texts.
Qed.

(** ** Indices of the inputs of a snapshot *)

Local Abbreviation indices_below i :=
  (lifted (fun (_ : list (Call E)) (h : Heap E) =>
             NoDup (map Input.index (inputs (current h)))
             /\ Forall (fun k => k < i) (map Input.index (inputs (current h))))).

Lemma indices_below_more i (s : St) : indices_below i s -> indices_below (S i) s.
Proof.
  intros [Hnodup Hall]. split; [exact Hnodup|].
  eapply Forall_impl; [|exact Hall]. intros k Hk. simpl in Hk. lia.
Qed.

Lemma discover_clickable_indices i :
  preserves (indices_below i) (discover_clickable driver).
Proof. unfold discover_clickable, getRect_or_empty. untouched. Qed.

Lemma discover_texts_indices i : preserves (indices_below i) (discover_texts driver).
Proof. unfold discover_texts, getRect_or_empty. untouched. Qed.

Lemma discover_scrollable_indices i :
  preserves (indices_below i) (discover_scrollable driver).
Proof. unfold discover_scrollable, getRect_or_empty. untouched. Qed.

Lemma discover_inputs_indices :
  triple (indices_below 0) (discover_inputs driver) (fun s => exists j, indices_below j s).
Proof.
  unfold discover_inputs.
  apply (triple_bind _ (indices_below 0));
    [apply preserves_call; intros; assumption | | intros s Hs; now exists 0].
  intro inputElements.
  apply (triple_for_index_indexed (fun i => indices_below i));
    [|intros i s; apply indices_below_more].
  intros i element.
  apply (triple_try_catch _ (indices_below (S i))); [| apply triple_ret | trivial].
  apply (triple_bind _ (indices_below i));
    [apply preserves_call; intros; assumption | | apply indices_below_more].
  intros [|]; [|intros s Hs; now apply indices_below_more].
  apply (triple_bind _ (indices_below i));
    [apply preserves_call_catch; intros; assumption | | apply indices_below_more].
  intro text.
  apply (triple_bind _ (indices_below i));
    [apply preserves_call_catch; intros; assumption | | apply indices_below_more].
  intro hint.
  apply (triple_bind _ (indices_below i));
    [apply preserves_call_catch; intros; assumption | | apply indices_below_more].
  intro resourceId.
  apply (triple_bind _ (indices_below i));
    [unfold getRect_or_empty; apply preserves_call_catch; intros; assumption
    | | apply indices_below_more].
  intro bounds.
  apply triple_modify_heap. intros cs h [Hnodup Hall]. simpl.
  rewrite map_app. simpl. split.
  - apply (Permutation_NoDup (Permutation_cons_append _ _)).
    constructor; [|exact Hnodup].
    intro Hin. rewrite Forall_forall in Hall. specialize (Hall i Hin). lia.
  - apply Forall_app. split.
    + eapply Forall_impl; [|exact Hall]. intros k Hk. simpl in Hk. lia.
    + constructor; [lia | constructor].
Qed.

Lemma discover_queries_indices :
  triple (indices_below 0) (discover_queries driver)
         (fun s => exists j, indices_below j s).
Proof.
  unfold discover_queries.
  apply (triple_try_catch _ (fun s => exists j, indices_below j s));
    [| apply triple_ret | trivial].
  apply (triple_bind _ (indices_below 0));
    [apply discover_clickable_indices | | intros s Hs; now exists 0].
  intros _.
  apply (triple_bind _ (fun s => exists j, indices_below j s));
    [apply discover_inputs_indices | | trivial].
  intros _.
  apply (triple_bind _ (fun s => exists j, indices_below j s)); [ | | trivial].
  - intros s [j Hj]. exists j. now apply discover_texts_indices.
  - intros _ s [j Hj]. exists j. now apply discover_scrollable_indices.
Qed.

(** What holds of [elements] once the queries ran on a fresh object holds
    of the [elements] of the snapshot. *)
Lemma snapshot_elements (P : Elements -> Prop) (s : St) (screen : Screen) :
  (forall s1 : St,
      P (current (heap (snd (discover_queries driver
                               (snd (modify_heap (set_current (fun _ => no_elements))
                                                 s1))))))) ->
  fst (discoverElementsOnCurrentScreen driver s) = Normal (Some screen) ->
  P (elements screen).
Proof.
  intros HP Hrun.
  destruct (discover_snapshot driver s screen Hrun)
    as (s1 & info & name & shot & _ & _ & ->).
  simpl. apply HP.
Qed.

End Pass.
End MoreDiscoveryFacts.

(** X9.  A snapshot holds at most 20 text descriptors, each with non-empty
    text, and its [buttons] list is empty. *)
Theorem snapshot_texts_capped
        (W E : Type) (driver : Driver W E) (s : St W E (Heap E)) (screen : Screen) :
  fst (discoverElementsOnCurrentScreen driver s) = Normal (Some screen) ->
  List.length (texts (elements screen)) <= 20
  /\ Forall (fun t => truthy_str (Text.text t) = true) (texts (elements screen))
  /\ buttons (elements screen) = [].
Proof.
  apply (MoreDiscoveryFacts.snapshot_elements driver
           (fun els => List.length (texts els) <= 20
                       /\ Forall (fun t => truthy_str (Text.text t) = true) (texts els)
                       /\ buttons els = [])).
  intro s1. apply (MoreDiscoveryFacts.discover_queries_texts driver).
  repeat split; [apply Nat.le_0_l | constructor].
Qed.

Lemma snapshot_texts_capped_witness :
  List.length (texts (elements Mock.healthy_screen)) <= 20
  /\ Forall (fun t => truthy_str (Text.text t) = true)
            (texts (elements Mock.healthy_screen))
  /\ buttons (elements Mock.healthy_screen) = [].
Proof.
  apply (snapshot_texts_capped unit Mock.node (Mock.session Mock.healthy)
           Mock.discovery_start Mock.healthy_screen).
  vm_compute. reflexivity.
Defined.

(** X10.  The positional locator is a faithful name of the index: distinct
    indices give distinct locator strings.  The input descriptors of a
    snapshot have pairwise distinct indices, hence pairwise distinct
    positional locators. *)
Theorem positional_locators_distinct
        (W E : Type) (driver : Driver W E) (s : St W E (Heap E)) (screen : Screen) :
  fst (discoverElementsOnCurrentScreen driver s) = Normal (Some screen) ->
  (forall a b, xpath_edit_position a = xpath_edit_position b -> a = b)
  /\ NoDup (map Input.index (inputs (elements screen)))
  /\ NoDup (map (fun input => xpath_edit_position (Input.index input + 1))
                (inputs (elements screen))).
Proof.
  intro Hrun.
  split; [apply MoreDiscoveryFacts.xpath_edit_position_injective|].
  assert (Hnodup : NoDup (map Input.index (inputs (elements screen)))).
  { revert Hrun.
    apply (MoreDiscoveryFacts.snapshot_elements driver
             (fun els => NoDup (map Input.index (inputs els)))).
    intro s1.
    destruct (MoreDiscoveryFacts.discover_queries_indices driver
                (snd (modify_heap (set_current (fun _ => no_elements)) s1)))
      as (j & Hj & _); [|exact Hj].
    split; constructor. }
  split; [exact Hnodup|].
  rewrite <- (map_map Input.index (fun k => xpath_edit_position (k + 1))).
  apply Finite.Injective_map_NoDup; [|exact Hnodup].
  intros a b Heq. apply MoreDiscoveryFacts.xpath_edit_position_injective in Heq. lia.
Qed.

Lemma positional_locators_distinct_witness :
  NoDup (map (fun input => xpath_edit_position (Input.index input + 1))
             (inputs (elements Mock.healthy_screen))).
Proof.
  apply (positional_locators_distinct unit Mock.node (Mock.session Mock.healthy)
           Mock.discovery_start Mock.healthy_screen).
  vm_compute. reflexivity.
Defined.

(* ================================================================== *)
(** * Further properties: the exploration *)
(* ================================================================== *)

Module MoreExploreFacts.
Import Rules MoreRules DiscoveryFacts MoreDiscoveryFacts ExploreFacts.

Section Explore.
Context {W E : Type}.
Variable driver : Driver W E.
Local Abbreviation St := (Effects.St W E (Heap E)).
Local Abbreviation M := (Effects.M W E (Heap E)).

Lemma for_of_break_preserves_in {X} (I : St -> Prop) (xs : list X) (body : X -> M bool) :
  (forall x, In x xs -> preserves I (body x)) -> preserves I (for_of_break xs body).
Proof.
  induction xs as [|x xs IH]; intro Hbody; simpl.
  - apply preserves_ret.
  - apply preserves_bind; [apply Hbody; now left|].
    intros [|]; [apply preserves_ret|]. apply IH. intros y Hy. apply Hbody. now right.
Qed.

(** ** Properties of the call log that re-location and capture keep *)

Section Locate.
Variable I : list (Call E) -> Heap E -> Prop.
Hypothesis I_reading :
  forall c cs h, is_reading c = true -> I cs h -> I (cs ++ [c]) h.
Hypothesis I_lookup :
  forall selector cs h,
    startsWith "//" selector = true -> I cs h -> I (cs ++ [CFindOne selector]) h.
Hypothesis I_heap : forall (f : Heap E -> Heap E) cs h, I cs h -> I cs (f h).

Lemma locate_by_xpath_frame (selectors : list string) :
  preserves (lifted I) (locate_by_xpath driver selectors).
Proof.
  unfold locate_by_xpath. apply for_of_break_preserves_in.
  intros selector Hin. apply filter_In in Hin as [_ Hxpath].
  repeat preserves_step; intros.
  - now apply I_lookup.
  - now apply I_heap.
  - now apply I_reading.
Qed.

Lemma locate_fallback_frame (element : Clickable.t) :
  preserves (lifted I) (locate_fallback driver element).
Proof.
  unfold locate_fallback.
  apply preserves_bind; [apply preserves_get_heap|]. intro h.
  destruct (targetElement h); [apply preserves_ret|].
  repeat first [preserves_step | split_branch]; intros;
    first [now apply I_heap | now apply I_lookup].
Qed.

Lemma discover_frame_reading :
  preserves (lifted I) (discoverElementsOnCurrentScreen driver).
Proof.
  apply discover_reading; [exact I_reading|].
  intros f cs h. apply I_heap.
Qed.

Lemma locate_frame (element : Clickable.t) :
  preserves (lifted I)
    (bind (modify_heap (set_targetElement None))
       (fun _ => bind match Clickable.selectors element with
                      | [] => ret tt
                      | _ :: _ => locate_by_xpath driver (Clickable.selectors element)
                      end
                  (fun _ => locate_fallback driver element))).
Proof.
  apply preserves_bind;
    [apply preserves_modify_heap; intros; now apply I_heap | intros _].
  apply preserves_bind; [|intros _; apply locate_fallback_frame].
  destruct (Clickable.selectors element);
    [apply preserves_ret | apply locate_by_xpath_frame].
Qed.

(** When clicks and back navigation keep the property too, the whole
    exploration keeps it. *)
Hypothesis I_click : forall e cs h, I cs h -> I (cs ++ [CClick e]) h.
Hypothesis I_back : forall cs h, I cs h -> I (cs ++ [CBack]) h.

Lemma explore_element_frame (element : Clickable.t) :
  preserves (lifted I) (explore_element driver element).
Proof.
  unfold explore_element.
  destruct (truthy_str (Clickable.text element) || truthy (Clickable.contentDesc element));
    [|apply preserves_ret].
  apply preserves_try_catch; [|apply preserves_ret].
  apply preserves_bind;
    [apply preserves_modify_heap; intros; now apply I_heap | intros _].
  apply preserves_bind;
    [destruct (Clickable.selectors element);
       [apply preserves_ret | apply locate_by_xpath_frame]
    | intros _].
  apply preserves_bind; [apply locate_fallback_frame | intros _].
  unfold click_and_discover.
  apply preserves_bind; [apply preserves_get_heap | intro h].
  destruct (targetElement h) as [target|]; [|apply preserves_ret].
  apply preserves_try_catch; [|apply preserves_ret].
  apply preserves_bind;
    [apply preserves_call; intros; now apply I_reading | intros [|]];
    [|apply preserves_ret].
  apply preserves_bind; [apply preserves_call; intros; now apply I_click | intros _].
  apply preserves_bind; [apply preserves_wait | intros _].
  apply preserves_bind; [apply discover_frame_reading | intros newScreen].
  apply preserves_bind;
    [destruct newScreen;
       [apply preserves_modify_heap; intros; now apply I_heap | apply preserves_ret]
    | intros _].
  apply preserves_bind; [apply preserves_call; intros; now apply I_back | intros _].
  apply preserves_wait.
Qed.

Lemma exploreClickableElements_frame :
  preserves (lifted I) (exploreClickableElements driver).
Proof.
  unfold exploreClickableElements.
  apply preserves_bind; [apply discover_frame_reading | intros [mainScreen|]];
    [|apply preserves_ret].
  apply preserves_bind;
    [apply preserves_modify_heap; intros; now apply I_heap | intros _].
  apply preserves_for_of. intro element. apply explore_element_frame.
Qed.

End Locate.

(** ** Back navigation against clicks *)

Lemma count_calls_app (p : Call E -> bool) (a b : list (Call E)) :
  count_calls p (a ++ b) = count_calls p a + count_calls p b.
Proof. unfold count_calls. now rewrite filter_app, length_app. Qed.

Lemma balanced_call (cs0 : list (Call E)) ahead (c : Call E) cs (h : Heap E) :
  is_back c = false -> balanced cs0 ahead cs h -> balanced cs0 ahead (cs ++ [c]) h.
Proof.
  intros Hc (new & -> & Hle). exists (new ++ [c]). rewrite app_assoc.
  split; [reflexivity|]. rewrite !count_calls_app.
  unfold count_calls at 2 4. simpl. rewrite Hc. simpl.
  destruct (is_click c); simpl; lia.
Qed.

Lemma balanced_click (cs0 : list (Call E)) (e : E) cs (h : Heap E) :
  balanced cs0 false cs h -> balanced cs0 true (cs ++ [CClick e]) h.
Proof.
  intros (new & -> & Hle). exists (new ++ [CClick e]). rewrite app_assoc.
  split; [reflexivity|]. rewrite !count_calls_app.
  unfold count_calls at 2 4. simpl. lia.
Qed.

Lemma balanced_back (cs0 cs : list (Call E)) (h : Heap E) :
  balanced cs0 true cs h -> balanced cs0 false (cs ++ [CBack]) h.
Proof.
  intros (new & -> & Hle). exists (new ++ [CBack]). rewrite app_assoc.
  split; [reflexivity|]. rewrite !count_calls_app.
  unfold count_calls at 2 4. simpl. lia.
Qed.

Lemma balanced_relax (cs0 cs : list (Call E)) (h : Heap E) :
  balanced cs0 true cs h -> balanced cs0 false cs h.
Proof. intros (new & -> & Hle). exists new. split; [reflexivity | lia]. Qed.

Lemma discover_balanced (cs0 : list (Call E)) ahead :
  preserves (lifted (balanced cs0 ahead)) (discoverElementsOnCurrentScreen driver).
Proof.
  apply discover_reading.
  - intros c cs h Hc Hs.
    apply (balanced_call cs0 ahead c cs h); [now destruct c | exact Hs].
  - intros f cs h Hs. exact Hs.
Qed.

Lemma locate_balanced (cs0 : list (Call E)) (element : Clickable.t) :
  preserves (lifted (balanced cs0 false))
    (bind (modify_heap (set_targetElement None))
       (fun _ => bind match Clickable.selectors element with
                      | [] => ret tt
                      | _ :: _ => locate_by_xpath driver (Clickable.selectors element)
                      end
                  (fun _ => locate_fallback driver element))).
Proof.
  apply locate_frame.
  - intros c cs h Hc Hs.
    apply (balanced_call cs0 false c cs h); [now destruct c | exact Hs].
  - intros selector cs h _ Hs.
    apply (balanced_call cs0 false (CFindOne selector) cs h); [reflexivity | exact Hs].
  - intros f cs h Hs. exact Hs.
Qed.

Lemma click_and_discover_balanced (cs0 : list (Call E)) :
  preserves (lifted (balanced cs0 false)) (click_and_discover driver).
Proof.
  assert (Hrelax : forall s : St,
             lifted (balanced cs0 true) s -> lifted (balanced cs0 false) s)
    by (intros s Hs; apply (balanced_relax cs0 (calls s) (heap s)); exact Hs).
  unfold click_and_discover.
  apply preserves_bind; [apply preserves_get_heap | intro h].
  destruct (targetElement h) as [target|]; [|apply preserves_ret].
  apply preserves_try_catch; [|apply preserves_ret].
  apply preserves_bind;
    [apply preserves_call; intros cs h' Hs;
     apply (balanced_call cs0 false (CIsDisplayed target) cs h'); [reflexivity | exact Hs]
    | intros [|]];
    [|apply preserves_ret].
  apply (triple_bind _ (lifted (balanced cs0 true)));
    [apply triple_call; intros cs h' Hs; apply (balanced_click cs0 target cs h'); exact Hs
    | | exact Hrelax].
  intros _.
  apply (triple_bind _ (lifted (balanced cs0 true)));
    [apply preserves_wait | | exact Hrelax].
  intros _.
  apply (triple_bind _ (lifted (balanced cs0 true)));
    [apply discover_balanced | | exact Hrelax].
  intro newScreen.
  apply (triple_bind _ (lifted (balanced cs0 true))); [ | | exact Hrelax].
  - destruct newScreen;
      [apply preserves_modify_heap; intros; assumption | apply preserves_ret].
  - intros _.
    apply (triple_bind _ (lifted (balanced cs0 false)));
      [apply triple_call; intros cs h' Hs; apply (balanced_back cs0 cs h'); exact Hs
      | | trivial].
    intros _. apply preserves_wait.
Qed.

Lemma exploreClickableElements_balanced (cs0 : list (Call E)) :
  preserves (lifted (balanced cs0 false)) (exploreClickableElements driver).
Proof.
  unfold exploreClickableElements.
  apply preserves_bind; [apply discover_balanced | intros [mainScreen|]];
    [|apply preserves_ret].
  apply preserves_bind;
    [apply preserves_modify_heap; intros; assumption | intros _].
  apply preserves_for_of. intro element. unfold explore_element.
  destruct (truthy_str (Clickable.text element) || truthy (Clickable.contentDesc element));
    [|apply preserves_ret].
  apply preserves_try_catch; [|apply preserves_ret].
  pose proof (locate_balanced cs0 element) as Hlocate.
  intros s Hs. specialize (Hlocate s Hs).
  unfold bind in *.
  destruct (modify_heap (set_targetElement None) s) as [[[]|] s1]; [|exact Hlocate].
  destruct (match Clickable.selectors element with
            | [] => ret tt
            | _ :: _ => locate_by_xpath driver (Clickable.selectors element)
            end s1) as [[[]|] s2]; [|exact Hlocate].
  destruct (locate_fallback driver element s2) as [[[]|] s3]; [|exact Hlocate].
  simpl in Hlocate. now apply click_and_discover_balanced.
Qed.

End Explore.
End MoreExploreFacts.

(** X11.  Re-location is by XPath only: every single-node lookup the
    exploration issues has a selector that starts with two slashes; the
    [android=new UiSelector()] strings of a descriptor are never tried. *)
Theorem relocation_by_xpath_only
        (W E : Type) (driver : Driver W E) (s : St W E (Heap E)) :
  exists new,
    calls (snd (exploreClickableElements driver s)) = calls s ++ new
    /\ Forall (fun c => lookup_by_xpath c = true) new.
Proof.
  apply (MoreExploreFacts.exploreClickableElements_frame driver
           (fun cs _ => exists new,
                cs = calls s ++ new /\ Forall (fun c => lookup_by_xpath c = true) new)).
  - intros c cs h Hc (new & -> & Hall). exists (new ++ [c]). rewrite app_assoc.
    split; [reflexivity|]. apply Forall_app. split; [exact Hall|].
    constructor; [now destruct c | constructor].
  - intros selector cs h Hsel (new & -> & Hall). exists (new ++ [CFindOne selector]).
    rewrite app_assoc. split; [reflexivity|]. apply Forall_app. split; [exact Hall|].
    constructor; [exact Hsel | constructor].
  - intros f cs h Hs. exact Hs.
  - intros e cs h (new & -> & Hall). exists (new ++ [CClick e]). rewrite app_assoc.
    split; [reflexivity|]. apply Forall_app. split; [exact Hall|].
    constructor; [reflexivity | constructor].
  - intros cs h (new & -> & Hall). exists (new ++ [CBack]). rewrite app_assoc.
    split; [reflexivity|]. apply Forall_app. split; [exact Hall|].
    constructor; [reflexivity | constructor].
  - exists []. rewrite app_nil_r. split; [reflexivity | constructor].
Qed.

(** X12.  The exploration never navigates back more often than it clicked:
    among the calls of a run there are at most as many [back] calls as
    [click] calls. *)
Theorem back_only_after_click
        (W E : Type) (driver : Driver W E) (s : St W E (Heap E)) :
  exists new,
    calls (snd (exploreClickableElements driver s)) = calls s ++ new
    /\ count_calls (@is_back E) new <= count_calls (@is_click E) new.
Proof.
  destruct (MoreExploreFacts.exploreClickableElements_balanced driver (calls s) s)
    as (new & Hnew & Hle).
  - exists []. rewrite app_nil_r. split; [reflexivity | apply Nat.le_refl].
  - exists new. split; [exact Hnew | lia].
Qed.

(* ================================================================== *)
(** * Further properties: what the helpers touch *)
(* ================================================================== *)

Module FootprintFacts.
Import Rules MoreRules.

Section Footprint.
Context {W E H : Type}.
Local Abbreviation St := (Effects.St W E H).
Local Abbreviation M := (Effects.M W E H).
Variable P : Call E -> Prop.
Variable cs0 : list (Call E).
Variable h0 : H.

Lemma footprint_start (s : St) :
  calls s = cs0 -> heap s = h0 -> lifted (footprint P cs0 h0 0) s.
Proof.
  intros Hc Hh. split; [exact Hh|]. exists []. rewrite app_nil_r.
  repeat split; [exact Hc | apply Nat.le_refl | constructor].
Qed.

Lemma footprint_more (n m : nat) (s : St) :
  n <= m -> lifted (footprint P cs0 h0 n) s -> lifted (footprint P cs0 h0 m) s.
Proof.
  intros Hnm (Hh & new & Hnew & Hlen & Hall). split; [exact Hh|].
  exists new. repeat split; trivial. lia.
Qed.

Lemma footprint_step (n : nat) (c : Call E) (cs : list (Call E)) (h : H) :
  P c -> footprint P cs0 h0 n cs h -> footprint P cs0 h0 (S n) (cs ++ [c]) h.
Proof.
  intros Hc (Hh & new & -> & Hlen & Hall). split; [exact Hh|].
  exists (new ++ [c]). rewrite app_assoc. split; [reflexivity|].
  split; [rewrite length_app; simpl; lia|].
  apply Forall_app. split; [exact Hall | now constructor].
Qed.

Lemma footprint_call {A} (n : nat) (c : Call E) (op : W -> outcome A * W) :
  P c ->
  triple (lifted (footprint P cs0 h0 n)) (call c op : M A)
         (lifted (footprint P cs0 h0 (S n))).
Proof. intro Hc. apply triple_call. intros cs h. now apply footprint_step. Qed.

Lemma footprint_call_catch {A} (n : nat) (c : Call E) (op : W -> outcome A * W)
      (dflt : A) :
  P c ->
  triple (lifted (footprint P cs0 h0 n)) (call_catch c op dflt : M A)
         (lifted (footprint P cs0 h0 (S n))).
Proof. intro Hc. apply triple_call_catch. intros cs h. now apply footprint_step. Qed.

(** One more awaited call in a sequence bounded by [m]. *)
Lemma footprint_then {A B} (n m : nat) (first : M A) (rest : A -> M B) :
  triple (lifted (footprint P cs0 h0 n)) first (lifted (footprint P cs0 h0 (S n))) ->
  S n <= m ->
  (forall a, triple (lifted (footprint P cs0 h0 (S n))) (rest a)
                    (lifted (footprint P cs0 h0 m))) ->
  triple (lifted (footprint P cs0 h0 n)) (bind first rest)
         (lifted (footprint P cs0 h0 m)).
Proof.
  intros Hfirst Hle Hrest.
  apply (triple_bind _ (lifted (footprint P cs0 h0 (S n)))); trivial.
  intro s. now apply footprint_more.
Qed.

End Footprint.
End FootprintFacts.

Module HelperFacts.
Import Rules MoreRules FootprintFacts.

Lemma replace_colon_dot_spec (s : string) :
  free_of ":"%char (replace_colon_dot s) = true
  /\ free_of "."%char (replace_colon_dot s) = true
  /\ String.length (replace_colon_dot s) = String.length s.
Proof.
  induction s as [|c s (IH1 & IH2 & IH3)]; simpl; [now repeat split|].
  rewrite IH1, IH2, IH3.
  destruct (Ascii.eqb c ":"%char) eqn:Hcolon, (Ascii.eqb c "."%char) eqn:Hdot;
    simpl; rewrite ?Hcolon, ?Hdot; now repeat split.
Qed.

Section Helpers.
Context {W E : Type}.
Variable driver : Driver W E.

Lemma getElementInfo_footprint (element : E)
      (s : St W E ElementFinder.FoundElements) :
  lifted (footprint (getter_of element) (calls s) (heap s) 7)
         (snd (ElementFinder.getElementInfo driver element s)).
Proof.
  cut (triple (lifted (footprint (getter_of element) (calls s) (heap s) 0))
              (ElementFinder.getElementInfo driver element)
              (lifted (footprint (getter_of element) (calls s) (heap s) 7)));
    [intro Htriple; apply Htriple; now apply footprint_start|].
  unfold ElementFinder.getElementInfo.
  apply (triple_try_catch _ (lifted (footprint (getter_of element) (calls s) (heap s) 7)));
    [| apply triple_ret | trivial].
  repeat (apply footprint_then;
          [apply footprint_call_catch; reflexivity | lia | intros ?]).
  intros s' Hs'. revert Hs'. apply footprint_more. lia.
Qed.

Lemma getCurrentScreenInfo_footprint (s : St W E (Heap E)) :
  lifted (footprint (@info_call E) (calls s) (heap s) 4)
         (snd (getCurrentScreenInfo driver s)).
Proof.
  cut (triple (lifted (footprint (@info_call E) (calls s) (heap s) 0))
              (getCurrentScreenInfo driver)
              (lifted (footprint (@info_call E) (calls s) (heap s) 4)));
    [intro Htriple; apply Htriple; now apply footprint_start|].
  unfold getCurrentScreenInfo.
  apply (triple_try_catch _ (lifted (footprint (@info_call E) (calls s) (heap s) 4)));
    [| apply triple_ret | trivial].
  repeat (apply footprint_then;
          [apply footprint_call; exact Logic.I | lia | intros ?]).
  apply (triple_bind _ (lifted (footprint (@info_call E) (calls s) (heap s) 4)));
    [apply preserves_toISOString | intros ?; apply triple_ret | trivial].
Qed.

End Helpers.
End HelperFacts.

(** X13.  [getElementInfo] never raises, leaves [foundElements] as it
    is, and issues at most seven session calls, each of them a getter of
    the node it was given. *)
Theorem getElementInfo_reads_one_node
        (W E : Type) (driver : Driver W E) (element : E)
        (s : St W E ElementFinder.FoundElements) :
  let run := ElementFinder.getElementInfo driver element s in
  (exists info, fst run = Normal info)
  /\ heap (snd run) = heap s
  /\ exists new,
      calls (snd run) = calls s ++ new
      /\ List.length new <= 7
      /\ Forall (getter_of element) new.
Proof.
  intro run. split; [apply FinderFacts.getElementInfo_returns|].
  apply (HelperFacts.getElementInfo_footprint driver element s).
Qed.

(** X14.  When the screen information cannot be obtained, the discovery
    pass returns null and an exploration started there ends at once: no
    snapshot is recorded, and the only session calls are the requests for
    the screen information, at most four. *)
Theorem exploration_without_screen_information
        (W E : Type) (driver : Driver W E) (s : St W E (Heap E)) :
  fst (getCurrentScreenInfo driver s) = Normal None ->
  let after := snd (getCurrentScreenInfo driver s) in
  discoverElementsOnCurrentScreen driver s = (Normal None, after)
  /\ exploreClickableElements driver s = (Normal tt, after)
  /\ heap after = heap s
  /\ exists new,
      calls after = calls s ++ new
      /\ List.length new <= 4
      /\ Forall (@info_call E) new.
Proof.
  intros Hnone after.
  assert (Hpass : discoverElementsOnCurrentScreen driver s = (Normal None, after)).
  { apply DiscoveryFacts.discover_none. subst after.
    destruct (getCurrentScreenInfo driver s) as [r s1]. simpl in *. now subst r. }
  split; [exact Hpass|]. split.
  - rewrite ExploreFacts.exploreClickableElements_run, Hpass. reflexivity.
  - apply (HelperFacts.getCurrentScreenInfo_footprint driver s).
Qed.

Lemma exploration_without_screen_information_witness :
  exploreClickableElements MockHost.no_activity Mock.discovery_start
  = (Normal tt,
     {| world := tt; calls := [CGetCurrentActivity];
        heap := heap Mock.discovery_start |}).
Proof.
  exact (proj1 (proj2 (exploration_without_screen_information unit Mock.node
                         MockHost.no_activity Mock.discovery_start eq_refl))).
Defined.

(** X15.  [takeScreenshot] asks for one file, named after the given name
    and the current time with every colon and dot replaced, so the time
    part has neither; it returns that file name when the session saved the
    file and null when it did not, and never raises. *)
Theorem screenshot_file_name
        (W E : Type) (driver : Driver W E) (name : string) (s : St W E (Heap E)) :
  let stamp := replace_colon_dot (now driver (world s)) in
  let filename := (name ++ "_" ++ stamp ++ ".png")%string in
  let path := ("./screenshots/" ++ filename)%string in
  let run := takeScreenshot driver name s in
  free_of ":"%char stamp = true
  /\ free_of "."%char stamp = true
  /\ String.length stamp = String.length (now driver (world s))
  /\ calls (snd run) = calls s ++ [CSaveScreenshot path]
  /\ heap (snd run) = heap s
  /\ fst run = match fst (saveScreenshot driver path (world s)) with
               | Resolved _ => Normal (Some filename)
               | Rejected | Thrown => Normal None
               end.
Proof.
  intros stamp filename path run.
  destruct (HelperFacts.replace_colon_dot_spec (now driver (world s)))
    as (Hcolon & Hdot & Hlen).
  split; [exact Hcolon|]. split; [exact Hdot|]. split; [exact Hlen|].
  subst run. unfold takeScreenshot, try_catch, bind, toISOString, call, ret.
  fold stamp. fold filename. fold path. cbn [world calls heap].
  destruct (saveScreenshot driver path (world s)) as [[[]| |] w]; now repeat split.
Qed.

(* ================================================================== *)
(** * Further properties: the two scripts *)
(* ================================================================== *)

Module RunFacts.
Import Rules MoreRules Runs.

Section Scripts.
Context {W E I : Type}.
Variable host : Host W.
Variable driver : Driver W E.
Local Abbreviation St := (Effects.St W E (Run I)).
Local Abbreviation M := (Effects.M W E (Run I)).

(** ** Rules for the script combinators *)

Lemma triple_host_call {A} (P Q : list (Call E) -> Run I -> Prop) (c : HostCall)
      (op : W -> outcome A * W) :
  (forall cs r, P cs r -> Q cs (log_host c r)) ->
  triple (lifted P) (host_call c op : M A) (lifted Q).
Proof.
  intros HP s Hs. unfold host_call, lifted in *.
  destruct (op (world s)) as [[a| |] w]; simpl; auto.
Qed.

Lemma preserves_zoom {A} (P : list (Call E) -> Run I -> Prop)
      (m : Effects.M W E I A) :
  (forall cs cs' r i, P cs r -> P cs' (set_instance i r)) ->
  preserves (lifted P) (zoom m).
Proof.
  intros HP s Hs. unfold zoom, lifted in *.
  destruct (m _) as [r s1]. simpl. now apply (HP (calls s)).
Qed.

Lemma triple_try_finally {A} (P R Q : St -> Prop) (m : M A) (f : M unit) :
  triple P m R -> triple R f Q -> triple P (try_finally m f) Q.
Proof.
  intros Hm Hf s Hs. unfold try_finally. specialize (Hm s Hs).
  destruct (m s) as [r s1]. simpl in Hm. specialize (Hf s1 Hm).
  destruct (f s1) as [[[]|] s2]; exact Hf.
Qed.

Lemma returns_try_finally {A} (m : M A) (f : M unit) :
  returns m -> returns f -> returns (try_finally m f).
Proof.
  intros Hm Hf s. unfold try_finally. destruct (Hm s) as [a Ha].
  destruct (m s) as [r s1]. simpl in Ha. subst r.
  destruct (Hf s1) as [[] Hu]. destruct (f s1) as [r2 s2]. simpl in Hu. subst r2.
  now exists a.
Qed.

Lemma returns_host_call {A} (c : HostCall) (op : W -> outcome A * W) :
  (forall w, exists a, fst (op w) = Resolved a) -> returns (host_call c op : M A).
Proof.
  intros Hop s. unfold host_call. destruct (Hop (world s)) as [a Ha].
  destruct (op (world s)) as [r w]. simpl in Ha. subst r. now exists a.
Qed.

Lemma returns_ensure_directories :
  (forall dir w, exists a, fst (mkdirSync host dir w) = Resolved a) ->
  returns (@ensure_directories W E host I).
Proof.
  intro Hmkdir. unfold ensure_directories. apply returns_for_of. intros dir s.
  destruct (existsSync host dir (world s)); [now exists tt|].
  now apply returns_host_call.
Qed.

Lemma returns_release_session :
  (forall w, exists a, fst (deleteSession host w) = Resolved a) ->
  returns (@release_session W E host I).
Proof.
  intro Hdelete. unfold release_session.
  apply returns_bind; [apply returns_get_heap | intro r].
  destruct (driver_assigned r); [now apply returns_host_call | apply returns_ret].
Qed.

(** ** The session is released when, and only when, it was created *)

Variable hc0 : list HostCall.

Lemma count_host_app (p : HostCall -> bool) (a b : list HostCall) :
  count_host p (a ++ b) = count_host p a + count_host p b.
Proof. unfold count_host. now rewrite filter_app, length_app. Qed.

Lemma session_state_log assigned remotes (c : HostCall) (cs : list (Call E)) (r : Run I) :
  is_delete c = false ->
  session_state hc0 assigned remotes cs r ->
  session_state hc0 assigned (remotes + (if is_remote c then 1 else 0)) cs (log_host c r).
Proof.
  intros Hc (Ha & new & Hnew & Hdel & Hrem). split; [exact Ha|].
  exists (new ++ [c]). simpl. rewrite Hnew, app_assoc. split; [reflexivity|].
  rewrite !count_host_app, Hdel, Hrem. unfold count_host. simpl. rewrite Hc.
  split; [reflexivity|]. now destruct (is_remote c).
Qed.

Lemma ensure_directories_state :
  preserves (lifted (session_state (E := E) hc0 false 0)) (@ensure_directories W E host I).
Proof.
  unfold ensure_directories. apply preserves_for_of. intros dir s Hs.
  destruct (existsSync host dir (world s)); [exact Hs|].
  revert s Hs. apply triple_host_call. intros cs r Hr.
  apply (session_state_log false 0 (HMkdir dir) cs r eq_refl Hr).
Qed.

Lemma connect_outcome (s : St) :
  lifted (session_state (E := E) hc0 false 0) s ->
  match fst (@connect W E host driver I s) with
  | Normal _ => lifted (session_state (E := E) hc0 true 1) (snd (@connect W E host driver I s))
  | Raised => lifted (session_state (E := E) hc0 false 1) (snd (@connect W E host driver I s))
  end.
Proof.
  intros Hs.
  assert (Hlogged : forall w,
             lifted (session_state (E := E) hc0 false 1)
                    ({| world := w; calls := calls s;
                        heap := log_host HRemote (heap s) |} : St))
    by (intro w; apply (session_state_log false 0 HRemote (calls s) (heap s) eq_refl Hs)).
  unfold connect, bind, host_call, modify_heap, wait.
  destruct (remote host (world s)) as [[[]| |] w]; simpl; try apply Hlogged.
  destruct (Hlogged w) as (_ & Hnew). now split.
Qed.

Lemma release_session_concluded (s : St) :
  lifted (session_state (E := E) hc0 false 0) s
  \/ lifted (session_state (E := E) hc0 false 1) s
  \/ lifted (session_state (E := E) hc0 true 1) s ->
  concluded hc0 (heap (snd (@release_session W E host I s))).
Proof.
  intro Hs. unfold lifted, session_state in Hs.
  unfold release_session, bind, get_heap.
  destruct (driver_assigned (heap s)) eqn:Hassigned.
  - destruct Hs as [(Ha & _) | [(Ha & _) | (_ & new & Hnew & Hdel & Hrem)]];
      try congruence.
    assert (Hheap : heap (snd (host_call (E := E) HDeleteSession (deleteSession host) s))
                    = log_host HDeleteSession (heap s)).
    { unfold host_call. now destruct (deleteSession host (world s)) as [[[]| |] w]. }
    rewrite Hheap. exists (new ++ [HDeleteSession]). simpl.
    rewrite Hassigned, Hnew, app_assoc. split; [reflexivity|].
    split; [rewrite count_host_app, Hrem; unfold count_host; simpl; lia|].
    exists new. now repeat split.
  - destruct Hs as [(_ & new & Hnew & Hdel & Hrem)
                   | [(_ & new & Hnew & Hdel & Hrem) | (Ha & _)]];
      try congruence;
      exists new; simpl; rewrite Hassigned; repeat split; trivial; lia.
Qed.

(** The skeleton the two scripts share, around what they do once
    connected. *)
Lemma script_concluded {A} (rest : M (option A)) (s : St) :
  preserves (lifted (session_state (E := E) hc0 true 1)) rest ->
  driver_assigned (heap s) = false ->
  host_calls (heap s) = hc0 ->
  concluded hc0
    (heap (snd (bind (@ensure_directories W E host I)
                  (fun _ => bind (modify_heap (assign_driver false))
                     (fun _ => try_finally
                                 (try_catch (bind (@connect W E host driver I) (fun _ => rest))
                                            (ret None))
                                 (@release_session W E host I))) s))).
Proof.
  intros Hrest Hassigned Hcalls.
  assert (Hstart : lifted (session_state (E := E) hc0 false 0) s).
  { split; [exact Hassigned|]. exists []. rewrite app_nil_r. now repeat split. }
  assert (Hquiet : forall s' : St,
             lifted (session_state (E := E) hc0 false 0) s' -> concluded hc0 (heap s')).
  { intros s' (Ha & new & Hnew & Hdel & Hrem). exists new. rewrite Ha.
    repeat split; trivial. lia. }
  clear Hassigned Hcalls. revert s Hstart.
  change (triple (lifted (session_state (E := E) hc0 false 0))
            (bind (@ensure_directories W E host I)
               (fun _ => bind (modify_heap (assign_driver false))
                  (fun _ => try_finally
                              (try_catch (bind (@connect W E host driver I) (fun _ => rest))
                                         (ret None))
                              (@release_session W E host I))))
            (fun s' => concluded hc0 (heap s'))).
  apply (triple_bind _ (lifted (session_state (E := E) hc0 false 0)));
    [apply ensure_directories_state | intros _ | exact Hquiet].
  apply (triple_bind _ (lifted (session_state (E := E) hc0 false 0)));
    [ | intros _ | exact Hquiet].
  { apply triple_modify_heap. intros cs r (_ & Hnew). now split. }
  apply (triple_try_finally _
           (fun s' => lifted (session_state (E := E) hc0 false 0) s'
                      \/ lifted (session_state (E := E) hc0 false 1) s'
                      \/ lifted (session_state (E := E) hc0 true 1) s')).
  - apply (triple_try_catch _
             (fun s' => lifted (session_state (E := E) hc0 false 1) s'
                        \/ lifted (session_state (E := E) hc0 true 1) s'));
      [| intros s' Hs'; now right | intros s' Hs'; now right].
    intros s' Hs'. pose proof (connect_outcome s' Hs') as Hconnect.
    unfold bind. destruct (@connect W E host driver I s') as [[[]|] s1]; simpl in *.
    + right. now apply Hrest.
    + now left.
  - intros s' Hs'. now apply release_session_concluded.
Qed.

End Scripts.
End RunFacts.

Module ScriptFacts.
Import Rules MoreRules Runs RunFacts.

Section Scripts.
Context {W E : Type}.
Variable host : Host W.
Variable driver : Driver W E.
Variable stringify_finder : FinderResults -> string.
Variable stringify_deep : DeepResults -> string.

(** A property of the script's own variables and host calls is kept by
    everything that only talks to the session. *)
Lemma read_appInfo_frame {I} (P : list (Call E) -> Run I -> Prop) :
  (forall c cs r, P cs r -> P (cs ++ [c]) r) ->
  preserves (lifted P) (@read_appInfo W E driver I).
Proof.
  intro Hcall. unfold read_appInfo.
  repeat preserves_step; intros; now apply Hcall.
Qed.

Ltac connected hc0 :=
  repeat first
    [ preserves_step
    | apply preserves_zoom; intros cs cs' r i (Ha & Hnew); now split
    | apply read_appInfo_frame ];
  try (intros; assumption);
  try (apply triple_host_call; intros cs r Hr;
       match goal with
       | |- session_state _ _ _ _ (log_host ?c _) =>
           apply (session_state_log hc0 true 1 c cs r eq_refl Hr)
       end);
  try (intros cs r (Ha & Hnew); now split).

Lemma runElementFinder_concluded (s : St W E (Run ElementFinder.FoundElements)) :
  driver_assigned (heap s) = false ->
  concluded (host_calls (heap s))
            (heap (snd (runElementFinder host driver stringify_finder s))).
Proof.
  intro Hassigned. unfold runElementFinder.
  apply (script_concluded host driver (host_calls (heap s))); trivial.
  connected (host_calls (heap s)).
Qed.

Lemma runDeepInspection_concluded (s : St W E (Run (Heap E))) :
  driver_assigned (heap s) = false ->
  concluded (host_calls (heap s))
            (heap (snd (runDeepInspection host driver stringify_deep s))).
Proof.
  intro Hassigned. unfold runDeepInspection.
  apply (script_concluded host driver (host_calls (heap s))); trivial.
  connected (host_calls (heap s)).
Qed.

(** The scripts raise only through [mkdirSync] and [deleteSession]. *)
Lemma script_returns {I A} (rest : Effects.M W E (Run I) (option A)) :
  (forall dir w, exists a, fst (mkdirSync host dir w) = Resolved a) ->
  (forall w, exists a, fst (deleteSession host w) = Resolved a) ->
  returns (bind (@ensure_directories W E host I)
             (fun _ => bind (modify_heap (assign_driver false))
                (fun _ => try_finally
                            (try_catch (bind (@connect W E host driver I) (fun _ => rest))
                                       (ret None))
                            (@release_session W E host I)))).
Proof.
  intros Hmkdir Hdelete.
  apply returns_bind; [now apply returns_ensure_directories | intros _].
  apply returns_bind; [apply returns_modify_heap | intros _].
  apply returns_try_finally; [|now apply returns_release_session].
  apply returns_try_catch, returns_ret.
Qed.

End Scripts.
End ScriptFacts.

(** X16.  [runDeepInspection] releases the session it created: started
    with [driver] unassigned, it calls [remote] at most once; when [driver]
    ended up assigned, [remote] was called and the one [deleteSession] is
    the last host call, whatever failed in between; when [driver] was never
    assigned, [deleteSession] is not called. *)
Theorem deep_inspection_releases_session
        (W E : Type) (host : Runs.Host W) (driver : Driver W E)
        (stringify : Runs.DeepResults -> string)
        (s : St W E (Runs.Run (Heap E))) :
  Runs.driver_assigned (heap s) = false ->
  concluded (Runs.host_calls (heap s))
            (heap (snd (Runs.runDeepInspection host driver stringify s))).
Proof. apply ScriptFacts.runDeepInspection_concluded. Qed.

Lemma deep_inspection_releases_session_witness :
  Runs.host_calls
    (heap (snd (Runs.runDeepInspection (MockHost.host MockHost.sound)
                  (Mock.session Mock.healthy) MockHost.stringify_deep
                  (MockHost.script_start (Runs.new_discovery Mock.node)))))
  = [Runs.HMkdir "screenshots"; Runs.HMkdir "test-results"; Runs.HRemote;
     Runs.HWriteFile "./test-results/deep_inspection.json" "2024-01-01T00:00:00.000Z";
     Runs.HDeleteSession]
  /\ concluded []
       (heap (snd (Runs.runDeepInspection (MockHost.host MockHost.sound)
                     (Mock.session Mock.healthy) MockHost.stringify_deep
                     (MockHost.script_start (Runs.new_discovery Mock.node))))).
Proof.
  split; [vm_compute; reflexivity|].
  apply (deep_inspection_releases_session unit Mock.node (MockHost.host MockHost.sound)
           (Mock.session Mock.healthy) MockHost.stringify_deep
           (MockHost.script_start (Runs.new_discovery Mock.node)) eq_refl).
Defined.

(** X17.  [runElementFinder] releases the session it created, in the same
    sense: at most one [remote]; [deleteSession] exactly once and last when
    [driver] was assigned, not at all otherwise. *)
Theorem element_finder_releases_session
        (W E : Type) (host : Runs.Host W) (driver : Driver W E)
        (stringify : Runs.FinderResults -> string)
        (s : St W E (Runs.Run ElementFinder.FoundElements)) :
  Runs.driver_assigned (heap s) = false ->
  concluded (Runs.host_calls (heap s))
            (heap (snd (Runs.runElementFinder host driver stringify s))).
Proof. apply ScriptFacts.runElementFinder_concluded. Qed.

Lemma element_finder_releases_session_witness :
  Runs.host_calls
    (heap (snd (Runs.runElementFinder (MockHost.host MockHost.sound)
                  (Mock.session Mock.textview_query_rejects) MockHost.stringify_finder
                  (MockHost.script_start ElementFinder.no_elements))))
  = [Runs.HMkdir "screenshots"; Runs.HMkdir "test-results"; Runs.HRemote;
     Runs.HDeleteSession]
  /\ concluded []
       (heap (snd (Runs.runElementFinder (MockHost.host MockHost.sound)
                     (Mock.session Mock.textview_query_rejects)
                     MockHost.stringify_finder
                     (MockHost.script_start ElementFinder.no_elements)))).
Proof.
  split; [vm_compute; reflexivity|].
  apply (element_finder_releases_session unit Mock.node (MockHost.host MockHost.sound)
           (Mock.session Mock.textview_query_rejects) MockHost.stringify_finder
           (MockHost.script_start ElementFinder.no_elements) eq_refl).
Defined.

(** X18.  The two scripts raise only through the host: when [mkdirSync]
    and [deleteSession] always succeed, both complete normally, whatever
    the session does and whether or not the connection or the report
    succeeds. *)
Theorem scripts_return_when_host_is_sound
        (W E : Type) (host : Runs.Host W) (driver : Driver W E)
        (stringify_finder : Runs.FinderResults -> string)
        (stringify_deep : Runs.DeepResults -> string)
        (finder : St W E (Runs.Run ElementFinder.FoundElements))
        (deep : St W E (Runs.Run (Heap E))) :
  (forall dir w, exists a, fst (Runs.mkdirSync host dir w) = Resolved a) ->
  (forall w, exists a, fst (Runs.deleteSession host w) = Resolved a) ->
  (exists results,
      fst (Runs.runElementFinder host driver stringify_finder finder) = Normal results)
  /\ (exists results,
        fst (Runs.runDeepInspection host driver stringify_deep deep) = Normal results).
Proof.
  intros Hmkdir Hdelete. split.
  - unfold Runs.runElementFinder. now apply ScriptFacts.script_returns.
  - unfold Runs.runDeepInspection. now apply ScriptFacts.script_returns.
Qed.

Lemma scripts_return_when_host_is_sound_witness :
  (exists results,
      fst (Runs.runElementFinder (MockHost.host MockHost.sound)
             (Mock.session Mock.click_fails) MockHost.stringify_finder
             (MockHost.script_start ElementFinder.no_elements)) = Normal results)
  /\ (exists results,
        fst (Runs.runDeepInspection (MockHost.host MockHost.sound)
               (Mock.session Mock.click_fails) MockHost.stringify_deep
               (MockHost.script_start (Runs.new_discovery Mock.node))) = Normal results).
Proof.
  apply (scripts_return_when_host_is_sound unit Mock.node (MockHost.host MockHost.sound)
           (Mock.session Mock.click_fails)).
  - intros dir w. now exists tt.
  - intros w. now exists tt.
Defined.

Module ScriptPaths.
Import Rules MoreRules Runs RunFacts.

Section Paths.
Context {W E I : Type}.
Variable host : Host W.
Variable driver : Driver W E.
Local Abbreviation St := (Effects.St W E (Run I)).
Local Abbreviation M := (Effects.M W E (Run I)).

Lemma bind_raised {A B} (m : M A) (f : A -> M B) (s : St) :
  fst (m s) = Raised -> bind m f s = (Raised, snd (m s)).
Proof. intro Hm. unfold bind. destruct (m s) as [r s1]. simpl in Hm. now subst r. Qed.

Lemma bind_normal {A B} (m : M A) (f : A -> M B) (s : St) (a : A) :
  fst (m s) = Normal a -> bind m f s = f a (snd (m s)).
Proof. intro Hm. unfold bind. destruct (m s) as [r s1]. simpl in Hm. now subst r. Qed.

(** What a method of the instance does, seen from the script. *)
Lemma zoom_spec {A} (m : Effects.M W E I A) (s : St) :
  let inner := m {| world := world s; calls := calls s; heap := instance (heap s) |} in
  fst (zoom m s) = fst inner
  /\ calls (snd (zoom m s)) = calls (snd inner)
  /\ instance (heap (snd (zoom m s))) = heap (snd inner)
  /\ driver_assigned (heap (snd (zoom m s))) = driver_assigned (heap s)
  /\ host_calls (heap (snd (zoom m s))) = host_calls (heap s).
Proof. unfold zoom. destruct (m _) as [r s1]. now repeat split. Qed.

(** The directories step touches the file system only. *)
Lemma ensure_directories_spec (s : St) :
  let after := snd (@ensure_directories W E host I s) in
  calls after = calls s
  /\ instance (heap after) = instance (heap s)
  /\ driver_assigned (heap after) = driver_assigned (heap s)
  /\ exists dirs, host_calls (heap after) = host_calls (heap s) ++ dirs
                  /\ Forall (fun c => is_mkdir c = true) dirs.
Proof.
  cut (preserves
         (lifted (fun cs (r : Run I) =>
                    cs = calls s /\ instance r = instance (heap s)
                    /\ driver_assigned r = driver_assigned (heap s)
                    /\ exists dirs, host_calls r = host_calls (heap s) ++ dirs
                                    /\ Forall (fun c => is_mkdir c = true) dirs))
         (@ensure_directories W E host I)).
  { intro Hkeep. apply Hkeep. repeat split.
    exists []. rewrite app_nil_r. now split. }
  unfold ensure_directories. apply preserves_for_of. intros dir s' Hs'.
  destruct (existsSync host dir (world s')); [exact Hs'|].
  revert s' Hs'. apply triple_host_call.
  intros cs r (Hcs & Hi & Ha & dirs & Hdirs & Hall). repeat split; trivial.
  exists (dirs ++ [HMkdir dir]). simpl. rewrite Hdirs, app_assoc.
  split; [reflexivity|]. apply Forall_app. split; [exact Hall | now constructor].
Qed.

Lemma connect_unreachable (s : St) :
  fails (remote host) ->
  fst (@connect W E host driver I s) = Raised
  /\ calls (snd (@connect W E host driver I s)) = calls s
  /\ heap (snd (@connect W E host driver I s)) = log_host HRemote (heap s).
Proof.
  intro Hfails. unfold connect, bind, host_call.
  destruct (Hfails (world s)) as [Hr | Hr];
    destruct (remote host (world s)) as [r w]; simpl in Hr; subst r; now repeat split.
Qed.

(** With no server to connect to, a script reports nothing. *)
Lemma script_unreachable {A} (rest : M (option A)) (s : St) :
  fails (remote host) ->
  (forall dir w, exists a, fst (mkdirSync host dir w) = Resolved a) ->
  let run := bind (@ensure_directories W E host I)
               (fun _ => bind (modify_heap (assign_driver false))
                  (fun _ => try_finally
                              (try_catch (bind (@connect W E host driver I) (fun _ => rest))
                                         (ret None))
                              (@release_session W E host I))) s in
  fst run = Normal None
  /\ calls (snd run) = calls s
  /\ instance (heap (snd run)) = instance (heap s)
  /\ driver_assigned (heap (snd run)) = false
  /\ exists dirs, host_calls (heap (snd run)) = host_calls (heap s) ++ dirs ++ [HRemote]
                  /\ Forall (fun c => is_mkdir c = true) dirs.
Proof.
  intros Hfails Hmkdir run.
  destruct (ensure_directories_spec s) as (Hcalls & Hinstance & _ & dirs & Hdirs & Hall).
  set (s1 := snd (@ensure_directories W E host I s)) in *.
  set (s2 := {| world := world s1; calls := calls s1;
                heap := assign_driver false (heap s1) |} : St).
  destruct (connect_unreachable s2 Hfails) as (Hraised & Hcalls3 & Hheap3).
  set (s3 := snd (@connect W E host driver I s2)) in *.
  assert (Hrun : run = (Normal None, s3)).
  { subst run.
    destruct (bind_returns (@ensure_directories W E host I)
                (fun _ => bind (modify_heap (assign_driver false))
                   (fun _ => try_finally
                               (try_catch (bind (@connect W E host driver I)
                                                (fun _ => rest))
                                          (ret None))
                               (@release_session W E host I)))
                s (returns_ensure_directories host Hmkdir)) as ([] & _ & ->).
    fold s1. unfold bind at 1. cbn [modify_heap]. fold s2.
    unfold try_finally, try_catch.
    rewrite (bind_raised _ _ s2 Hraised). fold s3. cbn [ret].
    unfold release_session, bind, get_heap. rewrite Hheap3. reflexivity. }
  rewrite Hrun. cbn [fst snd]. rewrite Hcalls3, Hheap3. cbn.
  rewrite Hdirs, <- app_assoc.
  repeat split; trivial. now exists dirs.
Qed.

End Paths.
End ScriptPaths.

(** X19.  With no server to connect to, both scripts report nothing: when
    [remote] fails and the directories can be made, the script returns
    without results, issues no session call, leaves its instance alone,
    and its host calls are directory creations followed by the one
    [remote]: nothing is written and no session is released. *)
Theorem unreachable_server_reports_nothing
        (W E : Type) (host : Runs.Host W) (driver : Driver W E)
        (stringify_finder : Runs.FinderResults -> string)
        (stringify_deep : Runs.DeepResults -> string)
        (finder : St W E (Runs.Run ElementFinder.FoundElements))
        (deep : St W E (Runs.Run (Heap E))) :
  fails (Runs.remote host) ->
  (forall dir w, exists a, fst (Runs.mkdirSync host dir w) = Resolved a) ->
  let finder_run := Runs.runElementFinder host driver stringify_finder finder in
  let deep_run := Runs.runDeepInspection host driver stringify_deep deep in
  (fst finder_run = Normal None
   /\ calls (snd finder_run) = calls finder
   /\ Runs.instance (heap (snd finder_run)) = Runs.instance (heap finder)
   /\ exists dirs,
       Runs.host_calls (heap (snd finder_run))
       = Runs.host_calls (heap finder) ++ dirs ++ [Runs.HRemote]
       /\ Forall (fun c => is_mkdir c = true) dirs)
  /\ (fst deep_run = Normal None
      /\ calls (snd deep_run) = calls deep
      /\ Runs.instance (heap (snd deep_run)) = Runs.instance (heap deep)
      /\ exists dirs,
          Runs.host_calls (heap (snd deep_run))
          = Runs.host_calls (heap deep) ++ dirs ++ [Runs.HRemote]
          /\ Forall (fun c => is_mkdir c = true) dirs).
Proof.
  intros Hfails Hmkdir finder_run deep_run. split.
  - subst finder_run. unfold Runs.runElementFinder.
    epose proof (ScriptPaths.script_unreachable host driver _ finder Hfails Hmkdir)
      as Hpath.
    cbv zeta in Hpath. destruct Hpath as (Hnone & Hcalls & Hinstance & _ & Hhost).
    split; [exact Hnone|]. split; [exact Hcalls|]. split; [exact Hinstance|].
    exact Hhost.
  - subst deep_run. unfold Runs.runDeepInspection.
    epose proof (ScriptPaths.script_unreachable host driver _ deep Hfails Hmkdir)
      as Hpath.
    cbv zeta in Hpath. destruct Hpath as (Hnone & Hcalls & Hinstance & _ & Hhost).
    split; [exact Hnone|]. split; [exact Hcalls|]. split; [exact Hinstance|].
    exact Hhost.
Qed.

Lemma unreachable_server_reports_nothing_witness :
  Runs.runDeepInspection (MockHost.host MockHost.unreachable_server)
    (Mock.session Mock.healthy) MockHost.stringify_deep
    (MockHost.script_start (Runs.new_discovery Mock.node))
  = (Normal None,
     {| world := tt; calls := [];
        heap := {| Runs.driver_assigned := false;
                   Runs.instance := Runs.new_discovery Mock.node;
                   Runs.host_calls := [Runs.HRemote] |} |})
  /\ fst (Runs.runElementFinder (MockHost.host MockHost.unreachable_server)
            (Mock.session Mock.healthy) MockHost.stringify_finder
            (MockHost.script_start ElementFinder.no_elements)) = Normal None.
Proof.
  split; [vm_compute; reflexivity|].
  apply (unreachable_server_reports_nothing unit Mock.node
           (MockHost.host MockHost.unreachable_server) (Mock.session Mock.healthy)
           MockHost.stringify_finder MockHost.stringify_deep
           (MockHost.script_start ElementFinder.no_elements)
           (MockHost.script_start (Runs.new_discovery Mock.node))).
  - intro w. left. reflexivity.
  - intros dir w. now exists tt.
Defined.

Module ReportFacts.
Import Rules MoreRules Runs RunFacts ScriptPaths.

Section Generic.
Context {W E H : Type}.
Local Abbreviation St := (Effects.St W E H).
Local Abbreviation M := (Effects.M W E H).

Lemma bind_stops {A B} (m : M A) (f : A -> M B) (s : St) :
  fst (m s) = Raised -> bind m f s = (Raised, snd (m s)).
Proof. intro Hm. unfold bind. destruct (m s) as [r s1]. simpl in Hm. now subst r. Qed.

(** A sequence that completed normally ran both of its parts. *)
Lemma bind_completed {A B} (m : M A) (f : A -> M B) (s : St) (b : B) :
  fst (bind m f s) = Normal b ->
  exists a, fst (m s) = Normal a /\ bind m f s = f a (snd (m s)).
Proof.
  unfold bind. destruct (m s) as [[a|] s1]; simpl; [|discriminate].
  intros _. now exists a.
Qed.

Lemma try_catch_some {A} (m : M (option A)) (s : St) (a : A) :
  fst (try_catch m (ret None) s) = Normal (Some a) ->
  fst (m s) = Normal (Some a) /\ try_catch m (ret None) s = m s.
Proof.
  unfold try_catch. destruct (m s) as [[r|] s1]; simpl; [|discriminate].
  intros [= ->]. now split.
Qed.

End Generic.

Section Finder.
Context {W E : Type}.
Variable driver : Driver W E.

Lemma findAllElementTypes_raises (s : Effects.St W E ElementFinder.FoundElements) :
  fails (find_all driver "//android.widget.TextView") ->
  fst (ElementFinder.findAllElementTypes driver s) = Raised.
Proof.
  intro Hfails. unfold ElementFinder.findAllElementTypes.
  destruct (bind_returns (ElementFinder.findButtons driver)
              (fun _ => bind (ElementFinder.findInputFields driver)
                 (fun _ => bind (ElementFinder.findTextElements driver)
                    (fun _ => bind (ElementFinder.findImageElements driver)
                       (fun _ => bind (ElementFinder.findListElements driver)
                          (fun _ => bind (ElementFinder.findCheckboxes driver)
                             (fun _ => bind (ElementFinder.findCustomElements driver)
                                (fun _ => get_heap)))))))
              s (FinderFacts.findButtons_returns driver)) as ([] & _ & ->).
  destruct (bind_returns (ElementFinder.findInputFields driver)
              (fun _ => bind (ElementFinder.findTextElements driver)
                 (fun _ => bind (ElementFinder.findImageElements driver)
                    (fun _ => bind (ElementFinder.findListElements driver)
                       (fun _ => bind (ElementFinder.findCheckboxes driver)
                          (fun _ => bind (ElementFinder.findCustomElements driver)
                             (fun _ => get_heap))))))
              (snd (ElementFinder.findButtons driver s))
              (FinderFacts.findInputFields_returns driver)) as ([] & _ & ->).
  set (s2 := snd (ElementFinder.findInputFields driver _)).
  rewrite bind_stops; [reflexivity|].
  pose proof (MoreFinderFacts.findTextElements_outcome driver s2) as Htext.
  destruct (Hfails (world s2)) as [Hq | Hq]; rewrite Hq in Htext; exact Htext.
Qed.

End Finder.

Section Scripts.
Context {W E I : Type}.
Variable host : Host W.
Variable driver : Driver W E.
Local Abbreviation St := (Effects.St W E (Run I)).
Local Abbreviation M := (Effects.M W E (Run I)).

(** Nothing was written since [hc0]. *)
Local Abbreviation unwritten hc0 :=
  (lifted (fun (_ : list (Call E)) (r : Run I) =>
             exists new, host_calls r = hc0 ++ new /\ count_host is_write new = 0)).

Lemma unwritten_log hc0 (c : HostCall) (cs : list (Call E)) (r : Run I) :
  is_write c = false ->
  (exists new, host_calls r = hc0 ++ new /\ count_host is_write new = 0) ->
  exists new, host_calls (log_host c r) = hc0 ++ new /\ count_host is_write new = 0.
Proof.
  intros Hc (new & Hnew & Hcount). exists (new ++ [c]). simpl.
  rewrite Hnew, app_assoc. split; [reflexivity|].
  rewrite count_host_app, Hcount. unfold count_host. simpl. now rewrite Hc.
Qed.

Lemma release_session_spec (s : St) :
  let after := snd (@release_session W E host I s) in
  instance (heap after) = instance (heap s)
  /\ exists last, host_calls (heap after) = host_calls (heap s) ++ last
                  /\ (last = [] \/ last = [HDeleteSession]).
Proof.
  unfold release_session, bind, get_heap.
  destruct (driver_assigned (heap s)).
  - unfold host_call. destruct (deleteSession host (world s)) as [[[]| |] w]; simpl;
      (split; [reflexivity | exists [HDeleteSession]; split; [reflexivity | now right]]).
  - simpl. split; [reflexivity|]. exists []. rewrite app_nil_r.
    split; [reflexivity | now left].
Qed.

(** A script whose work, once connected, raises before it writes: no
    results, and nothing written. *)
Lemma script_without_report {A} (rest : M (option A)) (s : St) :
  (forall s', fst (rest s') = Raised
              /\ host_calls (heap (snd (rest s'))) = host_calls (heap s')) ->
  let run := bind (@ensure_directories W E host I)
               (fun _ => bind (modify_heap (assign_driver false))
                  (fun _ => try_finally
                              (try_catch (bind (@connect W E host driver I) (fun _ => rest))
                                         (ret None))
                              (@release_session W E host I))) s in
  (forall results, fst run <> Normal (Some results))
  /\ exists new, host_calls (heap (snd run)) = host_calls (heap s) ++ new
                 /\ count_host is_write new = 0.
Proof.
  intros Hrest run. split.
  - intros results Hresults. subst run.
    destruct (bind_completed _ _ _ _ Hresults) as ([] & _ & Hresults').
    rewrite Hresults' in Hresults. clear Hresults'.
    destruct (bind_completed _ _ _ _ Hresults) as ([] & _ & Hresults').
    rewrite Hresults' in Hresults. clear Hresults'.
    unfold try_finally in Hresults.
    match type of Hresults with
    | context [try_catch ?m ?h ?s2] =>
        assert (Htry : fst (try_catch m h s2) = Normal None);
        [| destruct (try_catch m h s2) as [r s3]; simpl in Htry; subst r ]
    end.
    { unfold try_catch, bind.
      destruct (@connect W E host driver I _) as [[[]|] s3]; [|reflexivity].
      destruct (Hrest s3) as [Hraised _].
      destruct (rest s3) as [r s4]. simpl in Hraised. now subst r. }
    destruct (@release_session W E host I s3) as [[[]|] s4]; discriminate Hresults.
  - subst run.
    cut (triple (unwritten (host_calls (heap s)))
           (bind (@ensure_directories W E host I)
              (fun _ => bind (modify_heap (assign_driver false))
                 (fun _ => try_finally
                             (try_catch (bind (@connect W E host driver I) (fun _ => rest))
                                        (ret None))
                             (@release_session W E host I))))
           (unwritten (host_calls (heap s)))).
    { intro Hkeep. apply Hkeep. exists []. rewrite app_nil_r. now split. }
    apply preserves_bind; [|intros _].
    { intros s' (new & Hnew & Hcount).
      destruct (ensure_directories_spec host s') as (_ & _ & _ & dirs & Hdirs & Hall).
      exists (new ++ dirs). unfold lifted. rewrite Hdirs, Hnew, app_assoc.
      split; [reflexivity|]. rewrite count_host_app, Hcount. simpl.
      unfold count_host. clear - Hall.
      induction Hall as [|c dirs Hc _ IH]; [reflexivity|].
      simpl. destruct c; try discriminate Hc. exact IH. }
    apply preserves_bind; [apply preserves_modify_heap; intros; assumption | intros _].
    apply (triple_try_finally _ (unwritten (host_calls (heap s)))).
    + apply preserves_try_catch; [|apply preserves_ret].
      apply preserves_bind; [|intros _].
      * unfold connect. repeat preserves_step; intros; trivial.
        apply triple_host_call. intros cs r. now apply unwritten_log.
      * intros s' (new & Hnew & Hcount). destruct (Hrest s') as [_ Hsame].
        exists new. unfold lifted. now rewrite Hsame.
    + intros s' (new & Hnew & Hcount).
      destruct (release_session_spec s') as (_ & last & Hlast & Hcases).
      exists (new ++ last). unfold lifted. rewrite Hlast, Hnew, app_assoc.
      split; [reflexivity|]. rewrite count_host_app, Hcount.
      now destruct Hcases as [-> | ->].
Qed.

End Scripts.
End ReportFacts.

(** X20.  At the level of the script: when the TextView query fails,
    [runElementFinder] returns no results and writes no report, whatever
    else succeeds. *)
Theorem text_query_failure_leaves_no_report
        (W E : Type) (host : Runs.Host W) (driver : Driver W E)
        (stringify : Runs.FinderResults -> string)
        (s : St W E (Runs.Run ElementFinder.FoundElements)) :
  fails (find_all driver "//android.widget.TextView") ->
  let run := Runs.runElementFinder host driver stringify s in
  (forall results, fst run <> Normal (Some results))
  /\ exists new,
      Runs.host_calls (heap (snd run)) = Runs.host_calls (heap s) ++ new
      /\ count_host is_write new = 0.
Proof.
  intros Hfails run. subst run. unfold Runs.runElementFinder.
  apply (ReportFacts.script_without_report host driver).
  intro s'.
  set (s1 := {| world := world s'; calls := calls s';
                heap := Runs.set_instance ElementFinder.no_elements (heap s') |}).
  destruct (ScriptPaths.zoom_spec (ElementFinder.findAllElementTypes driver) s1)
    as (Hfst & _ & _ & _ & Hhost).
  rewrite ReportFacts.findAllElementTypes_raises in Hfst by assumption.
  match goal with
  | |- fst ?r = _ /\ _ =>
      assert (Hrun : r = (Raised,
                          snd (Runs.zoom (ElementFinder.findAllElementTypes driver) s1)))
  end.
  { unfold bind at 1. cbn [modify_heap]. fold s1.
    now rewrite ReportFacts.bind_stops by exact Hfst. }
  rewrite Hrun. split; [reflexivity | exact Hhost].
Qed.

Lemma text_query_failure_leaves_no_report_witness :
  fst (Runs.runElementFinder (MockHost.host MockHost.sound)
         (Mock.session Mock.textview_query_rejects) MockHost.stringify_finder
         (MockHost.script_start ElementFinder.no_elements))
  = Normal None
  /\ forall results,
      fst (Runs.runElementFinder (MockHost.host MockHost.sound)
             (Mock.session Mock.textview_query_rejects) MockHost.stringify_finder
             (MockHost.script_start ElementFinder.no_elements))
      <> Normal (Some results).
Proof.
  split; [vm_compute; reflexivity|].
  apply (text_query_failure_leaves_no_report unit Mock.node
           (MockHost.host MockHost.sound) (Mock.session Mock.textview_query_rejects)
           MockHost.stringify_finder (MockHost.script_start ElementFinder.no_elements)).
  intro w. left. reflexivity.
Defined.

Module ReportPaths.
Import Rules MoreRules Runs RunFacts ScriptPaths ReportFacts.

Section Paths.
Context {W E I : Type}.
Variable host : Host W.
Variable driver : Driver W E.
Local Abbreviation St := (Effects.St W E (Run I)).
Local Abbreviation M := (Effects.M W E (Run I)).

Lemma connect_assigns (s : St) :
  fst (@connect W E host driver I s) = Normal tt ->
  driver_assigned (heap (snd (@connect W E host driver I s))) = true.
Proof.
  unfold connect, bind, host_call, modify_heap, wait.
  destruct (remote host (world s)) as [[[]| |] w]; simpl; try discriminate; reflexivity.
Qed.

(** A script that returned results: the work after the connection
    completed with them, and the session was deleted right after. *)
Lemma script_reported {A} (rest : M (option A)) (s : St) (a : A) :
  preserves (lifted (fun (_ : list (Call E)) (r : Run I) => driver_assigned r = true)) rest ->
  let run := bind (@ensure_directories W E host I)
               (fun _ => bind (modify_heap (assign_driver false))
                  (fun _ => try_finally
                              (try_catch (bind (@connect W E host driver I) (fun _ => rest))
                                         (ret None))
                              (@release_session W E host I))) s in
  fst run = Normal (Some a) ->
  exists s3,
    fst (rest s3) = Normal (Some a)
    /\ heap (snd run) = log_host HDeleteSession (heap (snd (rest s3))).
Proof.
  intros Hkeep run Hrun. subst run.
  destruct (bind_completed _ _ _ _ Hrun) as ([] & _ & Heq).
  rewrite Heq in *. clear Heq.
  destruct (bind_completed _ _ _ _ Hrun) as ([] & _ & Heq).
  rewrite Heq in *. clear Heq.
  set (s2 := snd (modify_heap (assign_driver false) (snd (@ensure_directories W E host I s)))) in *.
  unfold try_finally in *.
  destruct (try_catch (bind (@connect W E host driver I) (fun _ => rest)) (ret None) s2)
    as [r s7] eqn:Htry.
  destruct (@release_session W E host I s7) as [[[]|] s8] eqn:Hrelease;
    simpl in Hrun; [|discriminate]. subst r.
  assert (Htry' : fst (try_catch (bind (@connect W E host driver I) (fun _ => rest))
                                 (ret None) s2) = Normal (Some a))
    by now rewrite Htry.
  destruct (try_catch_some _ _ _ Htry') as [Hm Hsame]. rewrite Hsame in Htry.
  destruct (bind_completed _ _ _ _ Hm) as ([] & Hconnect & Heq).
  rewrite Heq in Htry, Hm. clear Heq.
  exists (snd (@connect W E host driver I s2)). split; [exact Hm|].
  pose proof (Hkeep _ (connect_assigns s2 Hconnect)) as Hassigned.
  unfold lifted in Hassigned. rewrite Htry in *. simpl in Hassigned |- *.
  unfold release_session, bind, get_heap in Hrelease. rewrite Hassigned in Hrelease.
  unfold host_call in Hrelease.
  destruct (deleteSession host (world s7)) as [[[]| |] w]; inversion Hrelease; reflexivity.
Qed.

Lemma read_appInfo_heap (s : St) :
  heap (snd (@read_appInfo W E driver I s)) = heap s.
Proof.
  apply (ScriptFacts.read_appInfo_frame driver (fun _ r => r = heap s)); [|reflexivity].
  intros; assumption.
Qed.

End Paths.
End ReportPaths.

(** X21.  When [runDeepInspection] returns a results object, that object
    is consistent and was written: its screens are those the discovery
    instance collected, at most six; its test cases are the ones generated
    from these screens; the summary counts both, with at least one case per
    screen; and the last two things asked of the host were to write the
    serialised results to ./test-results/deep_inspection.json and to delete
    the session. *)
Theorem deep_inspection_report
        (W E : Type) (host : Runs.Host W) (driver : Driver W E)
        (stringify : Runs.DeepResults -> string)
        (s : St W E (Runs.Run (Heap E))) (results : Runs.DeepResults) :
  let run := Runs.runDeepInspection host driver stringify s in
  fst run = Normal (Some results) ->
  let screens := Runs.deep_discoveredScreens results in
  let summary := Runs.deep_summary results in
  screens = discoveredScreens (Runs.instance (heap (snd run)))
  /\ List.length screens <= 6
  /\ Runs.deep_generatedTestCases results = TestCases.generateTestCases screens
  /\ Runs.totalScreens summary = List.length screens
  /\ Runs.totalTestCases summary = List.length (Runs.deep_generatedTestCases results)
  /\ Runs.totalScreens summary <= Runs.totalTestCases summary
  /\ exists before,
      Runs.host_calls (heap (snd run))
      = before ++ [Runs.HWriteFile "./test-results/deep_inspection.json" (stringify results);
                   Runs.HDeleteSession].
Proof.
  intros run Hrun screens summary. subst run screens summary.
  unfold Runs.runDeepInspection in *.
  apply ReportPaths.script_reported in Hrun as Hpath.
  2:{ repeat first
        [ Rules.preserves_step
        | apply RunFacts.preserves_zoom; intros cs cs' r i Ha; exact Ha
        | apply ScriptFacts.read_appInfo_frame ];
      try (intros; assumption).
      apply RunFacts.triple_host_call. intros cs r Hr. exact Hr. }
  destruct Hpath as (s3 & Hrest & Hheap). rewrite Hheap. clear Hheap Hrun.
  destruct (ReportFacts.bind_completed _ _ _ _ Hrest) as ([] & _ & Heq).
  rewrite Heq in *. clear Heq.
  set (s4 := snd (modify_heap (Runs.set_instance (Runs.new_discovery E)) s3)) in *.
  destruct (ReportFacts.bind_completed _ _ _ _ Hrest) as ([] & _ & Heq).
  rewrite Heq in *. clear Heq.
  destruct (ScriptPaths.zoom_spec (exploreClickableElements driver) s4)
    as (_ & _ & Hinstance & _ & _).
  pose proof (ExploreFacts.exploreClickableElements_within driver
                {| world := world s4; calls := calls s4;
                   heap := Runs.instance (heap s4) |}) as (_ & more & Hmore & Hlength).
  rewrite <- Hinstance in Hmore. clear Hinstance.
  set (s5 := snd (Runs.zoom (exploreClickableElements driver) s4)) in *.
  destruct (ReportFacts.bind_completed _ _ _ _ Hrest) as (discovery & Hdiscovery & Heq).
  rewrite Heq in *. clear Heq.
  assert (Hs5 : discovery = Runs.instance (heap s5)
                /\ heap (snd (Runs.zoom get_heap s5)) = heap s5).
  { unfold Runs.zoom, get_heap in *. simpl in *. injection Hdiscovery as <-.
    split; [reflexivity|]. now destruct (heap s5). }
  destruct Hs5 as [-> Hs5'].
  set (s5' := snd (Runs.zoom get_heap s5)) in *.
  destruct (ReportFacts.bind_completed _ _ _ _ Hrest) as (timestamp & _ & Heq).
  rewrite Heq in *. clear Heq. cbn [toISOString snd] in Hrest |- *.
  destruct (ReportFacts.bind_completed _ _ _ _ Hrest) as (appInfo & _ & Heq).
  rewrite Heq in *. clear Heq.
  pose proof (ReportPaths.read_appInfo_heap driver s5') as Hs6.
  set (s6 := snd (Runs.read_appInfo driver s5')) in *.
  cbv zeta in Hrest |- *.
  destruct (ReportFacts.bind_completed _ _ _ _ Hrest) as ([] & _ & Heq).
  rewrite Heq in *. clear Heq.
  unfold ret in Hrest |- *. cbn [fst snd] in Hrest |- *.
  injection Hrest as <-. cbn [Runs.deep_discoveredScreens Runs.deep_generatedTestCases
                               Runs.deep_summary Runs.totalScreens Runs.totalTestCases].
  assert (Hscreens : discoveredScreens (Runs.instance (heap s5)) = more).
  { rewrite Hmore. subst s4. reflexivity. }
  assert (Hwritten : forall c op,
             heap (snd (Runs.host_call (A := unit) c op s6)) = Runs.log_host c (heap s5)).
  { intros c op. unfold Runs.host_call.
    destruct (op (world s6)) as [[[]| |] w]; simpl; now rewrite Hs6, Hs5'. }
  rewrite Hwritten. cbn [Runs.log_host Runs.instance Runs.host_calls].
  split; [reflexivity|]. split; [rewrite Hscreens; simpl in Hlength; exact Hlength|].
  split; [reflexivity|]. split; [reflexivity|]. split; [reflexivity|].
  split.
  - rewrite TestCaseFacts.generateTestCases_length.
    apply TestCaseFacts.cases_at_least_screens.
  - exists (Runs.host_calls (heap s5)). now rewrite <- app_assoc.
Qed.

Lemma deep_inspection_report_witness :
  exists results,
    fst (Runs.runDeepInspection (MockHost.host MockHost.sound)
           (Mock.session Mock.healthy) MockHost.stringify_deep
           (MockHost.script_start (Runs.new_discovery Mock.node)))
    = Normal (Some results)
    /\ List.length (Runs.deep_discoveredScreens results) <= 6
    /\ Runs.totalScreens (Runs.deep_summary results)
       <= Runs.totalTestCases (Runs.deep_summary results).
Proof.
  destruct (fst (Runs.runDeepInspection (MockHost.host MockHost.sound)
                   (Mock.session Mock.healthy) MockHost.stringify_deep
                   (MockHost.script_start (Runs.new_discovery Mock.node))))
    as [[results|]|] eqn:Hrun;
    [| vm_compute in Hrun; discriminate Hrun | vm_compute in Hrun; discriminate Hrun].
  exists results. split; [reflexivity|].
  pose proof (deep_inspection_report unit Mock.node (MockHost.host MockHost.sound)
                (Mock.session Mock.healthy) MockHost.stringify_deep
                (MockHost.script_start (Runs.new_discovery Mock.node)) results Hrun)
    as Hreport.
  cbv zeta in Hreport. destruct Hreport as (_ & Hscreens & _ & _ & _ & Hcases & _).
  split; [exact Hscreens | exact Hcases].
Defined.

(** X22.  When [runElementFinder] returns a results object, its elements
    are the accumulator of the finder instance, no list of which holds two
    descriptors with the same resource id, text and class name; and the
    last two things asked of the host were to write the serialised results
    to ./test-results/element_discovery.json and to delete the session. *)
Theorem element_finder_report
        (W E : Type) (host : Runs.Host W) (driver : Driver W E)
        (stringify : Runs.FinderResults -> string)
        (s : St W E (Runs.Run ElementFinder.FoundElements))
        (results : Runs.FinderResults) :
  let run := Runs.runElementFinder host driver stringify s in
  fst run = Normal (Some results) ->
  Runs.finder_elements results = Runs.instance (heap (snd run))
  /\ distinct_keys (Runs.finder_elements results)
  /\ exists before,
      Runs.host_calls (heap (snd run))
      = before ++ [Runs.HWriteFile "./test-results/element_discovery.json"
                                   (stringify results);
                   Runs.HDeleteSession].
Proof.
  intros run Hrun. subst run.
  unfold Runs.runElementFinder in *.
  apply ReportPaths.script_reported in Hrun as Hpath.
  2:{ repeat first
        [ Rules.preserves_step
        | apply RunFacts.preserves_zoom; intros cs cs' r i Ha; exact Ha
        | apply ScriptFacts.read_appInfo_frame ];
      try (intros; assumption).
      apply RunFacts.triple_host_call. intros cs r Hr. exact Hr. }
  destruct Hpath as (s3 & Hrest & Hheap). rewrite Hheap. clear Hheap Hrun.
  destruct (ReportFacts.bind_completed _ _ _ _ Hrest) as ([] & _ & Heq).
  rewrite Heq in *. clear Heq.
  set (s4 := snd (modify_heap (Runs.set_instance ElementFinder.no_elements) s3)) in *.
  destruct (ReportFacts.bind_completed _ _ _ _ Hrest) as (found & Hfound & Heq).
  rewrite Heq in *. clear Heq.
  destruct (ScriptPaths.zoom_spec (ElementFinder.findAllElementTypes driver) s4)
    as (Hfst & _ & Hinstance & _ & _).
  rewrite Hfst in Hfound.
  apply MoreFinderFacts.findAllElementTypes_returns_heap in Hfound.
  rewrite <- Hinstance in Hfound.
  assert (Hdistinct : distinct_keys (Runs.instance
                        (heap (snd (Runs.zoom (ElementFinder.findAllElementTypes driver) s4))))).
  { rewrite Hinstance.
    apply (MoreFinderFacts.findAllElementTypes_distinct driver).
    intro k. subst s4. simpl. destruct k; constructor. }
  clear Hfst Hinstance.
  set (s5 := snd (Runs.zoom (ElementFinder.findAllElementTypes driver) s4)) in *.
  destruct (ReportFacts.bind_completed _ _ _ _ Hrest) as ([] & _ & Heq).
  rewrite Heq in *. clear Heq.
  assert (Hshot : forall c op, heap (snd (call (A := unit) c op s5)) = heap s5).
  { intros c op. unfold call. now destruct (op (world s5)) as [[[]| |] w]. }
  specialize (Hshot (CSaveScreenshot "./screenshots/element_discovery.png")
                    (saveScreenshot driver "./screenshots/element_discovery.png")).
  set (s5' := snd (call (CSaveScreenshot "./screenshots/element_discovery.png")
                        (saveScreenshot driver "./screenshots/element_discovery.png") s5)) in *.
  destruct (ReportFacts.bind_completed _ _ _ _ Hrest) as (timestamp & _ & Heq).
  rewrite Heq in *. clear Heq. cbn [toISOString snd] in Hrest |- *.
  destruct (ReportFacts.bind_completed _ _ _ _ Hrest) as (appInfo & _ & Heq).
  rewrite Heq in *. clear Heq.
  pose proof (ReportPaths.read_appInfo_heap driver s5') as Hs6.
  set (s6 := snd (Runs.read_appInfo driver s5')) in *.
  cbv zeta in Hrest |- *.
  destruct (ReportFacts.bind_completed _ _ _ _ Hrest) as ([] & _ & Heq).
  rewrite Heq in *. clear Heq.
  unfold ret in Hrest |- *. cbn [fst snd] in Hrest |- *.
  injection Hrest as <-. cbn [Runs.finder_elements].
  assert (Hwritten : forall c op,
             heap (snd (Runs.host_call (A := unit) c op s6)) = Runs.log_host c (heap s5)).
  { intros c op. unfold Runs.host_call.
    destruct (op (world s6)) as [[[]| |] w]; simpl; now rewrite Hs6, Hshot. }
  rewrite Hwritten. cbn [Runs.log_host Runs.instance Runs.host_calls].
  split; [exact Hfound|]. split; [rewrite Hfound; exact Hdistinct|].
  exists (Runs.host_calls (heap s5)). now rewrite <- app_assoc.
Qed.

Lemma element_finder_report_witness :
  exists results,
    fst (Runs.runElementFinder (MockHost.host MockHost.sound)
           (Mock.session Mock.healthy) MockHost.stringify_finder
           (MockHost.script_start ElementFinder.no_elements))
    = Normal (Some results)
    /\ distinct_keys (Runs.finder_elements results).
Proof.
  destruct (fst (Runs.runElementFinder (MockHost.host MockHost.sound)
                   (Mock.session Mock.healthy) MockHost.stringify_finder
                   (MockHost.script_start ElementFinder.no_elements)))
    as [[results|]|] eqn:Hrun;
    [| vm_compute in Hrun; discriminate Hrun | vm_compute in Hrun; discriminate Hrun].
  exists results. split; [reflexivity|].
  pose proof (element_finder_report unit Mock.node (MockHost.host MockHost.sound)
                (Mock.session Mock.healthy) MockHost.stringify_finder
                (MockHost.script_start ElementFinder.no_elements) results Hrun)
    as Hreport.
  cbv zeta in Hreport. destruct Hreport as (_ & Hdistinct & _).
  exact Hdistinct.
Defined.

(** X23.  Unlike the discovery class, which tolerates a failed screenshot,
    [runElementFinder] depends on its own: when saving
    ./screenshots/element_discovery.png fails, the script returns no
    results and writes no report. *)
Theorem finder_screenshot_failure_leaves_no_report
        (W E : Type) (host : Runs.Host W) (driver : Driver W E)
        (stringify : Runs.FinderResults -> string)
        (s : St W E (Runs.Run ElementFinder.FoundElements)) :
  fails (saveScreenshot driver "./screenshots/element_discovery.png") ->
  let run := Runs.runElementFinder host driver stringify s in
  (forall results, fst run <> Normal (Some results))
  /\ exists new,
      Runs.host_calls (heap (snd run)) = Runs.host_calls (heap s) ++ new
      /\ count_host is_write new = 0.
Proof.
  intros Hfails run. subst run. unfold Runs.runElementFinder.
  apply (ReportFacts.script_without_report host driver).
  intro s'.
  set (s1 := {| world := world s'; calls := calls s';
                heap := Runs.set_instance ElementFinder.no_elements (heap s') |}).
  destruct (ScriptPaths.zoom_spec (ElementFinder.findAllElementTypes driver) s1)
    as (_ & _ & _ & _ & Hhost).
  set (s2 := snd (Runs.zoom (ElementFinder.findAllElementTypes driver) s1)) in *.
  assert (Hshot : fst (call (CSaveScreenshot "./screenshots/element_discovery.png")
                         (saveScreenshot driver "./screenshots/element_discovery.png") s2)
                  = Raised
                  /\ heap (snd (call (CSaveScreenshot "./screenshots/element_discovery.png")
                         (saveScreenshot driver "./screenshots/element_discovery.png") s2))
                     = heap s2).
  { unfold call. specialize (Hfails (world s2)).
    destruct (saveScreenshot driver _ (world s2)) as [[[]| |] w]; simpl in *;
      destruct Hfails; try discriminate; now split. }
  destruct Hshot as [Hraised Hsame].
  match goal with
  | |- fst ?r = _ /\ _ =>
      assert (Hrun : exists s9,
                 r = (Raised, s9)
                 /\ Runs.host_calls (heap s9) = Runs.host_calls (heap s1))
  end.
  { unfold bind at 1. cbn [modify_heap]. fold s1.
    destruct (fst (Runs.zoom (ElementFinder.findAllElementTypes driver) s1))
      as [found|] eqn:Hfound.
    - subst s2. revert Hraised Hsame Hhost Hfound. unfold bind at 1.
      destruct (Runs.zoom (ElementFinder.findAllElementTypes driver) s1) as [r s2].
      cbn [fst snd]. intros Hraised Hsame Hhost ->.
      rewrite ReportFacts.bind_stops by exact Hraised.
      eexists. split; [reflexivity|]. now rewrite Hsame.
    - rewrite ReportFacts.bind_stops by exact Hfound.
      eexists. split; [reflexivity | exact Hhost]. }
  destruct Hrun as (s9 & -> & Hs9). split; [reflexivity | exact Hs9].
Qed.

Lemma finder_screenshot_failure_leaves_no_report_witness :
  fst (Runs.runElementFinder (MockHost.host MockHost.sound)
         (Mock.session Mock.screenshot_fails) MockHost.stringify_finder
         (MockHost.script_start ElementFinder.no_elements))
  = Normal None
  /\ forall results,
      fst (Runs.runElementFinder (MockHost.host MockHost.sound)
             (Mock.session Mock.screenshot_fails) MockHost.stringify_finder
             (MockHost.script_start ElementFinder.no_elements))
      <> Normal (Some results).
Proof.
  split; [vm_compute; reflexivity|].
  apply (finder_screenshot_failure_leaves_no_report unit Mock.node
           (MockHost.host MockHost.sound) (Mock.session Mock.screenshot_fails)
           MockHost.stringify_finder (MockHost.script_start ElementFinder.no_elements)).
  intro w. left. reflexivity.
Defined.

(** X24.  [discoverElementsOnCurrentScreen] raises in one case only: the
    screen information was obtained and its activity is null, on which
    [screenInfo.activity.split('.')] throws.  In every other case it
    completes normally: with null when the screen information could not
    be obtained, with a snapshot otherwise, whatever the queries and the
    screenshot do. *)
Theorem capture_raises_on_null_activity
        (W E : Type) (driver : Driver W E) (s : St W E (Heap E)) :
  let capture := discoverElementsOnCurrentScreen driver s in
  match fst (getCurrentScreenInfo driver s) with
  | Normal (Some info) =>
      match activity info with
      | None => fst capture = Raised
      | Some name =>
          exists screen,
            fst capture = Normal (Some screen)
            /\ screenInfo screen = with_activity info name
      end
  | Normal None => fst capture = Normal None
  | Raised => False
  end.
Proof.
  intro capture. subst capture.
  destruct (DiscoveryFacts.getCurrentScreenInfo_returns driver s) as [oinfo Hinfo].
  destruct (getCurrentScreenInfo driver s) as [r s1] eqn:Einfo.
  cbn [fst] in *. subst r. destruct oinfo as [info|].
  - destruct (activity info) as [name|] eqn:Hname.
    + destruct (DiscoveryFacts.discover_some driver s s1 info name Einfo Hname)
        as (shot & _ & Hsome).
      rewrite Hsome. eexists. split; reflexivity.
    + now rewrite (DiscoveryFacts.discover_null driver s s1 info Einfo Hname).
  - now rewrite (DiscoveryFacts.discover_none driver s s1 Einfo).
Qed.
